(** * Storefront simulator: cart, checkout and order log

    A shallow embedding of the two C++ programs of the repository,
    [1.cpp] (orders appended to the text file [orders.log] and re-parsed
    on every "view orders") and [tempCodeRunnerFile.cpp] (orders kept in
    a global array of 100 pointers), together with the properties that
    the specification states about them.

    Conventions of the embedding.
    - [int] is a 32-bit two's complement integer carried by [Z]; the
      result of [+] is wrapped by [wrap_int].  (Signed overflow is
      undefined in C++; the wrap-around is what the usual targets do.)
    - [double] is IEEE 754 binary64 with round-to-nearest-even, carried
      by the primitive [float] of Rocq.
    - [size_t] is a 64-bit unsigned integer carried by [N]; [npos] is
      [2^64 - 1] and arithmetic on positions wraps modulo [2^64].
    - Objects created with [new CartItem] live in a heap, a finite map
      from locations to [CartItem] values; [delete] removes the
      location.  Reading through a deleted pointer, deleting it twice,
      calling through a null pointer and writing outside an array are
      undefined behaviour and end the run with [Undef].
    - C++ exceptions are the constructor [Throw] of [outcome], which
      carries the state at the [throw]. *)

From Stdlib Require Import ZArith NArith List String Ascii Bool Lia.
From Stdlib Require Import DecimalString.
From Stdlib Require DecimalPos DecimalZ.
From Stdlib Require Import Floats Uint63.
From stdpp Require Import base option list gmap.
From Equations Require Import Equations.
From Equations.Prop Require Import Logic.

Local Open Scope Z_scope.

(** ** Machine integers *)

Definition INT_MIN : Z := - 2 ^ 31.
Definition INT_MAX : Z := 2 ^ 31 - 1.

Definition in_int_range (z : Z) : Prop := INT_MIN <= z <= INT_MAX.

(** Two's complement reduction of a mathematical integer to [int]. *)
Definition wrap_int (z : Z) : Z := (z + 2 ^ 31) mod 2 ^ 32 - 2 ^ 31.

(** [a + b] on [int]. *)
Definition int_add (a b : Z) : Z := wrap_int (a + b).

(** [a * b] on [int]. *)
Definition int_mul (a b : Z) : Z := wrap_int (a * b).

(** Conversion [int -> double]; exact, since [|z| <= 2^31 < 2^53]. *)
Definition double_of_int (z : Z) : float :=
  if z <? 0 then PrimFloat.opp (PrimFloat.of_uint63 (Uint63.of_Z (- z)))
  else PrimFloat.of_uint63 (Uint63.of_Z z).

(** * Strings, streams and number formatting *)

Definition newline : ascii := "010"%char.
Definition tab : ascii := "009"%char.

(** ** [size_t] positions *)

Definition npos : N := (2 ^ 64 - 1)%N.
Definition size_add (a b : N) : N := ((a + b) mod 2 ^ 64)%N.
Definition size_sub (a b : N) : N := ((a + 2 ^ 64 - b) mod 2 ^ 64)%N.

Definition size (s : string) : N := N.of_nat (String.length s).
Definition empty (s : string) : bool :=
  match s with EmptyString => true | String _ _ => false end.

(** Whether the character [c] occurs in [s]. *)
Fixpoint has_char (c : ascii) (s : string) : bool :=
  match s with
  | EmptyString => false
  | String d s' => Ascii.eqb d c || has_char c s'
  end.

(** Every character of [s] satisfies [P]. *)
Fixpoint all_chars (P : ascii -> bool) (s : string) : bool :=
  match s with
  | EmptyString => true
  | String c s' => P c && all_chars P s'
  end.

Definition is_digit (c : ascii) : bool :=
  (48 <=? nat_of_ascii c)%nat && (nat_of_ascii c <=? 57)%nat.

(** The characters of a printed [int], and of a printed [double]. *)
Definition int_char (c : ascii) : bool := is_digit c || Ascii.eqb c "-".
Definition num_char (c : ascii) : bool := is_digit c || has_char c "-+.einfa".

(** ** [std::string::find] and [substr] *)

(** Search for [needle] at the positions [i, i+1, ...] of the suffix
    [hay], accepting a match only from position [pos] on. *)
Fixpoint find_at (needle hay : string) (i pos : N) : N :=
  if (pos <=? i)%N && String.prefix needle hay then i
  else match hay with
       | EmptyString => npos
       | String _ hay' => find_at needle hay' (N.succ i) pos
       end.

(** [hay.find(needle, pos)]. *)
Definition find (hay needle : string) (pos : N) : N :=
  find_at needle hay 0 pos.

(** [hay.find(c, pos)] for a character. *)
Definition find_char (hay : string) (c : ascii) (pos : N) : N :=
  find hay (String c EmptyString) pos.

Fixpoint drop_chars (n : N) (s : string) : string :=
  match s with
  | EmptyString => EmptyString
  | String _ s' => if (n =? 0)%N then s else drop_chars (N.pred n) s'
  end.

Fixpoint take_chars (n : N) (s : string) : string :=
  match s with
  | EmptyString => EmptyString
  | String c s' =>
      if (n =? 0)%N then EmptyString else String c (take_chars (N.pred n) s')
  end.

(** [s.substr(pos, len)]: [None] stands for the [std::out_of_range]
    that is thrown when [pos > s.size()]. *)
Definition substr (s : string) (pos len : N) : option string :=
  if (size s <? pos)%N then None else Some (take_chars len (drop_chars pos s)).

(** ** [std::getline] on an input stream

    The stream is the text that has not been read yet. *)

(** The characters before the first newline, and the text after it. *)
Fixpoint read_line (stream : string) : string * string :=
  match stream with
  | EmptyString => (EmptyString, EmptyString)
  | String c rest =>
      if Ascii.eqb c newline then (EmptyString, rest)
      else let (line, rest') := read_line rest in (String c line, rest')
  end.

(** [getline(stream, line)]: fails ([None]) when nothing is left. *)
Definition getline (stream : string) : option (string * string) :=
  match stream with
  | EmptyString => None
  | String _ _ => Some (read_line stream)
  end.

(** ** Formatting numbers *)

Definition decimal (n : Z) : string :=
  NilZero.string_of_uint (N.to_uint (Z.to_N n)).

(** [std::to_string(int)] and [std::to_string(long)]. *)
Definition to_string_int (z : Z) : string :=
  NilZero.string_of_int (Z.to_int z).

Fixpoint zeros (n : nat) : string :=
  match n with O => EmptyString | S n' => String "0"%char (zeros n') end.

(** Left-pad with ['0'] to [width] characters. *)
Definition pad_left (width : nat) (s : string) : string :=
  (zeros (width - String.length s) ++ s)%string.

(** Remove the trailing ['0'] characters. *)
Fixpoint strip_zeros (s : string) : string :=
  match s with
  | EmptyString => EmptyString
  | String c s' =>
      match strip_zeros s' with
      | EmptyString => if Ascii.eqb c "0"%char then EmptyString
                       else String c EmptyString
      | r => String c r
      end
  end.

(** [num / den] rounded to the nearest integer, ties to even. *)
Definition round_half_even (num den : Z) : Z :=
  let q := num / den in
  let r := num mod den in
  if 2 * r <? den then q
  else if den <? 2 * r then q + 1
  else if Z.even q then q else q + 1.

Definition sign_string (s : bool) : string :=
  if s then "-"%string else EmptyString.

(** [std::to_string(double)], that is [printf("%f")]: six digits after
    the point, correctly rounded. *)
Definition to_string_double (x : float) : string :=
  match Prim2SF x with
  | S754_zero s => (sign_string s ++ "0.000000")%string
  | S754_infinity s => (sign_string s ++ "inf")%string
  | S754_nan => "nan"%string
  | S754_finite s m e =>
      let n := if 0 <=? e then Z.pos m * 2 ^ e * 10 ^ 6
               else round_half_even (Z.pos m * 10 ^ 6) (2 ^ (- e)) in
      (sign_string s ++ decimal (n / 10 ^ 6) ++ "." ++
       pad_left 6 (decimal (n mod 10 ^ 6)))%string
  end.

(** The least [k >= 1] with [num * 10^k >= den], for [0 < num < den]. *)
Fixpoint leading_zeros (fuel : nat) (num den k : Z) : Z :=
  match fuel with
  | O => k
  | S fuel' => if den <=? num * 10 ^ k then k
               else leading_zeros fuel' num den (k + 1)
  end.

(** The integer part, and the fraction when it is not empty. *)
Definition with_point (ip frac : string) : string :=
  match frac with
  | EmptyString => ip
  | _ => (ip ++ "." ++ frac)%string
  end.

(** The exponent field of the scientific notation: sign and at least
    two digits. *)
Definition exponent_string (X : Z) : string :=
  let sgn := if X <? 0 then "-"%string else "+"%string in
  ("e" ++ sgn ++ pad_left 2 (decimal (Z.abs X)))%string.

(** [os << x] for a [double] with the default flags, that is
    [printf("%g")] with precision 6. *)
Definition put_double (x : float) : string :=
  match Prim2SF x with
  | S754_zero s => (sign_string s ++ "0")%string
  | S754_infinity s => (sign_string s ++ "inf")%string
  | S754_nan => "nan"%string
  | S754_finite s m e =>
      let num := if 0 <=? e then Z.pos m * 2 ^ e else Z.pos m in
      let den := if 0 <=? e then 1 else 2 ^ (- e) in
      (* decimal exponent of the value *)
      let X0 := if den <=? num
                then Z.of_nat (String.length (decimal (num / den))) - 1
                else - leading_zeros 400 num den 1 in
      (* the six significant digits *)
      let N0 := if 5 <=? X0 then round_half_even num (den * 10 ^ (X0 - 5))
                else round_half_even (num * 10 ^ (5 - X0)) den in
      let N := if N0 =? 10 ^ 6 then 10 ^ 5 else N0 in
      let X := if N0 =? 10 ^ 6 then X0 + 1 else X0 in
      let ds := decimal N in
      let mantissa :=
        if (X <? -4) || (6 <=? X) then
          with_point (take_chars 1 ds) (strip_zeros (drop_chars 1 ds))
        else if 0 <=? X then
          with_point (take_chars (Z.to_N (X + 1)) ds)
                     (strip_zeros (drop_chars (Z.to_N (X + 1)) ds))
        else
          with_point "0" (strip_zeros (zeros (Z.to_nat (- X - 1)) ++ ds)) in
      let exponent :=
        if (X <? -4) || (6 <=? X) then exponent_string X else EmptyString in
      (sign_string s ++ mantissa ++ exponent)%string
  end.

(** * The programs *)

(** ** Exceptions, undefined behaviour and the state monad *)

(** The exception classes of the program.  [ECommerceException] is the
    base class, thrown directly with an ad hoc message in [main]. *)
Inductive exn : Type :=
| InvalidIDException
| EmptyCartException
| NoOrdersException
| InvalidInputException
| ECommerceException (msg : string)
| std_out_of_range.          (* thrown by [std::string::substr] *)

(** [what()] of each exception. *)
Definition what (e : exn) : string :=
  match e with
  | InvalidIDException => "Invalid product ID"
  | EmptyCartException => "Shopping cart is empty"
  | NoOrdersException => "No orders found"
  | InvalidInputException => "Invalid input. Please enter a valid number."
  | ECommerceException msg => msg
  | std_out_of_range => "basic_string::substr"
  end.

(** [catch (const ECommerceException &)] takes the program's own
    exceptions; [catch (const exception &)] takes every exception. *)
Definition is_ECommerceException (e : exn) : bool :=
  match e with
  | std_out_of_range => false
  | _ => true
  end.

Inductive undefined : Type :=
| DanglingPointer   (* use of a pointer after [delete] *)
| NullPointer       (* member call through [nullptr] *)
| OutOfBounds.      (* array write outside the array *)

Inductive outcome (S A : Type) : Type :=
| Ok (a : A) (s : S)
| Throw (e : exn) (s : S)
| Undef (u : undefined).
Arguments Ok {S A} a s.
Arguments Throw {S A} e s.
Arguments Undef {S A} u.

Definition prog (S A : Type) : Type := S -> outcome S A.

Definition ret {S A} (a : A) : prog S A := fun s => Ok a s.

Definition bind {S A B} (c : prog S A) (k : A -> prog S B) : prog S B :=
  fun s =>
    match c s with
    | Ok a s' => k a s'
    | Throw e s' => Throw e s'
    | Undef u => Undef u
    end.

Definition throw {S A} (e : exn) : prog S A := fun s => Throw e s.

(** [try { body } catch (...) { handler }] for the exceptions selected
    by [catches]. *)
Definition try_catch {S A} (body : prog S A) (catches : exn -> bool)
  (handler : exn -> prog S A) : prog S A :=
  fun s =>
    match body s with
    | Throw e s' => if catches e then handler e s' else Throw e s'
    | r => r
    end.
Definition undef {S A} (u : undefined) : prog S A := fun _ => Undef u.
Definition get {S} : prog S S := fun s => Ok s s.
Definition put {S} (s : S) : prog S unit := fun _ => Ok tt s.

Notation "'let!' x ':=' c 'in' k" := (bind c (fun x => k))
  (at level 10, x binder, c at level 100, k at level 200).
Notation "c ';;' k" := (bind c (fun _ => k))
  (at level 100, k at level 200, right associativity).

(** Run [c] on a component of a larger state. *)
Definition zoom {S T A} (proj : S -> T) (upd : T -> S -> S) (c : prog T A)
  : prog S A :=
  fun s =>
    match c (proj s) with
    | Ok a t => Ok a (upd t s)
    | Throw e t => Throw e (upd t s)
    | Undef u => Undef u
    end.

(** ** Products, cart items and payment strategies *)

Record Product : Type := mkProduct {
  getId : Z;
  getName : string;
  getPrice : float
}.

Record CartItem : Type := mkCartItem {
  getProduct : Product;
  getQuantity : Z
}.

Definition setQuantity (it : CartItem) (qty : Z) : CartItem :=
  mkCartItem (getProduct it) qty.

(** [product.getPrice() * quantity], the [int] promoted to [double]. *)
Definition getTotalPrice (it : CartItem) : float :=
  PrimFloat.mul (getPrice (getProduct it)) (double_of_int (getQuantity it)).

Inductive PaymentStrategy : Type := CashPayment | CardPayment | GCashPayment.

Definition getMethodName (p : PaymentStrategy) : string :=
  match p with
  | CashPayment => "Cash"
  | CardPayment => "Credit/Debit Card"
  | GCashPayment => "GCash"
  end.

(** [pay] has an empty body in all three strategies. *)
Definition pay (p : PaymentStrategy) (amount : float) : unit := tt.

(** The [switch (paymentChoice)] of [main]: no [default] label, so any
    other value leaves [strategy] at [nullptr] ([None]). *)
Definition select_strategy (paymentChoice : Z) : option PaymentStrategy :=
  if paymentChoice =? 1 then Some CashPayment
  else if paymentChoice =? 2 then Some CardPayment
  else if paymentChoice =? 3 then Some GCashPayment
  else None.

(** The catalog built at the start of [main]. *)
Definition products : list Product :=
  [ mkProduct 1 "Laptop" 0x1.f3feb851eb852p+9%float;       (* 999.99 *)
    mkProduct 2 "Smartphone" 0x1.2bfeb851eb852p+9%float;   (* 599.99 *)
    mkProduct 3 "Headphones" 0x1.8ff5c28f5c28fp+6%float;   (* 99.99 *)
    mkProduct 4 "Mouse" 0x1.3fd70a3d70a3dp+4%float;        (* 19.99 *)
    mkProduct 5 "Keyboard" 0x1.8feb851eb851fp+5%float ].   (* 49.99 *)

(** The lookup loop of menu choice 1: first product with the given id. *)
Fixpoint find_product (ps : list Product) (id : Z) : option Product :=
  match ps with
  | [] => None
  | p :: ps' => if getId p =? id then Some p else find_product ps' id
  end.

(** ** The heap and the singleton ShoppingCart *)

Definition loc : Type := positive.

(** [items] is the live prefix [items[0 .. count)] of the pointer array;
    [count] is its length. *)
Record ShoppingCart : Type := mkCart {
  items : list loc;
  capacity : Z
}.

Definition count (c : ShoppingCart) : Z := Z.of_nat (length (items c)).

Record Store : Type := mkStore {
  heap : gmap loc CartItem;
  cart : ShoppingCart
}.

(** The constructor: [capacity(10), count(0)]. *)
Definition new_cart : ShoppingCart := mkCart [] 10.
Definition initial_store : Store := mkStore ∅ new_cart.

(** [*p] for a [CartItem *p]. *)
Definition deref (l : loc) : prog Store CartItem :=
  fun s =>
    match heap s !! l with
    | Some it => Ok it s
    | None => Undef DanglingPointer
    end.

(** Assignment through a [CartItem*]. *)
Definition assign (l : loc) (it : CartItem) : prog Store unit :=
  fun s =>
    match heap s !! l with
    | Some _ => Ok tt (mkStore (<[l := it]> (heap s)) (cart s))
    | None => Undef DanglingPointer
    end.

(** [new CartItem(...)]: a location that is not allocated. *)
Definition new (it : CartItem) : prog Store loc :=
  fun s =>
    let l := fresh (dom (heap s)) in
    Ok l (mkStore (<[l := it]> (heap s)) (cart s)).

(** [delete p]. *)
Definition delete_item (l : loc) : prog Store unit :=
  fun s =>
    match heap s !! l with
    | Some _ => Ok tt (mkStore (delete l (heap s)) (cart s))
    | None => Undef DanglingPointer
    end.

Definition get_cart : prog Store ShoppingCart := fun s => Ok (cart s) s.
Definition set_cart (c : ShoppingCart) : prog Store unit :=
  fun s => Ok tt (mkStore (heap s) c).

(** The first loop of [addProduct]: look for a line with the product's
    id; on the first hit add [quantity] to it and report [true]. *)
Fixpoint addProduct_scan (pid quantity : Z) (ls : list loc)
  : prog Store bool :=
  match ls with
  | [] => ret false
  | l :: ls' =>
      let! it := deref l in
      if getId (getProduct it) =? pid
      then assign l (setQuantity it (int_add (getQuantity it) quantity)) ;;
           ret true
      else addProduct_scan pid quantity ls'
  end.

(** [addProduct(product, quantity)].  When the array is full its
    capacity is doubled and the pointers are copied over; the new line
    goes to [items[count++]]. *)
Definition addProduct (product : Product) (quantity : Z) : prog Store unit :=
  let! c := get_cart in
  let! found := addProduct_scan (getId product) quantity (items c) in
  if found then ret tt
  else
    let capacity' :=
      if count c =? capacity c then int_mul (capacity c) 2 else capacity c in
    let! l := new (mkCartItem product quantity) in
    set_cart (mkCart (items c ++ [l]) capacity').

(** The accumulation loop of [getTotalAmount]. *)
Fixpoint sum_loop (ls : list loc) (total : float) : prog Store float :=
  match ls with
  | [] => ret total
  | l :: ls' =>
      let! it := deref l in
      sum_loop ls' (PrimFloat.add total (getTotalPrice it))
  end.

Definition getTotalAmount : prog Store float :=
  let! c := get_cart in
  if count c =? 0 then throw EmptyCartException
  else sum_loop (items c) 0%float.

Fixpoint delete_all (ls : list loc) : prog Store unit :=
  match ls with
  | [] => ret tt
  | l :: ls' => delete_item l ;; delete_all ls'
  end.

(** [clearCart]: delete every line, then [count = 0]. *)
Definition clearCart : prog Store unit :=
  let! c := get_cart in
  delete_all (items c) ;;
  set_cart (mkCart [] (capacity c)).

Definition isEmpty : prog Store bool :=
  let! c := get_cart in ret (count c =? 0).

(** ** Views of a store used in the statements *)

(** The lines of the cart, read through the pointers. *)
Definition cart_lines (s : Store) : list CartItem :=
  omap (fun l => heap s !! l) (items (cart s)).

(** Every pointer of the cart is live and no two are the same object. *)
Definition cart_wf (s : Store) : Prop :=
  NoDup (items (cart s)) /\
  Forall (fun l => is_Some (heap s !! l)) (items (cart s)).

Definition line_id (it : CartItem) : Z := getId (getProduct it).

(** The lines of a given product id. *)
Definition lines_for (pid : Z) (ls : list CartItem) : list CartItem :=
  List.filter (fun it => line_id it =? pid) ls.

(** At most one line per product id. *)
Definition ids_unique (s : Store) : Prop :=
  NoDup (map line_id (cart_lines s)).

(** The sum that [getTotalAmount] accumulates, on the lines themselves. *)
Definition sum_lines (ls : list CartItem) : float :=
  fold_left
    (fun total it =>
       PrimFloat.add total
         (PrimFloat.mul (getPrice (getProduct it))
                        (double_of_int (getQuantity it))))
    ls 0%float.

(** The objects at [copies] hold [values], are live, and none of them
    is a line of the cart. *)
Definition kept_apart (copies : list loc) (values : list CartItem)
  (s : Store) : Prop :=
  cart_wf s /\
  omap (fun l => heap s !! l) copies = values /\
  Forall (fun l => is_Some (heap s !! l)) copies /\
  (forall l, l ∈ copies -> l ∉ items (cart s)).

(** Run a sequence of [addProduct] calls from a store. *)
Fixpoint add_all (ps : list (Product * Z)) : prog Store unit :=
  match ps with
  | [] => ret tt
  | (p, q) :: ps' => addProduct p q ;; add_all ps'
  end.

Definition store_of (ps : list (Product * Z)) : option Store :=
  match add_all ps initial_store with
  | Ok _ s => Some s
  | _ => None
  end.

Definition Laptop : Product := nth 0 products (mkProduct 0 "" 0%float).
Definition Smartphone : Product := nth 1 products (mkProduct 0 "" 0%float).
Definition Headphones : Product := nth 2 products (mkProduct 0 "" 0%float).

(** What the search loop of [addProduct] does to the lines: the first
    line with the product's id gets [quantity] added; [None] when no
    line has that id. *)
Fixpoint bump (pid quantity : Z) (ls : list CartItem)
  : option (list CartItem) :=
  match ls with
  | [] => None
  | it :: ls' =>
      if line_id it =? pid
      then Some (setQuantity it (int_add (getQuantity it) quantity) :: ls')
      else option_map (cons it) (bump pid quantity ls')
  end.

Definition found (o : option (list CartItem)) : bool :=
  match o with Some _ => true | None => false end.

(** What one call of [addProduct] does to the lines, and the lines of
    a cart filled from empty by a sequence of calls. *)
Definition add_line (p : Product) (quantity : Z) (lines : list CartItem)
  : list CartItem :=
  match bump (getId p) quantity lines with
  | Some lines' => lines'
  | None => lines ++ [mkCartItem p quantity]
  end.

Definition basket (ps : list (Product * Z)) : list CartItem :=
  fold_left (fun lines pq => add_line (fst pq) (snd pq) lines) ps [].

(** Two carts a customer can build from the catalog: one laptop, two
    smartphones and two headphones, the last two lines in either order. *)
Definition cart_LSH : Store :=
  mkStore {[ 1%positive := mkCartItem Laptop 1;
             2%positive := mkCartItem Smartphone 2;
             3%positive := mkCartItem Headphones 2 ]}
          (mkCart [1%positive; 2%positive; 3%positive] 10).

(** One laptop and two smartphones. *)
Definition cart_LS : Store :=
  mkStore {[ 1%positive := mkCartItem Laptop 1;
             2%positive := mkCartItem Smartphone 2 ]}
          (mkCart [1%positive; 2%positive] 10).

Definition cart_LHS : Store :=
  mkStore {[ 1%positive := mkCartItem Laptop 1;
             2%positive := mkCartItem Headphones 2;
             3%positive := mkCartItem Smartphone 2 ]}
          (mkCart [1%positive; 2%positive; 3%positive] 10).

(** ** Console output *)

(** What the program writes to [cout] and [cerr].  Tables are kept as
    the values of their rows; column widths are not modelled.  [H] is
    the content of the order history, which differs between the two
    programs. *)
Inductive output (H : Type) : Type :=
| Cout (text : string)
| Cerr (text : string)          (* [cerr << "Error: " << text] *)
| CartTable (rows : list CartItem) (total : float)
| Receipt (orderId method : string) (total : float)
| History (h : H).
Arguments Cout {H} text.
Arguments Cerr {H} text.
Arguments CartTable {H} rows total.
Arguments Receipt {H} orderId method total.
Arguments History {H} h.

(** How an iteration of [while (true)] in [main] ends. *)
Inductive control : Type :=
| Continue      (* back to the menu *)
| Break.        (* choice 4: leave the loop, [return 0] *)

(** What [cin] delivers to [getValidatedInput<int>]: a number alone on
    its line, or anything else. *)
Inductive int_input : Type :=
| Number (n : Z)
| Garbage.

Definition getValidatedInput {S} (inp : int_input) : prog S Z :=
  match inp with
  | Number n => ret n
  | Garbage => throw InvalidInputException
  end.

(** [toupper] on the two letters that matter, [y] and [n]. *)
Definition toupper (c : ascii) : ascii :=
  let n := nat_of_ascii c in
  if (97 <=? n)%nat && (n <=? 122)%nat then ascii_of_nat (n - 32) else c.

(** The row loop of [displayCart]. *)
Fixpoint display_loop (ls : list loc) (rows : list CartItem) (total : float)
  : prog Store (list CartItem * float) :=
  match ls with
  | [] => ret (rows, total)
  | l :: ls' =>
      let! it := deref l in
      display_loop ls' (rows ++ [it]) (PrimFloat.add total (getTotalPrice it))
  end.

(** [displayCart]: [None] is the notice for an empty cart. *)
Definition displayCart : prog Store (option (list CartItem * float)) :=
  let! c := get_cart in
  if count c =? 0 then ret None
  else let! r := display_loop (items c) [] 0%float in ret (Some r).

Definition cart_empty_notice : string := "Your shopping cart is empty.".
Definition checkout_notice : string :=
  "You have successfully checked out the products!".

(** ** [cin] as a text

    A finer model of [getValidatedInput<int>]: [cin] is the text that
    has not been read yet.  (The state flags of the stream need no
    component of their own: [eofbit] and [failbit] are set only when the
    text is used up, every read from an empty text fails, and the only
    [clear] is followed by a read.) *)

(** [std::isspace] in the "C" locale: space, tab, line feed, vertical
    tab, form feed and carriage return. *)
Definition is_space (c : ascii) : bool :=
  let n := nat_of_ascii c in
  (n =? 32)%nat || ((9 <=? n)%nat && (n <=? 13)%nat).

(** The whitespace that a formatted extraction skips first. *)
Fixpoint skip_ws (s : string) : string :=
  match s with
  | EmptyString => EmptyString
  | String c s' => if is_space c then skip_ws s' else s
  end.

(** The longest prefix of decimal digits, and the text after it. *)
Fixpoint span_digits (s : string) : string * string :=
  match s with
  | EmptyString => (EmptyString, EmptyString)
  | String c s' =>
      if is_digit c
      then let (ds, rest) := span_digits s' in (String c ds, rest)
      else (EmptyString, s)
  end.

(** [cin >> value] for an [int value]: whitespace is skipped, then an
    optional sign and the digits that follow are taken.  The extraction
    fails ([None]) when there is no digit or when the number does not
    fit an [int]. *)
Definition extract_int (cin : string) : option Z * string :=
  let s1 := skip_ws cin in
  let (negative, s2) :=
    match s1 with
    | String "-" r => (true, r)
    | String "+" r => (false, r)
    | _ => (false, s1)
    end in
  let (ds, rest) := span_digits s2 in
  match NilZero.uint_of_string ds with
  | None => (None, rest)
  | Some d =>
      let value := Z.of_int (if negative then Decimal.Neg d
                             else Decimal.Pos d) in
      if (INT_MIN <=? value) && (value <=? INT_MAX)
      then (Some value, rest) else (None, rest)
  end.

(** [cin.ignore(numeric_limits<streamsize>::max(), '\n')]: the text
    up to and with the next newline is discarded. *)
Definition ignore_line (cin : string) : string := snd (read_line cin).

(** [getValidatedInput<int>] on the text of [cin]: what it delivers, and
    the text that is left.  After a failed extraction the line is
    discarded; after a number, the next character must be the newline,
    which is then consumed. *)
Definition getValidatedInput_cin (cin : string) : int_input * string :=
  match extract_int cin with
  | (None, rest) => (Garbage, ignore_line rest)
  | (Some value, rest) =>
      match rest with
      | EmptyString => (Garbage, EmptyString)
      | String c rest' =>
          if Ascii.eqb c newline then (Number value, rest')
          else (Garbage, ignore_line rest)
      end
  end.


(** ** [1.cpp]: the order log is the text file [orders.log] *)

Module FileLog.

(** The file: its content when it exists, and whether opening it for
    appending succeeds. *)
Record FileSystem : Type := mkFS {
  orders_log : option string;
  appendable : bool
}.

(** One product line of the log as [viewOrders] splits it. *)
Record LogRow : Type := mkLogRow {
  row_id : string;
  row_name : string;
  row_price : string;
  row_qty : string
}.

(** What [viewOrders] extracts from one block of the log.  The order id
    and the payment method are extracted into local variables; only the
    rows and the total line are printed. *)
Record OrderBlock : Type := mkOrderBlock {
  block_orderId : string;
  block_paymentMethod : string;
  block_rows : list LogRow;
  block_total : option string
}.

Record World : Type := mkWorld {
  store : Store;
  fs : FileSystem;
  console : list (output (list OrderBlock))
}.

Definition on_store {A} (c : prog Store A) : prog World A :=
  zoom store (fun st w => mkWorld st (fs w) (console w)) c.

Definition print (o : output (list OrderBlock)) : prog World unit :=
  fun w => Ok tt (mkWorld (store w) (fs w) (console w ++ [o])).

(** *** Writing the log *)

Definition nl : string := String newline EmptyString.
Definition tb : string := String tab EmptyString.

Definition header_marker : string := "[LOG] -> Order ID: ".
Definition total_marker : string := "Total Amount: $".

(** One line of [getCartContents]. *)
Definition contents_line (it : CartItem) : string :=
  (to_string_int (getId (getProduct it)) ++ tb ++
   getName (getProduct it) ++ tb ++
   to_string_double (getPrice (getProduct it)) ++ tb ++
   to_string_int (getQuantity it) ++ nl)%string.

Fixpoint contents_loop (ls : list loc) (contents : string)
  : prog Store string :=
  match ls with
  | [] => ret contents
  | l :: ls' =>
      let! it := deref l in
      contents_loop ls' (contents ++ contents_line it)%string
  end.

Definition getCartContents : prog Store string :=
  let! c := get_cart in
  if count c =? 0 then ret EmptyString
  else contents_loop (items c) EmptyString.

(** The text that [getCartContents] builds, on the lines themselves. *)
Definition contents_of (lines : list CartItem) : string :=
  fold_left (fun contents it => (contents ++ contents_line it)%string)
            lines EmptyString.

Definition log_header (orderId method : string) : string :=
  (header_marker ++ orderId ++
   " has been successfully checked out and paid using " ++ method ++
   "." ++ nl)%string.

Definition log_total (total : float) : string :=
  (total_marker ++ put_double total ++ nl ++ nl)%string.

(** The three [logFile << ...] statements. *)
Definition log_block (orderId method contents : string) (total : float)
  : string :=
  (log_header orderId method ++ contents ++ log_total total)%string.

(** Append [text] to [orders.log], creating the file if need be. *)
Definition append_log (text : string) : prog World unit :=
  fun w =>
    let old := default EmptyString (orders_log (fs w)) in
    Ok tt (mkWorld (store w)
                   (mkFS (Some (old ++ text)%string) (appendable (fs w)))
                   (console w)).

(** ["ORD" + to_string(now)]. *)
Definition order_id (now : Z) : string := ("ORD" ++ to_string_int now)%string.

(** The checkout proper, from [PaymentStrategy *strategy = nullptr] to
    [delete strategy]; [now] is the value of [time(nullptr)]. *)
Definition checkout (paymentChoice now : Z) : prog World unit :=
  let strategy := select_strategy paymentChoice in
  let! total := on_store getTotalAmount in
  match strategy with
  | None => undef NullPointer
  | Some st =>
      let _ := pay st total in
      let orderId := order_id now in
      let! w := get in
      (if appendable (fs w)
       then let! contents := on_store getCartContents in
            append_log (log_block orderId (getMethodName st) contents total)
       else ret tt) ;;
      print (Cout checkout_notice) ;;
      print (Receipt orderId (getMethodName st) total) ;;
      on_store clearCart
  end.

(** The log after a checkout of [lines] that found the file in state
    [log]. *)
Definition log_after (log : FileSystem) (now : Z) (st : PaymentStrategy)
  (lines : list CartItem) : FileSystem :=
  if appendable log
  then mkFS (Some (default EmptyString (orders_log log) ++
                   log_block (order_id now) (getMethodName st)
                             (contents_of lines) (sum_lines lines))%string)
            true
  else log.

(** *** Reading the log back *)

(** The extraction of order id and payment method from a header line. *)
Definition parse_header (line : string) : option (string * string) :=
  let idStart := size_add (find line "Order ID: " 0) 10 in
  let idEnd := find line " has been" 0 in
  match substr line idStart (size_sub idEnd idStart) with
  | None => None
  | Some orderId =>
      let methodStart := size_add (find line "using " 0) 6 in
      let methodEnd := find line "." 0 in
      match substr line methodStart (size_sub methodEnd methodStart) with
      | None => None
      | Some paymentMethod => Some (orderId, paymentMethod)
      end
  end.

(** The body of the product loop: a line with three tabs is split into
    its four fields and printed, any other line is skipped. *)
Definition parse_row (line : string) : option (list LogRow) :=
  let tab1 := find_char line tab 0 in
  let tab2 := find_char line tab (size_add tab1 1) in
  let tab3 := find_char line tab (size_add tab2 1) in
  if negb (tab1 =? npos)%N && negb (tab2 =? npos)%N && negb (tab3 =? npos)%N
  then
    match substr line 0 tab1,
          substr line (size_add tab1 1) (size_sub (size_sub tab2 tab1) 1),
          substr line (size_add tab2 1) (size_sub (size_sub tab3 tab2) 1),
          substr line (size_add tab3 1) npos with
    | Some id, Some name, Some price, Some qty =>
        Some [mkLogRow id name price qty]
    | _, _, _, _ => None
    end
  else Some [].

Lemma getline_shorter stream line rest :
  getline stream = Some (line, rest) ->
  (String.length rest < String.length stream)%nat.
Proof.
  destruct stream as [|c stream]; [discriminate|]. cbn [getline].
  intros [= H]. revert c line rest H.
  induction stream as [|d stream IH]; intros c line rest; cbn.
  - destruct (Ascii.eqb c newline); intros [= <- <-]; cbn; lia.
  - destruct (Ascii.eqb c newline); [intros [= <- <-]; cbn; lia|].
    specialize (IH d). cbn in IH.
    destruct (Ascii.eqb d newline).
    + intros [= <- <-]. cbn. lia.
    + destruct (read_line stream) as [l r]. intros [= <- <-].
      specialize (IH _ _ eq_refl). cbn in *. lia.
Qed.

(** [while (getline(logFile, line) && !line.empty())]: the rows that are
    printed and the rest of the stream; [None] if [substr] throws. *)
Equations? read_rows (stream : string) : option (list LogRow * string)
  by wf (String.length stream) lt :=
  read_rows stream with inspect (getline stream) := {
    | exist _ None _ => Some ([], stream)
    | exist _ (Some (line, rest)) Hget =>
        if empty line then Some ([], rest)
        else match parse_row line, read_rows rest with
             | Some row, Some (rows, rest') => Some (row ++ rows, rest')
             | _, _ => None
             end }.
Proof. by apply getline_shorter in Hget. Qed.

Lemma read_rows_shorter stream rows rest :
  read_rows stream = Some (rows, rest) ->
  (String.length rest <= String.length stream)%nat.
Proof.
  revert rows rest. funelim (read_rows stream); intros rows0 rest0.
  - pose proof (getline_shorter _ _ _ Hget) as Hlt.
    destruct (empty line); [intros [= <- <-]; lia|].
    destruct (parse_row line) as [row|]; [|discriminate].
    destruct (read_rows rest) as [[rows1 rest1]|]; [|discriminate].
    intros [= <- <-]. specialize (H row _ _ eq_refl). lia.
  - intros [= <- <-]. lia.
Qed.

(** The optional total line after a block:
    [if (getline(logFile, line) && line.find("Total Amount: $") != npos)]. *)
Definition read_total (stream : string) : option string * string :=
  match getline stream with
  | None => (None, stream)
  | Some (line, rest) =>
      (if (find line total_marker 0 =? npos)%N then None else Some line, rest)
  end.

Lemma read_total_shorter stream :
  (String.length (snd (read_total stream)) <= String.length stream)%nat.
Proof.
  unfold read_total. destruct (getline stream) as [[line rest]|] eqn:Hget; cbn.
  - apply getline_shorter in Hget. lia.
  - lia.
Qed.

(** The outer loop of [viewOrders]: the value of [hasOrders] at the end
    and the blocks that were shown; [None] if [substr] throws. *)
Equations? view_loop (stream : string) (hasOrders : bool)
  : option (bool * list OrderBlock)
  by wf (String.length stream) lt :=
  view_loop stream hasOrders with inspect (getline stream) := {
    | exist _ None _ => Some (hasOrders, [])
    | exist _ (Some (line, rest)) Hget
        with (find line header_marker 0 =? npos)%N := {
        | true => view_loop rest hasOrders
        | false with parse_header line := {
            | None => None
            | Some (orderId, paymentMethod)
                with inspect (read_rows rest) := {
                | exist _ None _ => None
                | exist _ (Some (rows, rest1)) Hrows
                    with view_loop (snd (read_total rest1)) true := {
                    | None => None
                    | Some (_, blocks) =>
                        Some (true,
                              mkOrderBlock orderId paymentMethod rows
                                (fst (read_total rest1)) :: blocks) } } } } }.
Proof.
  - by apply getline_shorter in Hget.
  - apply getline_shorter in Hget. apply read_rows_shorter in Hrows.
    pose proof (read_total_shorter rest1). lia.
Qed.

(** [viewOrders]: the blocks it shows. *)
Definition viewOrders : prog World (list OrderBlock) :=
  let! w := get in
  match orders_log (fs w) with
  | None => throw NoOrdersException
  | Some content =>
      match view_loop content false with
      | None => throw std_out_of_range
      | Some (hasOrders, blocks) =>
          print (History blocks) ;;
          if hasOrders then ret blocks else throw NoOrdersException
      end
  end.

(** *** Views of the log used in the statements *)

(** The header line of a block, without its newline. *)
Definition header_line (orderId method : string) : string :=
  (header_marker ++ orderId ++
   " has been successfully checked out and paid using " ++ method ++
   ".")%string.

(** The fields of a cart line as they are written to the log. *)
Definition row_of (it : CartItem) : LogRow :=
  mkLogRow (to_string_int (getId (getProduct it)))
           (getName (getProduct it))
           (to_string_double (getPrice (getProduct it)))
           (to_string_int (getQuantity it)).

(** One line of [getCartContents] without its newline, and the text of
    all the lines. *)
Definition row_line (it : CartItem) : string :=
  (to_string_int (getId (getProduct it)) ++ tb ++
   getName (getProduct it) ++ tb ++
   to_string_double (getPrice (getProduct it)) ++ tb ++
   to_string_int (getQuantity it))%string.

Fixpoint rows_text (lines : list CartItem) : string :=
  match lines with
  | [] => EmptyString
  | it :: lines' => (row_line it ++ nl ++ rows_text lines')%string
  end.

(** The total line of a block, without its newline. *)
Definition total_line (total : float) : string :=
  (total_marker ++ put_double total)%string.

(** A product name that the log format can carry: no tab, no newline. *)
Definition clean_name (it : CartItem) : bool :=
  negb (has_char tab (getName (getProduct it))) &&
  negb (has_char newline (getName (getProduct it))).

(** The lines of a text, as successive [getline]s deliver them. *)
Equations? file_lines (stream : string) : list string
  by wf (String.length stream) lt :=
  file_lines stream with inspect (getline stream) := {
    | exist _ None _ => []
    | exist _ (Some (line, rest)) Hget => line :: file_lines rest }.
Proof. by apply getline_shorter in Hget. Qed.

(** A line that starts an order block for [viewOrders]. *)
Definition is_header (line : string) : bool :=
  negb (find line header_marker 0 =? npos)%N.

(** The text holds at least one order block. *)
Definition has_header (content : string) : bool :=
  existsb is_header (file_lines content).

(** The log holds no order: there is no file, or no header line. *)
Definition no_orders (f : FileSystem) : Prop :=
  match orders_log f with
  | None => True
  | Some content => has_header content = false
  end.

(** A text that fits in memory, so that positions in it are [size_t]
    values below [npos]. *)
Definition fits (content : string) : Prop := (size content < 2 ^ 63)%N.

(** *** The menu *)

(** The answers that [cin] holds for one pass through menu choice 2. *)
Record CartInputs : Type := mkCartInputs {
  checkoutChoice : ascii;
  paymentInput : int_input;
  now : Z
}.

(** [print] of [displayCart]. *)
Definition show_cart : prog World unit :=
  let! shown := on_store displayCart in
  match shown with
  | None => print (Cout cart_empty_notice)
  | Some (rows, total) => print (CartTable rows total)
  end.

(** Reading the payment choice: the [try] block with its range check,
    and the [catch] that reports and goes back to the menu ([None]). *)
Definition read_paymentChoice (inp : int_input) : prog World (option Z) :=
  try_catch
    (let! paymentChoice := getValidatedInput inp in
     if (paymentChoice <? 1) || (3 <? paymentChoice)
     then throw (ECommerceException
                   "Invalid payment method. Please select 1-3.")
     else ret (Some paymentChoice))
    is_ECommerceException
    (fun e => print (Cerr (what e)) ;; ret None).

(** Reading a Y/N answer, likewise. *)
Definition read_yes_no (answer : ascii) : prog World (option ascii) :=
  try_catch
    (let c := toupper answer in
     if negb (Ascii.eqb c "Y") && negb (Ascii.eqb c "N")
     then throw (ECommerceException "Please enter Y or N.")
     else ret (Some c))
    is_ECommerceException
    (fun e => print (Cerr (what e)) ;; ret None).

(** Menu choice 2. *)
Definition view_cart (inp : CartInputs) : prog World unit :=
  show_cart ;;
  let! e := on_store isEmpty in
  if e then ret tt
  else
    let! answer := read_yes_no (checkoutChoice inp) in
    match answer with
    | None => ret tt                                  (* [continue] *)
    | Some c =>
        if Ascii.eqb c "Y" then
          let! choice := read_paymentChoice (paymentInput inp) in
          match choice with
          | None => ret tt                            (* [continue] *)
          | Some paymentChoice => checkout paymentChoice (now inp)
          end
        else ret tt
    end.

(** Menu choice 1: one pass of the [do ... while (addMore == 'Y')] loop
    per element of [rounds], which holds the product id typed and the
    answer to "add another product?".  [addMore] is the variable of
    that name; it is not initialised before the loop, and [continue]
    jumps to the test with its value unchanged. *)
Fixpoint add_products (rounds : list (int_input * ascii)) (addMore : ascii)
  : prog World unit :=
  match rounds with
  | [] => ret tt
  | (idInput, answer) :: rounds' =>
      let! addMore' :=
        let! id :=
          try_catch
            (let! n := getValidatedInput idInput in ret (Some n))
            is_ECommerceException
            (fun e => print (Cerr (what e)) ;; ret None) in
        match id with
        | None => ret addMore                            (* [continue] *)
        | Some id =>
            match find_product products id with
            | None => print (Cerr "Invalid product ID") ;; ret addMore
            | Some selectedProduct =>
                on_store (addProduct selectedProduct 1) ;;
                print (Cout "Product added successfully!") ;;
                let! a := read_yes_no answer in
                ret (default "N"%char a)
            end
        end in
      if Ascii.eqb addMore' "Y" then add_products rounds' addMore'
      else ret tt
  end.

(** Everything [cin] holds for one iteration of the menu loop. *)
Record Inputs : Type := mkInputs {
  menuChoice : int_input;
  rounds : list (int_input * ascii);
  addMore0 : ascii;
  cartInputs : CartInputs
}.

Definition read_menuChoice (inp : int_input) : prog World (option Z) :=
  try_catch
    (let! choice := getValidatedInput inp in
     if (choice <? 1) || (4 <? choice)
     then throw (ECommerceException "Invalid menu choice. Please select 1-4.")
     else ret (Some choice))
    is_ECommerceException
    (fun e => print (Cerr (what e)) ;; ret None).

(** The body of [while (true)]: the outer [try] and its
    [catch (const exception &)]. *)
Definition menu_iteration (inp : Inputs) : prog World control :=
  try_catch
    (let! choice := read_menuChoice (menuChoice inp) in
     match choice with
     | None => ret Continue
     | Some choice =>
         if choice =? 1 then
           add_products (rounds inp) (addMore0 inp) ;; ret Continue
         else if choice =? 2 then
           view_cart (cartInputs inp) ;; ret Continue
         else if choice =? 3 then
           try_catch (viewOrders ;; ret tt) is_ECommerceException
             (fun e => print (Cerr (what e))) ;;
           ret Continue
         else if choice =? 4 then
           print (Cout "Thank you for shopping with us!") ;; ret Break
         else ret Continue
     end)
    (fun _ => true)
    (fun e => print (Cerr (what e)) ;; ret Continue).

(** [while (true)] in [main], on the inputs of the successive
    iterations: the loop runs until an iteration ends with [break], or
    until the inputs that are given have been used. *)
Fixpoint main_loop (inputs : list Inputs) : prog World control :=
  match inputs with
  | [] => ret Continue
  | inp :: inputs' =>
      let! c := menu_iteration inp in
      match c with
      | Break => ret Break
      | Continue => main_loop inputs'
      end
  end.

(** *** Visits to the shop *)

(** A visit: the products added to the cart, the payment choice, and
    the value of [time(nullptr)] at the checkout. *)
Record Visit : Type := mkVisit {
  bought : list (Product * Z);
  choice : Z;
  clock : Z }.

Definition purchase (v : Visit) : prog World unit :=
  on_store (add_all (bought v)) ;; checkout (choice v) (clock v).

Fixpoint purchases (visits : list Visit) : prog World unit :=
  match visits with
  | [] => ret tt
  | v :: visits' => purchase v ;; purchases visits'
  end.

Definition method_of (v : Visit) : string :=
  default EmptyString (getMethodName <$> select_strategy (choice v)).

(** The block that the checkout of a visit writes, the text of a
    sequence of visits, and the block of a visit as it is shown when its
    total is not found. *)
Definition visit_text (v : Visit) : string :=
  log_block (order_id (clock v)) (method_of v)
    (contents_of (basket (bought v))) (sum_lines (basket (bought v))).

Fixpoint log_text (visits : list Visit) : string :=
  match visits with
  | [] => EmptyString
  | v :: visits' => (visit_text v ++ log_text visits')%string
  end.

Definition visit_block (v : Visit) : OrderBlock :=
  mkOrderBlock (order_id (clock v)) (method_of v)
    (map row_of (basket (bought v))) None.

(** A row that cannot be taken for a header or break the layout. *)
Definition plain_row (it : CartItem) : bool :=
  clean_name it && negb (is_header (row_line it)).

Definition valid_visit (v : Visit) : Prop :=
  bought v <> [] /\ is_Some (select_strategy (choice v)) /\
  Forall (fun it => plain_row it = true) (basket (bought v)).

(** The first, third, fifth, ... element of a list. *)
Fixpoint alternate {A : Type} (l : list A) : list A :=
  match l with
  | [] => []
  | x :: l' => x :: match l' with
                    | [] => []
                    | _ :: l'' => alternate l''
                    end
  end.

End FileLog.

(** ** [tempCodeRunnerFile.cpp]: the orders are kept in memory *)

Module MemoryLog.

(** An [Order] object.  [order_items] are the pointers of its own array
    [items]; [itemCount] is their number. *)
Record Order : Type := mkOrder {
  orderId : Z;
  paymentMethod : string;
  order_items : list loc;
  totalAmount : float
}.

(** What [Order::display] prints. *)
Record OrderView : Type := mkOrderView {
  view_orderId : Z;
  view_paymentMethod : string;
  view_rows : list CartItem;
  view_total : float
}.

(** [orders] is the global array [Order *orders[100]], a null pointer
    being [None]; [nextOrderId] is the local variable of [main]. *)
Record World : Type := mkWorld {
  store : Store;
  orders : list (option Order);
  orderCount : Z;
  nextOrderId : Z;
  console : list (output (list OrderView))
}.

Definition ORDERS_SIZE : Z := 100.

Definition initial_world : World :=
  mkWorld initial_store (replicate (Z.to_nat ORDERS_SIZE) None) 0 1 [].

Definition on_store {A} (c : prog Store A) : prog World A :=
  zoom store
       (fun st w => mkWorld st (orders w) (orderCount w) (nextOrderId w)
                            (console w)) c.

Definition print (o : output (list OrderView)) : prog World unit :=
  fun w => Ok tt (mkWorld (store w) (orders w) (orderCount w)
                          (nextOrderId w) (console w ++ [o])).

(** The loop of the constructor: [items[i]] is a [new CartItem] copied
    from the object that [cartItems[i]] points to. *)
Fixpoint copy_items (cartItems : list loc) : prog Store (list loc) :=
  match cartItems with
  | [] => ret []
  | l :: ls =>
      let! it := deref l in
      let! l' := new it in
      let! copies := copy_items ls in
      ret (l' :: copies)
  end.

(** [new Order(id, method, cartItems, count, total)]. *)
Definition new_Order (id : Z) (method : string) (cartItems : list loc)
  (total : float) : prog Store Order :=
  let! copies := copy_items cartItems in
  ret (mkOrder id method copies total).

Fixpoint read_items (ls : list loc) : prog Store (list CartItem) :=
  match ls with
  | [] => ret []
  | l :: ls' =>
      let! it := deref l in
      let! rows := read_items ls' in
      ret (it :: rows)
  end.

(** [Order::display]. *)
Definition display (o : Order) : prog Store OrderView :=
  let! rows := read_items (order_items o) in
  ret (mkOrderView (orderId o) (paymentMethod o) rows (totalAmount o)).

(** [orders[orderCount++] = o]. *)
Definition store_order (o : Order) : prog World unit :=
  fun w =>
    let i := orderCount w in
    if (0 <=? i) && (i <? ORDERS_SIZE)
    then Ok tt (mkWorld (store w) (<[Z.to_nat i := Some o]> (orders w))
                        (int_add i 1) (nextOrderId w) (console w))
    else Undef OutOfBounds.

(** [nextOrderId++]. *)
Definition take_orderId : prog World Z :=
  fun w =>
    Ok (nextOrderId w)
       (mkWorld (store w) (orders w) (orderCount w)
                (int_add (nextOrderId w) 1) (console w)).

(** The checkout proper, from [PaymentStrategy *strategy = nullptr] to
    [delete strategy]. *)
Definition checkout (paymentChoice : Z) : prog World unit :=
  let strategy := select_strategy paymentChoice in
  let! total := on_store getTotalAmount in
  match strategy with
  | None => undef NullPointer
  | Some st =>
      let _ := pay st total in
      let! id := take_orderId in
      let! c := on_store get_cart in
      let! o := on_store (new_Order id (getMethodName st) (items c) total) in
      store_order o ;;
      print (Cout checkout_notice) ;;
      on_store clearCart
  end.

(** [orders[i]->display()] for [i = 0 .. orderCount - 1]. *)
Fixpoint display_orders (indices : list nat) : prog World (list OrderView) :=
  match indices with
  | [] => ret []
  | i :: indices' =>
      let! w := get in
      match orders w !! i with
      | None => undef OutOfBounds
      | Some None => undef NullPointer
      | Some (Some o) =>
          let! v := on_store (display o) in
          let! vs := display_orders indices' in
          ret (v :: vs)
      end
  end.

Definition viewOrders : prog World (list OrderView) :=
  let! w := get in
  if orderCount w =? 0 then throw NoOrdersException
  else
    let! views := display_orders (seq 0 (Z.to_nat (orderCount w))) in
    print (History views) ;;
    ret views.

(** *** The menu *)

Record CartInputs : Type := mkCartInputs {
  checkoutChoice : ascii;
  paymentInput : int_input
}.

Definition show_cart : prog World unit :=
  let! shown := on_store displayCart in
  match shown with
  | None => print (Cout cart_empty_notice)
  | Some (rows, total) => print (CartTable rows total)
  end.

(** Menu choice 2.  The payment choice is read without a [try] block
    and without a range check. *)
Definition view_cart (inp : CartInputs) : prog World unit :=
  show_cart ;;
  let! e := on_store isEmpty in
  if e then ret tt
  else
    if Ascii.eqb (toupper (checkoutChoice inp)) "Y" then
      let! paymentChoice := getValidatedInput (paymentInput inp) in
      checkout paymentChoice
    else ret tt.

(** Menu choice 1, as in the other program except that the answer to
    "add another product?" is taken as it is. *)
Fixpoint add_products (rounds : list (int_input * ascii)) (addMore : ascii)
  : prog World unit :=
  match rounds with
  | [] => ret tt
  | (idInput, answer) :: rounds' =>
      let! addMore' :=
        let! id :=
          try_catch
            (let! n := getValidatedInput idInput in ret (Some n))
            is_ECommerceException
            (fun e => print (Cerr (what e)) ;; ret None) in
        match id with
        | None => ret addMore                            (* [continue] *)
        | Some id =>
            match find_product products id with
            | None => print (Cerr "Invalid product ID") ;; ret addMore
            | Some selectedProduct =>
                on_store (addProduct selectedProduct 1) ;;
                print (Cout "Product added successfully!") ;;
                ret (toupper answer)
            end
        end in
      if Ascii.eqb addMore' "Y" then add_products rounds' addMore'
      else ret tt
  end.

Record Inputs : Type := mkInputs {
  menuChoice : int_input;
  rounds : list (int_input * ascii);
  addMore0 : ascii;
  cartInputs : CartInputs
}.

Definition read_menuChoice (inp : int_input) : prog World (option Z) :=
  try_catch
    (let! choice := getValidatedInput inp in
     if (choice <? 1) || (4 <? choice)
     then throw (ECommerceException "Invalid menu choice. Please select 1-4.")
     else ret (Some choice))
    is_ECommerceException
    (fun e => print (Cerr (what e)) ;; ret None).

(** The body of [while (true)]. *)
Definition menu_iteration (inp : Inputs) : prog World control :=
  try_catch
    (let! choice := read_menuChoice (menuChoice inp) in
     match choice with
     | None => ret Continue
     | Some choice =>
         if choice =? 1 then
           add_products (rounds inp) (addMore0 inp) ;; ret Continue
         else if choice =? 2 then
           view_cart (cartInputs inp) ;; ret Continue
         else if choice =? 3 then
           viewOrders ;; ret Continue
         else if choice =? 4 then
           print (Cout "Thank you for shopping with us!") ;; ret Break
         else ret Continue
     end)
    (fun _ => true)
    (fun e => print (Cerr (what e)) ;; ret Continue).

(** [while (true)] in [main], on the inputs of the successive
    iterations. *)
Fixpoint main_loop (inputs : list Inputs) : prog World control :=
  match inputs with
  | [] => ret Continue
  | inp :: inputs' =>
      let! c := menu_iteration inp in
      match c with
      | Break => ret Break
      | Continue => main_loop inputs'
      end
  end.

(** *** Views and runs used in the statements *)

(** The order log: the slots [orders[0 .. orderCount)]. *)
Definition order_log (w : World) : list (option Order) :=
  take (Z.to_nat (orderCount w)) (orders w).

(** The ids of the orders in the log, oldest first. *)
Definition order_ids (w : World) : list (option Z) :=
  map (option_map orderId) (order_log w).




(** The cart is well formed and the array has its 100 slots. *)
Definition world_wf (w : World) : Prop :=
  cart_wf (store w) /\ length (orders w) = Z.to_nat ORDERS_SIZE.


(** A visit to the shop: some products are added, then the cart is
    checked out. *)
Definition purchase (ps : list (Product * Z)) (paymentChoice : Z)
  : prog World unit :=
  on_store (add_all ps) ;; checkout paymentChoice.

Fixpoint purchases (visits : list (list (Product * Z) * Z))
  : prog World unit :=
  match visits with
  | [] => ret tt
  | (ps, paymentChoice) :: visits' =>
      purchase ps paymentChoice ;; purchases visits'
  end.

Definition valid_visit (v : list (Product * Z) * Z) : Prop :=
  fst v <> [] /\ is_Some (select_strategy (snd v)).

(** *** The end of [main] *)

(** [~Order]: every line of the order is deleted ([delete[] items]
    releases the array of pointers itself). *)
Definition delete_Order (o : Order) : prog Store unit :=
  delete_all (order_items o).

(** [delete orders[i]] for the given indices; [delete] of a null
    pointer does nothing. *)
Fixpoint delete_orders (indices : list nat) : prog World unit :=
  match indices with
  | [] => ret tt
  | i :: indices' =>
      let! w := get in
      match orders w !! i with
      | None => undef OutOfBounds
      | Some None => delete_orders indices'
      | Some (Some o) => on_store (delete_Order o) ;; delete_orders indices'
      end
  end.

(** The loop [for (int i = 0; i < orderCount; i++) delete orders[i]]
    after the menu loop. *)
Definition exit_cleanup : prog World unit :=
  let! w := get in
  delete_orders (seq 0 (Z.to_nat (orderCount w))).

(** The objects that the orders in [slots] point to. *)
Definition owned_by (slots : list (option Order)) : list loc :=
  concat (map (fun slot => match slot with
                           | Some o => order_items o
                           | None => []
                           end) slots).

(** The heap holds the lines of the cart and the lines of the orders of
    the log, each once, and nothing else. *)
Definition heap_ok (w : World) : Prop :=
  NoDup (items (cart (store w)) ++ owned_by (order_log w)) /\
  forall l, is_Some (heap (store w) !! l) <->
            l ∈ items (cart (store w)) ++ owned_by (order_log w).

End MemoryLog.

(** Operations on the cart that can follow a checkout. *)
Inductive cart_op : Type :=
| AddProduct (product : Product) (quantity : Z)
| ClearCart.

Definition run_cart_op (op : cart_op) : prog Store unit :=
  match op with
  | AddProduct product quantity => addProduct product quantity
  | ClearCart => clearCart
  end.

Fixpoint run_cart_ops (ops : list cart_op) : prog Store unit :=
  match ops with
  | [] => ret tt
  | op :: ops' => run_cart_op op ;; run_cart_ops ops'
  end.

(** What one pass of menu choice 1 puts in the cart for the id that was
    typed: one unit of the product of the catalog with that id, if there
    is one. *)
Definition chosen (round : int_input * ascii) : option (Product * Z) :=
  match fst round with
  | Number id => (fun p => (p, 1)) <$> find_product products id
  | Garbage => None
  end.

(** The rounds of a session in which every id is in the catalog and
    every answer before the last is a yes. *)
Definition full_session (rounds : list (int_input * ascii)) : Prop :=
  Forall (fun r => is_Some (chosen r)) rounds /\
  Forall (fun r => toupper (snd r) = "Y"%char) (removelast rounds).

(** The lines of a cart after a sequence of [addProduct] calls. *)
Definition add_lines (ps : list (Product * Z)) (lines : list CartItem)
  : list CartItem :=
  fold_left (fun lines pq => add_line (fst pq) (snd pq) lines) ps lines.

(** Every object of the heap is a line of the cart: nothing that was
    allocated with [new CartItem] has been lost. *)
Definition no_leak (s : Store) : Prop :=
  forall l, is_Some (heap s !! l) -> l ∈ items (cart s).

(** ** Sample states *)

(** A cart with one line, two headphones. *)
Definition headphones_store : Store :=
  mkStore {[ 1%positive := mkCartItem Headphones 2 ]}
          (mkCart [1%positive] 10).

(** [1.cpp] with that cart; the log file is absent, or holds [log]. *)
Definition file_world (log : option string) (writable : bool)
  : FileLog.World :=
  FileLog.mkWorld headphones_store (FileLog.mkFS log writable) [].

(** [tempCodeRunnerFile.cpp] with that cart and no order yet. *)
Definition memory_world : MemoryLog.World :=
  MemoryLog.mkWorld headphones_store
    (replicate (Z.to_nat MemoryLog.ORDERS_SIZE) None) 0 1 [].

(** A cart with eleven laptops, and [1.cpp] with that cart and no log
    file yet. *)
Definition laptops_store : Store :=
  mkStore {[ 1%positive := mkCartItem Laptop 11 ]}
          (mkCart [1%positive] 10).

Definition laptops_world : FileLog.World :=
  FileLog.mkWorld laptops_store (FileLog.mkFS None true) [].

(** [1.cpp] at its start, with no log file yet, and two visits. *)
Definition shop_opening : FileLog.World :=
  FileLog.mkWorld initial_store (FileLog.mkFS None true) [].

Definition headphones_visit : FileLog.Visit :=
  FileLog.mkVisit [(Headphones, 2)] 1 1700000000.

Definition laptop_visit : FileLog.Visit :=
  FileLog.mkVisit [(Laptop, 1)] 2 1700000060.

(** Eleven products of a larger catalog, each added once: one more
    than the array of a new cart holds. *)
Definition eleven_adds : list cart_op :=
  map (fun i => AddProduct (mkProduct (Z.of_nat i) "Item" 1%float) 1)
      (seq 1 11).

(** A session at menu choice 1: headphones twice, then a laptop. *)
Definition three_rounds : list (int_input * ascii) :=
  [(Number 3, "y"%char); (Number 3, "Y"%char); (Number 1, "n"%char)].



(** * Part II: properties *)

(** ** The cart *)

(** Running a sequence: the laws used to step through a program. *)
Lemma bind_ok {S A B} (c : prog S A) (k : A -> prog S B) (s s' : S) (a : A) :
  c s = Ok a s' -> bind c k s = k a s'.
Proof. unfold bind. by intros ->. Qed.

Lemma bind_throw {S A B} (c : prog S A) (k : A -> prog S B) (s s' : S)
  (e : exn) :
  c s = Throw e s' -> bind c k s = Throw e s'.
Proof. unfold bind. by intros ->. Qed.

Lemma bind_undef {S A B} (c : prog S A) (k : A -> prog S B) (s : S)
  (u : undefined) :
  c s = Undef u -> bind c k s = Undef u.
Proof. unfold bind. by intros ->. Qed.


Lemma try_catch_undef {S A} (c : prog S A) catches handler (s : S)
  (u : undefined) :
  c s = Undef u -> try_catch c catches handler s = Undef u.
Proof. unfold try_catch. by intros ->. Qed.

Lemma try_catch_caught {S A} (c : prog S A) catches handler (s s' : S)
  (e : exn) :
  c s = Throw e s' -> catches e = true ->
  try_catch c catches handler s = handler e s'.
Proof. unfold try_catch. by intros -> ->. Qed.

(** Reduce the projections of the states and the tests that are decided. *)
Ltac simpl_world :=
  cbv beta iota;
  cbn [FileLog.store FileLog.fs FileLog.console
       FileLog.checkoutChoice FileLog.paymentInput FileLog.now
       FileLog.menuChoice FileLog.rounds FileLog.addMore0 FileLog.cartInputs
       MemoryLog.store MemoryLog.orders MemoryLog.orderCount
       MemoryLog.nextOrderId MemoryLog.console
       MemoryLog.checkoutChoice MemoryLog.paymentInput
       MemoryLog.menuChoice MemoryLog.rounds MemoryLog.addMore0
       MemoryLog.cartInputs].


Section CartFacts.

Implicit Types (s : Store) (h : gmap loc CartItem) (ls : list loc)
  (l : loc) (it : CartItem).

Lemma omap_lookup_agree h h' ls :
  (forall l, l ∈ ls -> h' !! l = h !! l) ->
  omap (fun l => h' !! l) ls = omap (fun l => h !! l) ls.
Proof.
  induction ls as [|l ls IH]; intros Hag; [reflexivity|].
  cbn. rewrite Hag by left. rewrite IH; [reflexivity|].
  intros k Hk. apply Hag. by right.
Qed.

Lemma omap_lookup_length h ls :
  Forall (fun l => is_Some (h !! l)) ls ->
  length (omap (fun l => h !! l) ls) = length ls.
Proof.
  induction 1 as [|l ls [it Hit] _ IH]; [reflexivity|].
  cbn. rewrite Hit. cbn. by rewrite IH.
Qed.

Lemma omap_lookup_app h ls1 ls2 :
  omap (fun l => h !! l) (ls1 ++ ls2) =
  omap (fun l => h !! l) ls1 ++ omap (fun l => h !! l) ls2.
Proof. apply omap_app. Qed.

(** The accumulation loop reads every line once, left to right. *)
Lemma sum_loop_ok ls : forall total s,
  Forall (fun l => is_Some (heap s !! l)) ls ->
  sum_loop ls total s =
  Ok (fold_left (fun t it => PrimFloat.add t (getTotalPrice it))
        (omap (fun l => heap s !! l) ls) total) s.
Proof.
  induction ls as [|l ls IH]; intros total s Hlive; [reflexivity|].
  inversion Hlive as [|? ? [it Hit] Hrest]; subst.
  cbn. unfold bind, deref. rewrite Hit. cbn. by rewrite IH.
Qed.

Lemma cart_lines_nil s : cart_wf s -> (cart_lines s = [] <-> items (cart s) = []).
Proof.
  intros [_ Hlive]. split; intros H.
  - apply (f_equal (@length _)) in H. unfold cart_lines in H.
    rewrite omap_lookup_length in H by done. by destruct (items (cart s)).
  - unfold cart_lines. by rewrite H.
Qed.

Lemma count_zero (c : ShoppingCart) : (count c =? 0) = true <-> items c = [].
Proof.
  unfold count. rewrite Z.eqb_eq. destruct (items c); cbn; [tauto|].
  split; [lia|discriminate].
Qed.

(** Binary64 addition is commutative, and a sum of two terms that
    starts from [0.0] does not depend on their order.  (It is not
    associative: three terms can round differently.) *)
Lemma SF64add_comm (a b : spec_float) : SF64add a b = SF64add b a.
Proof.
  unfold SF64add, SFadd.
  destruct a as [sa|sa| |sa ma ea], b as [sb|sb| |sb mb eb];
    try reflexivity; try (destruct sa, sb; reflexivity).
  rewrite (Z.min_comm ea eb). f_equal. apply Z.add_comm.
Qed.

Lemma zero_add_add (x y : float) :
  PrimFloat.add (PrimFloat.add 0 x) y = PrimFloat.add (PrimFloat.add 0 y) x.
Proof.
  apply Prim2SF_inj. rewrite !FloatAxioms.add_spec.
  change (Prim2SF 0%float) with (S754_zero false).
  destruct (Prim2SF x) as [sa|sa| |sa ma ea],
           (Prim2SF y) as [sb|sb| |sb mb eb];
    try reflexivity; try (destruct sa, sb; reflexivity);
    try (destruct sa; reflexivity); try (destruct sb; reflexivity).
  change (SF64add (S754_zero false) (S754_finite sa ma ea))
    with (S754_finite sa ma ea).
  change (SF64add (S754_zero false) (S754_finite sb mb eb))
    with (S754_finite sb mb eb).
  apply SF64add_comm.
Qed.

Lemma sum_lines_short (lines lines' : list CartItem) :
  Permutation lines lines' -> (length lines' <= 2)%nat ->
  sum_lines lines' = sum_lines lines.
Proof.
  intros Hperm Hlen.
  destruct lines' as [|a [|b [|c lines']]]; [| | |cbn in Hlen; lia].
  - apply Permutation_sym, Permutation_nil in Hperm. by subst.
  - apply Permutation_sym, Permutation_length_1_inv in Hperm. by subst.
  - apply Permutation_sym, Permutation_length_2_inv in Hperm as [->| ->];
      [reflexivity|]. unfold sum_lines. cbn. apply zero_add_add.
Qed.

(** [getTotalAmount] on an empty and on a non-empty cart. *)
Lemma getTotalAmount_empty s :
  items (cart s) = [] -> getTotalAmount s = Throw EmptyCartException s.
Proof.
  intros H. unfold getTotalAmount, bind, get_cart.
  apply count_zero in H. by rewrite H.
Qed.

Lemma getTotalAmount_ok s :
  cart_wf s -> cart_lines s <> [] ->
  getTotalAmount s = Ok (sum_lines (cart_lines s)) s.
Proof.
  intros Hwf Hne. rewrite (cart_lines_nil s Hwf) in Hne.
  destruct Hwf as [_ Hlive]. unfold getTotalAmount, bind, get_cart.
  destruct (count (cart s) =? 0) eqn:Hc; [by apply count_zero in Hc|].
  by rewrite sum_loop_ok.
Qed.

Lemma isEmpty_spec s : isEmpty s = Ok (count (cart s) =? 0) s.
Proof. reflexivity. Qed.

(** [delete] of every line of the cart. *)
Lemma delete_all_ok ls : forall s,
  NoDup ls ->
  Forall (fun l => is_Some (heap s !! l)) ls ->
  exists h',
    delete_all ls s = Ok tt (mkStore h' (cart s)) /\
    (forall l, l ∉ ls -> h' !! l = heap s !! l) /\
    (forall l, l ∈ ls -> h' !! l = None).
Proof.
  induction ls as [|l ls IH]; intros s Hnd Hlive.
  - exists (heap s). cbn. unfold ret. destruct s. split; [done|]. split; [done|].
    intros l Hl. by apply elem_of_nil in Hl.
  - apply NoDup_cons in Hnd as [Hl Hnd].
    inversion Hlive as [|? ? [it Hit] Hrest]; subst.
    cbn. unfold bind, delete_item. rewrite Hit.
    destruct (IH (mkStore (delete l (heap s)) (cart s)) Hnd) as (h' & Hrun & Hout & Hin).
    { cbn. rewrite Forall_forall in Hrest |- *. intros k Hk.
      rewrite lookup_delete_ne; [by apply Hrest|]. by intros ->. }
    cbn in *. exists h'. split; [exact Hrun|]. split.
    + intros k Hk. rewrite Hout.
      * apply lookup_delete_ne. intros ->. apply Hk. left.
      * intros H. apply Hk. by right.
    + intros k Hk. apply elem_of_cons in Hk as [->|Hk]; [|by apply Hin].
      rewrite Hout by done. apply lookup_delete_eq.
Qed.

Lemma clearCart_ok s :
  cart_wf s ->
  exists h',
    clearCart s = Ok tt (mkStore h' (mkCart [] (capacity (cart s)))) /\
    (forall l, l ∉ items (cart s) -> h' !! l = heap s !! l) /\
    (forall l, l ∈ items (cart s) -> h' !! l = None).
Proof.
  intros [Hnd Hlive].
  destruct (delete_all_ok _ s Hnd Hlive) as (h' & Hrun & Hout & Hin).
  exists h'. unfold clearCart, bind, get_cart. rewrite Hrun. by cbn.
Qed.

Lemma cleared_wf h c : cart_wf (mkStore h (mkCart [] c)).
Proof. split; cbn; constructor. Qed.

End CartFacts.

(** C2 (as amended): [getTotalAmount] throws [EmptyCartException]
    exactly when the cart has no lines; on a cart with lines it returns,
    without changing anything, the binary64 sum of price times quantity
    accumulated from [0.0] in the order of the lines.  That sum does not
    depend on the order of the lines when there are at most two of
    them. *)
Theorem getTotalAmount_spec (s : Store) (Hwf : cart_wf s) :
  (getTotalAmount s = Throw EmptyCartException s <-> cart_lines s = []) /\
  (cart_lines s <> [] ->
   getTotalAmount s = Ok (sum_lines (cart_lines s)) s) /\
  (forall lines' : list CartItem,
     Permutation (cart_lines s) lines' -> (length lines' <= 2)%nat ->
     sum_lines lines' = sum_lines (cart_lines s)).
Proof.
  split; [|split; [by apply getTotalAmount_ok|by apply sum_lines_short]].
  split.
  - intros Hthrow. destruct (cart_lines s) eqn:Hl; [done|].
    rewrite getTotalAmount_ok in Hthrow; [discriminate|done|by rewrite Hl].
  - intros Hl. apply getTotalAmount_empty. by apply cart_lines_nil.
Qed.

Lemma cart_LSH_built :
  add_all [(Laptop, 1); (Smartphone, 1); (Smartphone, 1);
           (Headphones, 1); (Headphones, 1)] initial_store = Ok tt cart_LSH.
Proof. vm_compute. reflexivity. Qed.

Lemma cart_LHS_built :
  add_all [(Laptop, 1); (Headphones, 1); (Headphones, 1);
           (Smartphone, 1); (Smartphone, 1)] initial_store = Ok tt cart_LHS.
Proof. vm_compute. reflexivity. Qed.

Lemma three_lines_wf (h : gmap loc CartItem) (c : Z) :
  Forall (fun l => is_Some (h !! l)) [1%positive; 2%positive; 3%positive] ->
  cart_wf (mkStore h (mkCart [1%positive; 2%positive; 3%positive] c)).
Proof.
  intros Hlive. split; [|exact Hlive]. cbn. compute_done.
Qed.

Lemma cart_LSH_wf : cart_wf cart_LSH.
Proof.
  apply three_lines_wf. repeat constructor; eexists; vm_compute; reflexivity.
Qed.

Lemma cart_LHS_wf : cart_wf cart_LHS.
Proof.
  apply three_lines_wf. repeat constructor; eexists; vm_compute; reflexivity.
Qed.

Lemma float_neq (x y : float) : Prim2SF x <> Prim2SF y -> x <> y.
Proof. intros H ->. by apply H. Qed.

(** C2, counterexample: the same three lines in two orders give totals
    that differ in the last binary digit (2399.9500000000003 against
    2399.9499999999998). *)
Lemma total_depends_on_line_order :
  cart_wf cart_LSH /\ cart_wf cart_LHS /\
  Permutation (cart_lines cart_LSH) (cart_lines cart_LHS) /\
  exists tA tB : float,
    getTotalAmount cart_LSH = Ok tA cart_LSH /\
    getTotalAmount cart_LHS = Ok tB cart_LHS /\
    tA <> tB.
Proof.
  split; [exact cart_LSH_wf|]. split; [exact cart_LHS_wf|]. split.
  - change (cart_lines cart_LSH)
      with [mkCartItem Laptop 1; mkCartItem Smartphone 2; mkCartItem Headphones 2].
    change (cart_lines cart_LHS)
      with [mkCartItem Laptop 1; mkCartItem Headphones 2; mkCartItem Smartphone 2].
    apply perm_skip, perm_swap.
  - exists 0x1.2bfe666666667p+11%float, 0x1.2bfe666666666p+11%float.
    split; [vm_compute; reflexivity|]. split; [vm_compute; reflexivity|].
    apply float_neq. vm_compute. discriminate.
Qed.

Lemma cart_LS_wf : cart_wf cart_LS.
Proof.
  split; cbn; [compute_done|].
  repeat constructor; eexists; vm_compute; reflexivity.
Qed.

Lemma getTotalAmount_spec_witness :
  cart_wf cart_LS /\
  getTotalAmount cart_LS =
    Ok (sum_lines [mkCartItem Laptop 1; mkCartItem Smartphone 2]) cart_LS /\
  sum_lines [mkCartItem Smartphone 2; mkCartItem Laptop 1] =
    sum_lines [mkCartItem Laptop 1; mkCartItem Smartphone 2].
Proof.
  destruct (getTotalAmount_spec cart_LS cart_LS_wf) as (_ & Hsum & Horder).
  split; [exact cart_LS_wf|]. split.
  - apply Hsum. discriminate.
  - apply Horder; [apply perm_swap|cbn; lia].
Defined.

(** ** addProduct *)

Section AddProductFacts.

Implicit Types (s : Store) (h : gmap loc CartItem) (ls : list loc)
  (l : loc) (it : CartItem) (lines : list CartItem).

Lemma int_add_exact (a b : Z) : in_int_range (a + b) -> int_add a b = a + b.
Proof.
  unfold in_int_range, INT_MIN, INT_MAX, int_add, wrap_int. intros H.
  rewrite Z.mod_small; lia.
Qed.

Lemma int_add_one (n : Z) : 0 <= n < 2147483647 -> int_add n 1 = n + 1.
Proof. intros H. apply int_add_exact. unfold in_int_range, INT_MIN, INT_MAX. lia. Qed.

Lemma bump_none pid q lines :
  bump pid q lines = None <-> lines_for pid lines = [].
Proof.
  unfold lines_for.
  induction lines as [|it lines IH]; cbn; [tauto|].
  destruct (line_id it =? pid); [split; discriminate|].
  destruct (bump pid q lines); cbn; [|tauto].
  split; [discriminate|]. intros H. apply IH in H. discriminate.
Qed.

Lemma bump_ids pid q lines lines' :
  bump pid q lines = Some lines' -> map line_id lines' = map line_id lines.
Proof.
  revert lines'. induction lines as [|it lines IH]; cbn; [discriminate|].
  intros lines'. destruct (line_id it =? pid).
  - intros [= <-]. reflexivity.
  - destruct (bump pid q lines) as [r|]; cbn; [|discriminate].
    intros [= <-]. cbn. f_equal. by apply IH.
Qed.

Lemma lines_for_absent pid lines :
  pid ∉ map line_id lines -> lines_for pid lines = [].
Proof.
  unfold lines_for.
  induction lines as [|it lines IH]; cbn; [reflexivity|].
  intros Hn. destruct (Z.eqb_spec (line_id it) pid) as [Heq|_].
  - exfalso. apply Hn. rewrite Heq. left.
  - apply IH. intros H. apply Hn. by right.
Qed.

(** With one line per id, the line that is found is the only one of its
    id and it carries the sum afterwards. *)
Lemma bump_unique pid q lines it rest :
  NoDup (map line_id lines) ->
  lines_for pid lines = it :: rest ->
  exists lines',
    bump pid q lines = Some lines' /\
    lines_for pid lines' = [setQuantity it (int_add (getQuantity it) q)].
Proof.
  unfold lines_for.
  induction lines as [|it0 lines IH]; cbn; [discriminate|].
  intros Hnd Hfor. apply NoDup_cons in Hnd as [Hnotin Hnd].
  destruct (Z.eqb_spec (line_id it0) pid) as [Heq|Hne].
  - injection Hfor as -> _. eexists. split; [reflexivity|].
    cbn. unfold line_id at 1. cbn. fold (line_id it). rewrite Heq, Z.eqb_refl.
    f_equal. apply lines_for_absent. by rewrite <- Heq.
  - destruct (IH Hnd Hfor) as (lines' & -> & Hl). eexists. split; [reflexivity|].
    cbn. destruct (Z.eqb_spec (line_id it0) pid); [done|exact Hl].
Qed.

Lemma lines_for_app pid lines1 lines2 :
  lines_for pid (lines1 ++ lines2) = lines_for pid lines1 ++ lines_for pid lines2.
Proof. apply List.filter_app. Qed.

(** The search loop on a well-formed store: it reports whether a line
    was found, and rewrites only that line. *)
Lemma addProduct_scan_ok pid q ls : forall s,
  NoDup ls ->
  Forall (fun l => is_Some (heap s !! l)) ls ->
  exists h',
    addProduct_scan pid q ls s =
      Ok (found (bump pid q (omap (fun l => heap s !! l) ls)))
         (mkStore h' (cart s)) /\
    omap (fun l => h' !! l) ls =
      default (omap (fun l => heap s !! l) ls)
              (bump pid q (omap (fun l => heap s !! l) ls)) /\
    (forall l, l ∉ ls -> h' !! l = heap s !! l) /\
    dom h' = dom (heap s).
Proof.
  induction ls as [|l ls IH]; intros s Hnd Hlive.
  - exists (heap s). cbn. unfold ret. by destruct s.
  - apply NoDup_cons in Hnd as [Hl Hnd].
    inversion Hlive as [|? ? [it Hit] Hrest]; subst.
    cbn. unfold bind at 1. unfold deref. rewrite Hit. cbn.
    destruct (getId (getProduct it) =? pid) eqn:Hid.
    + unfold line_id. rewrite Hid. cbn.
      unfold bind, assign, ret. rewrite Hit. cbn.
      eexists. split; [reflexivity|]. split; [|split].
      * rewrite lookup_insert_eq. cbn. f_equal.
        apply omap_lookup_agree. intros k Hk.
        rewrite lookup_insert_ne; [done|]. intros ->. done.
      * intros k Hk. rewrite lookup_insert_ne; [done|].
        intros ->. apply Hk. left.
      * apply dom_insert_lookup_L. by eexists.
    + unfold line_id. rewrite Hid.
      destruct (IH s Hnd Hrest) as (h' & Hrun & Hlines & Hframe & Hdom).
      exists h'. rewrite Hrun. split; [|split; [|split]].
      * by destruct (bump pid q _).
      * rewrite Hframe by done. rewrite Hit. cbn. rewrite Hlines.
        by destruct (bump pid q _).
      * intros k Hk. apply Hframe. intros H. apply Hk. by right.
      * exact Hdom.
Qed.

(** [addProduct] on a well-formed store. *)
Lemma addProduct_ok s p q :
  cart_wf s ->
  exists s',
    addProduct p q s = Ok tt s' /\
    cart_wf s' /\
    cart_lines s' =
      match bump (getId p) q (cart_lines s) with
      | Some lines => lines
      | None => cart_lines s ++ [mkCartItem p q]
      end /\
    (forall l, l ∉ items (cart s) -> is_Some (heap s !! l) ->
               heap s' !! l = heap s !! l) /\
    dom (heap s) ⊆ dom (heap s') /\
    (forall l, l ∈ items (cart s') -> l ∈ items (cart s) \/ l ∉ dom (heap s)).
Proof.
  intros [Hnd Hlive].
  destruct (addProduct_scan_ok (getId p) q (items (cart s)) s Hnd Hlive)
    as (h' & Hrun & Hlines & Hframe & Hdom).
  unfold addProduct, bind at 1, get_cart. unfold bind at 1. rewrite Hrun.
  fold (cart_lines s) in *.
  destruct (bump (getId p) q (cart_lines s)) as [lines|] eqn:Hb; cbn.
  - eexists. split; [reflexivity|]. cbn. repeat split.
    + exact Hnd.
    + cbn. eapply Forall_impl; [exact Hlive|]. cbn. intros l Hl.
      apply elem_of_dom. rewrite Hdom. by apply elem_of_dom.
    + exact Hlines.
    + intros l Hl _. by apply Hframe.
    + by rewrite Hdom.
    + intros l Hl. by left.
  - unfold bind, new, set_cart. cbn.
    set (l := fresh (dom h')).
    assert (l ∉ dom h') as Hfresh by apply is_fresh.
    assert (l ∉ items (cart s)) as Hnotin.
    { intros Hin. apply Hfresh. rewrite Hdom. apply elem_of_dom.
      rewrite Forall_forall in Hlive. by apply Hlive. }
    eexists. split; [reflexivity|]. cbn. repeat split.
    + cbn. apply NoDup_app. repeat split; [done| |apply NoDup_singleton].
      intros k Hk Hk'. apply list_elem_of_singleton in Hk'. by subst.
    + cbn. apply Forall_app. split.
      * eapply Forall_impl; [exact Hlive|]. cbn. intros k Hk.
        apply elem_of_dom. rewrite dom_insert_L, Hdom.
        apply elem_of_union_r. by apply elem_of_dom.
      * constructor; [|constructor]. rewrite lookup_insert_eq. by eexists.
    + unfold cart_lines. cbn. rewrite omap_app. cbn.
      rewrite lookup_insert_eq. cbn. f_equal.
      cbn in Hlines. unfold cart_lines in Hlines. rewrite <- Hlines.
      apply omap_lookup_agree. intros k Hk.
      rewrite lookup_insert_ne; [done|]. intros ->. done.
    + intros k Hk Hsome. cbn. rewrite lookup_insert_ne; [by apply Hframe|].
      intros <-. apply Hfresh. rewrite Hdom. by apply elem_of_dom.
    + cbn. rewrite dom_insert_L, Hdom. apply union_subseteq_r.
    + cbn. intros k Hk. apply elem_of_app in Hk as [Hk|Hk]; [by left|].
      right. apply list_elem_of_singleton in Hk. subst k. by rewrite <- Hdom.
Qed.

(** One line per product id is an invariant of [addProduct]. *)
Lemma addProduct_ids_unique s s' p q :
  cart_wf s -> ids_unique s -> addProduct p q s = Ok tt s' -> ids_unique s'.
Proof.
  intros Hwf Hu Hrun.
  destruct (addProduct_ok s p q Hwf) as (s1 & Hrun1 & _ & Hlines & _).
  rewrite Hrun in Hrun1. injection Hrun1 as <-.
  unfold ids_unique in *. rewrite Hlines.
  destruct (bump (getId p) q (cart_lines s)) as [lines|] eqn:Hb.
  - by rewrite (bump_ids _ _ _ _ Hb).
  - rewrite map_app. cbn. apply NoDup_app. repeat split; [done| |apply NoDup_singleton].
    intros k Hk Hk'. apply list_elem_of_singleton in Hk'. subst k.
    apply bump_none in Hb. unfold line_id in Hk at 1. cbn in Hk.
    apply list_elem_of_In, in_map_iff in Hk as (it & Hid & Hin).
    assert (In it (lines_for (getId p) (cart_lines s))) as Hf.
    { apply filter_In. split; [done|]. by apply Z.eqb_eq. }
    rewrite Hb in Hf. destruct Hf.
Qed.

End AddProductFacts.

(** C3 (as amended): on a cart that has no line for the product's id,
    two calls of [addProduct] with quantities [q1] and [q2] leave one
    line for that id, appended at the end, with quantity [q1 + q2] (the
    [int] sum); on a cart that already has the line, no line is appended
    and the line carries its former quantity plus [q1] plus [q2].  Either
    way the cart keeps one line per product id. *)
Theorem addProduct_twice (s : Store) (p : Product) (q1 q2 : Z)
  (Hwf : cart_wf s) (Huniq : ids_unique s) :
  exists s',
    (addProduct p q1 ;; addProduct p q2) s = Ok tt s' /\
    cart_wf s' /\ ids_unique s' /\
    match lines_for (getId p) (cart_lines s) with
    | [] =>
        cart_lines s' = cart_lines s ++ [mkCartItem p (int_add q1 q2)] /\
        lines_for (getId p) (cart_lines s') = [mkCartItem p (int_add q1 q2)]
    | it :: _ =>
        length (cart_lines s') = length (cart_lines s) /\
        lines_for (getId p) (cart_lines s') =
          [setQuantity it (int_add (int_add (getQuantity it) q1) q2)]
    end.
Proof.
  destruct (addProduct_ok s p q1 Hwf) as (s1 & Hrun1 & Hwf1 & Hlines1 & _).
  pose proof (addProduct_ids_unique _ _ _ _ Hwf Huniq Hrun1) as Huniq1.
  destruct (addProduct_ok s1 p q2 Hwf1) as (s2 & Hrun2 & Hwf2 & Hlines2 & _).
  pose proof (addProduct_ids_unique _ _ _ _ Hwf1 Huniq1 Hrun2) as Huniq2.
  exists s2. unfold bind. rewrite Hrun1. split; [exact Hrun2|].
  split; [exact Hwf2|]. split; [exact Huniq2|].
  destruct (lines_for (getId p) (cart_lines s)) as [|it rest] eqn:Hfor.
  - apply bump_none with (q := q1) in Hfor as Hb. rewrite Hb in Hlines1.
    assert (lines_for (getId p) (cart_lines s1) = [mkCartItem p q1]) as Hfor1.
    { rewrite Hlines1, lines_for_app, Hfor. cbn. unfold line_id. cbn.
      by rewrite Z.eqb_refl. }
    destruct (bump_unique (getId p) q2 _ _ _ Huniq1 Hfor1) as (lines' & Hb2 & Hfor2).
    rewrite Hb2 in Hlines2. rewrite Hlines2. split; [|exact Hfor2].
    (* the second call finds the appended line *)
    clear - Hb Hb2 Hlines1. rewrite Hlines1 in Hb2. clear Hlines1.
    revert lines' Hb Hb2. induction (cart_lines s) as [|it0 lines IH]; cbn.
    + unfold line_id. cbn. rewrite Z.eqb_refl. by intros ? _ [= <-].
    + intros lines'. destruct (line_id it0 =? getId p); [discriminate|].
      destruct (bump (getId p) q1 lines) eqn:E1; [discriminate|]. intros _.
      destruct (bump (getId p) q2 (lines ++ _)) eqn:E2; [|discriminate].
      cbn. intros [= <-]. f_equal. by apply IH.
  - destruct (bump_unique (getId p) q1 _ _ _ Huniq Hfor) as (lines1 & Hb1 & Hfor1).
    rewrite Hb1 in Hlines1. rewrite <- Hlines1 in Hfor1.
    destruct (bump_unique (getId p) q2 _ _ _ Huniq1 Hfor1) as (lines2 & Hb2 & Hfor2).
    rewrite Hb2 in Hlines2. rewrite Hlines2. split; [|exact Hfor2].
    apply bump_ids in Hb1, Hb2.
    apply (f_equal (@length _)) in Hb1, Hb2. rewrite !length_map in Hb1, Hb2.
    rewrite Hlines1 in Hb2. congruence.
Qed.

Lemma initial_store_wf : cart_wf initial_store.
Proof. split; cbn; constructor. Qed.

Lemma initial_store_ids_unique : ids_unique initial_store.
Proof. constructor. Qed.

Lemma addProduct_twice_witness :
  exists s',
    (addProduct Headphones 1 ;; addProduct Headphones 1) initial_store
      = Ok tt s' /\
    cart_lines s' = [mkCartItem Headphones 2].
Proof.
  destruct (addProduct_twice initial_store Headphones 1 1
              initial_store_wf initial_store_ids_unique)
    as (s' & Hrun & _ & _ & Hlines & _).
  exists s'. split; [exact Hrun | exact Hlines].
Defined.

(** C3, counterexample: the cart already holds five headphones; two more
    calls with quantity 1 leave the one line with quantity 7, not 2. *)
Lemma addProduct_twice_adds_to_existing_line :
  exists s s' : Store,
    addProduct Headphones 5 initial_store = Ok tt s /\
    (addProduct Headphones 1 ;; addProduct Headphones 1) s = Ok tt s' /\
    cart_lines s' = [mkCartItem Headphones 7] /\
    7 <> 1 + 1.
Proof.
  eexists _, _. split; [vm_compute; reflexivity|].
  split; [vm_compute; reflexivity|]. split; [vm_compute; reflexivity|lia].
Qed.

(** ** Cart operations inside the two programs *)

Lemma file_on_store_ok {A} (c : prog Store A) (w : FileLog.World)
  (a : A) (st : Store) :
  c (FileLog.store w) = Ok a st ->
  FileLog.on_store c w =
  Ok a (FileLog.mkWorld st (FileLog.fs w) (FileLog.console w)).
Proof. unfold FileLog.on_store, zoom. by intros ->. Qed.

Lemma memory_on_store_ok {A} (c : prog Store A) (w : MemoryLog.World)
  (a : A) (st : Store) :
  c (MemoryLog.store w) = Ok a st ->
  MemoryLog.on_store c w =
  Ok a (MemoryLog.mkWorld st (MemoryLog.orders w) (MemoryLog.orderCount w)
          (MemoryLog.nextOrderId w) (MemoryLog.console w)).
Proof. unfold MemoryLog.on_store, zoom. by intros ->. Qed.

(** ** Checkout with the log file *)

Section FileLogCheckout.

Import FileLog.

Lemma contents_loop_ok ls : forall contents s,
  Forall (fun l => is_Some (heap s !! l)) ls ->
  contents_loop ls contents s =
  Ok (fold_left (fun c it => (c ++ contents_line it)%string)
        (omap (fun l => heap s !! l) ls) contents) s.
Proof.
  induction ls as [|l ls IH]; intros contents s Hlive; [reflexivity|].
  inversion Hlive as [|? ? [it Hit] Hrest]; subst.
  cbn. unfold bind, deref. rewrite Hit. cbn. by rewrite IH.
Qed.

Lemma getCartContents_ok s :
  cart_wf s -> getCartContents s = Ok (contents_of (cart_lines s)) s.
Proof.
  intros [_ Hlive]. unfold getCartContents, bind, get_cart.
  destruct (count (cart s) =? 0) eqn:Hc.
  - apply count_zero in Hc. unfold cart_lines. by rewrite Hc.
  - by rewrite contents_loop_ok.
Qed.

(** The checkout of a cart with lines, whatever the state of the file. *)
Lemma file_checkout_ok (w : World) (paymentChoice now : Z)
  (st : PaymentStrategy) :
  cart_wf (store w) ->
  cart_lines (store w) <> [] ->
  select_strategy paymentChoice = Some st ->
  exists h',
    clearCart (store w) =
      Ok tt (mkStore h' (mkCart [] (capacity (cart (store w))))) /\
    checkout paymentChoice now w =
      Ok tt (mkWorld
               (mkStore h' (mkCart [] (capacity (cart (store w)))))
               (log_after (fs w) now st (cart_lines (store w)))
               (console w ++
                [Cout checkout_notice;
                 Receipt (order_id now) (getMethodName st)
                         (sum_lines (cart_lines (store w)))])).
Proof.
  intros Hwf Hne Hsel.
  destruct (clearCart_ok _ Hwf) as (h' & Hclear & _).
  exists h'. split; [exact Hclear|].
  unfold checkout, log_after. rewrite Hsel.
  unfold bind, on_store, zoom, get, print, append_log, ret.
  rewrite (getTotalAmount_ok _ Hwf Hne). cbn [store fs console].
  destruct (appendable (fs w)) eqn:Happ; cbn [store fs console].
  - rewrite (getCartContents_ok _ Hwf). cbn [store fs console].
    rewrite Hclear, Happ, <- !app_assoc. reflexivity.
  - rewrite Hclear, <- !app_assoc. reflexivity.
Qed.

End FileLogCheckout.

(** ** Checkout with the orders in memory *)

Section MemoryLogCheckout.

Import MemoryLog.

Implicit Types (s : Store) (h : gmap loc CartItem) (ls : list loc) (l : loc).

(** The constructor of [Order] copies every line into a new object. *)
Lemma copy_items_ok ls : forall s,
  Forall (fun l => is_Some (heap s !! l)) ls ->
  exists copies h',
    copy_items ls s = Ok copies (mkStore h' (cart s)) /\
    omap (fun l => h' !! l) copies = omap (fun l => heap s !! l) ls /\
    Forall (fun l => is_Some (h' !! l)) copies /\
    NoDup copies /\
    (forall l, l ∈ copies -> l ∉ dom (heap s)) /\
    (forall l, l ∈ dom (heap s) -> h' !! l = heap s !! l).
Proof.
  induction ls as [|l ls IH]; intros s Hlive.
  - exists [], (heap s). cbn. unfold ret. destruct s. cbn.
    split; [done|]. split; [done|]. split; [constructor|].
    split; [constructor|]. split; [|done].
    intros l Hl. by apply elem_of_nil in Hl.
  - inversion Hlive as [|? ? [it Hit] Hrest]; subst.
    cbn. unfold bind at 1. unfold deref. rewrite Hit.
    unfold bind at 1. unfold new.
    set (l' := fresh (dom (heap s))).
    assert (l' ∉ dom (heap s)) as Hfresh by apply is_fresh.
    set (s1 := mkStore (<[l' := it]> (heap s)) (cart s)).
    assert (forall k, k ∈ dom (heap s) -> heap s1 !! k = heap s !! k) as Hagree.
    { intros k Hk. cbn. apply lookup_insert_ne. by intros <-. }
    destruct (IH s1) as (copies & h' & Hrun & Hvals & Hlive' & Hnd & Hnew & Hold).
    { rewrite Forall_forall in Hrest |- *. intros k Hk.
      rewrite Hagree; [by apply Hrest|]. apply elem_of_dom. by apply Hrest. }
    unfold bind. rewrite Hrun. unfold ret. cbn [cart s1].
    assert (h' !! l' = Some it) as Hl'.
    { rewrite Hold; cbn; [apply lookup_insert_eq|].
      rewrite dom_insert_L. apply elem_of_union_l, elem_of_singleton. done. }
    exists (l' :: copies), h'. split; [reflexivity|]. split; [|split; [|split; [|split]]].
    + cbn. rewrite Hl'. cbn. f_equal. rewrite Hvals.
      apply omap_lookup_agree. intros k Hk. apply Hagree.
      rewrite Forall_forall in Hrest. apply elem_of_dom. by apply Hrest.
    + constructor; [by eexists|done].
    + apply NoDup_cons. split; [|done]. intros Hin. apply (Hnew _ Hin).
      cbn. rewrite dom_insert_L. apply elem_of_union_l, elem_of_singleton. done.
    + intros k Hk. apply elem_of_cons in Hk as [->|Hk]; [done|].
      intros Hdom. apply (Hnew _ Hk). cbn. rewrite dom_insert_L.
      by apply elem_of_union_r.
    + intros k Hk. rewrite Hold; [by apply Hagree|].
      cbn. rewrite dom_insert_L. by apply elem_of_union_r.
Qed.

(** [Order::display] reads the lines through the order's pointers. *)
Lemma read_items_ok ls : forall s,
  Forall (fun l => is_Some (heap s !! l)) ls ->
  read_items ls s = Ok (omap (fun l => heap s !! l) ls) s.
Proof.
  induction ls as [|l ls IH]; intros s Hlive; [reflexivity|].
  inversion Hlive as [|? ? [it Hit] Hrest]; subst.
  cbn. unfold bind, deref. rewrite Hit, IH by done. reflexivity.
Qed.

(** The world after a checkout that stored [copies] as the order's
    lines and left the heap [h']. *)
Lemma memory_checkout_ok (w : World) (paymentChoice : Z)
  (st : PaymentStrategy) :
  cart_wf (store w) ->
  cart_lines (store w) <> [] ->
  select_strategy paymentChoice = Some st ->
  0 <= orderCount w < ORDERS_SIZE ->
  exists copies h',
    checkout paymentChoice w =
      Ok tt (mkWorld
               (mkStore h' (mkCart [] (capacity (cart (store w)))))
               (<[Z.to_nat (orderCount w) :=
                    Some (mkOrder (nextOrderId w) (getMethodName st) copies
                                  (sum_lines (cart_lines (store w))))]>
                  (orders w))
               (int_add (orderCount w) 1)
               (int_add (nextOrderId w) 1)
               (console w ++ [Cout checkout_notice])) /\
    omap (fun l => h' !! l) copies = cart_lines (store w) /\
    Forall (fun l => is_Some (h' !! l)) copies /\
    (forall l, l ∈ copies -> l ∉ dom (heap (store w))) /\
    (forall l, l ∈ dom (heap (store w)) -> l ∉ items (cart (store w)) ->
               h' !! l = heap (store w) !! l).
Proof.
  intros Hwf Hne Hsel Hroom.
  destruct (copy_items_ok (items (cart (store w))) (store w))
    as (copies & h1 & Hcopy & Hvals & Hlive1 & Hnd1 & Hnew & Hold);
    [apply Hwf|].
  assert (cart_wf (mkStore h1 (cart (store w)))) as Hwf1.
  { destruct Hwf as [Hnd Hlive]. split; [exact Hnd|]. cbn.
    rewrite Forall_forall in Hlive |- *. intros k Hk.
    rewrite Hold; [by apply Hlive|]. apply elem_of_dom. by apply Hlive. }
  destruct (clearCart_ok _ Hwf1) as (h' & Hclear & Hkeep & _).
  cbn [cart heap capacity] in Hclear, Hkeep.
  assert (forall l, l ∈ copies -> l ∉ items (cart (store w))) as Hapart.
  { intros l Hl Hin. apply (Hnew _ Hl). destruct Hwf as [_ Hlive].
    rewrite Forall_forall in Hlive. apply elem_of_dom. by apply Hlive. }
  exists copies, h'. split; [|split; [|split; [|split]]].
  - unfold checkout. rewrite Hsel.
    unfold on_store, zoom, take_orderId, get_cart, new_Order,
      store_order, print, bind, ret.
    rewrite (getTotalAmount_ok _ Hwf Hne).
    cbn [store orders orderCount nextOrderId console]. cbv beta.
    rewrite Hcopy. cbn [store orders orderCount nextOrderId console].
    assert ((0 <=? orderCount w) && (orderCount w <? ORDERS_SIZE) = true) as ->.
    { apply andb_true_iff. split; [apply Z.leb_le|apply Z.ltb_lt]; lia. }
    cbn [store orders orderCount nextOrderId console].
    rewrite Hclear. reflexivity.
  - unfold cart_lines. rewrite <- Hvals. apply omap_lookup_agree. intros k Hk.
    apply Hkeep. by apply Hapart.
  - rewrite Forall_forall in Hlive1 |- *. intros k Hk.
    rewrite Hkeep; [by apply Hlive1|by apply Hapart].
  - exact Hnew.
  - intros l Hl Hout. rewrite Hkeep by done. by apply Hold.
Qed.

(** No room left: the write to [orders[orderCount]] is out of bounds. *)
Lemma memory_checkout_full (w : World) (paymentChoice : Z)
  (st : PaymentStrategy) :
  cart_wf (store w) ->
  cart_lines (store w) <> [] ->
  select_strategy paymentChoice = Some st ->
  ~ (0 <= orderCount w < ORDERS_SIZE) ->
  checkout paymentChoice w = Undef OutOfBounds.
Proof.
  intros Hwf Hne Hsel Hfull.
  destruct (copy_items_ok (items (cart (store w))) (store w))
    as (copies & h1 & Hcopy & _); [apply Hwf|].
  unfold checkout. rewrite Hsel.
  unfold on_store, zoom, take_orderId, get_cart, new_Order,
    store_order, print, bind, ret.
  rewrite (getTotalAmount_ok _ Hwf Hne).
  cbn [store orders orderCount nextOrderId console]. cbv beta.
  rewrite Hcopy. cbn [store orders orderCount nextOrderId console].
  assert ((0 <=? orderCount w) && (orderCount w <? ORDERS_SIZE) = false) as ->;
    [|reflexivity].
  apply andb_false_iff.
  destruct (Z.leb_spec 0 (orderCount w)); [right|by left].
  apply Z.ltb_ge. lia.
Qed.

(** Without a strategy the call of [pay] goes through a null pointer. *)
Lemma memory_checkout_null (w : World) (paymentChoice : Z) :
  cart_wf (store w) ->
  cart_lines (store w) <> [] ->
  select_strategy paymentChoice = None ->
  checkout paymentChoice w = Undef NullPointer.
Proof.
  intros Hwf Hne Hsel. unfold checkout. rewrite Hsel.
  erewrite bind_ok
    by (apply memory_on_store_ok, (getTotalAmount_ok _ Hwf Hne)).
  reflexivity.
Qed.

(** Writing slot [orderCount] and counting it adds one entry at the end
    of the order log. *)
Lemma order_log_insert (os : list (option Order)) (n : Z) (o : Order) :
  length os = Z.to_nat ORDERS_SIZE ->
  0 <= n < ORDERS_SIZE ->
  take (Z.to_nat (int_add n 1)) (<[Z.to_nat n := Some o]> os) =
  take (Z.to_nat n) os ++ [Some o].
Proof.
  intros Hlen Hn. unfold ORDERS_SIZE in *.
  rewrite int_add_one by lia.
  replace (Z.to_nat (n + 1)) with (S (Z.to_nat n)) by lia.
  rewrite (take_S_r _ _ (Some o)).
  - by rewrite take_insert_ge.
  - apply list_lookup_insert_eq. lia.
Qed.

End MemoryLogCheckout.

(** ** The checkout claims *)

Section CheckoutText.

Local Arguments String.append : simpl nomatch.

Lemma file_append_assoc (a b d : string) :
  ((a ++ b) ++ d = a ++ (b ++ d))%string.
Proof. induction a as [|c a IH]; [done|]. cbn. by rewrite IH. Qed.

(** The text that [getCartContents] builds is one row line and a
    newline per line of the cart. *)
Lemma file_contents_rows (lines : list CartItem) :
  FileLog.contents_of lines = FileLog.rows_text lines.
Proof.
  unfold FileLog.contents_of.
  assert (forall acc,
            fold_left (fun c it => (c ++ FileLog.contents_line it)%string)
              lines acc = (acc ++ FileLog.rows_text lines)%string) as H.
  { induction lines as [|it lines IH]; intros acc; cbn [fold_left].
    - cbn. clear. induction acc as [|c acc IH]; [done|]. cbn. by rewrite <- IH.
    - rewrite IH. cbn [FileLog.rows_text].
      unfold FileLog.contents_line, FileLog.row_line.
      by rewrite !file_append_assoc. }
  apply H.
Qed.

End CheckoutText.


Lemma headphones_store_wf : cart_wf headphones_store.
Proof.
  split; cbn.
  - apply NoDup_singleton.
  - repeat constructor. eexists. vm_compute. reflexivity.
Qed.

Lemma headphones_store_lines :
  cart_lines headphones_store = [mkCartItem Headphones 2].
Proof. vm_compute. reflexivity. Qed.

Lemma headphones_store_not_empty : cart_lines headphones_store <> [].
Proof. by rewrite headphones_store_lines. Qed.

(** C1 (as amended): the checkout of a cart with at least one line,
    with a payment choice of the menu.

    In [1.cpp] the checkout always ends normally and leaves the cart
    empty.  When [orders.log] opens for appending, exactly one block is
    added at its end: the header line with ["ORD"] and the time and
    with the name of the payment method, one tab-separated line per
    line of the cart, the line [Total Amount: $] with the total, and a
    blank line.  The total is the value that [getTotalAmount] returned
    just before, as [operator<<] prints a [double]: with six significant
    digits.  When the file does not open, it is left as it was.

    In [tempCodeRunnerFile.cpp], when fewer than 100 orders are stored,
    the checkout ends normally, leaves the cart empty and adds exactly
    one order at the end of the log; the order has the next order id,
    the name of the payment method, the lines of the cart and, as its
    total, exactly the value that [getTotalAmount] returned.  When 100
    orders are stored, the checkout writes past the end of the array. *)
Theorem checkout_records_one_order :
  (forall (w : FileLog.World) (paymentChoice now : Z) (st : PaymentStrategy),
     cart_wf (FileLog.store w) ->
     cart_lines (FileLog.store w) <> [] ->
     select_strategy paymentChoice = Some st ->
     exists (total : float) (w' : FileLog.World),
       getTotalAmount (FileLog.store w) = Ok total (FileLog.store w) /\
       FileLog.checkout paymentChoice now w = Ok tt w' /\
       isEmpty (FileLog.store w') = Ok true (FileLog.store w') /\
       FileLog.orders_log (FileLog.fs w') =
         if FileLog.appendable (FileLog.fs w)
         then Some (default EmptyString (FileLog.orders_log (FileLog.fs w)) ++
                    "[LOG] -> Order ID: ORD" ++ to_string_int now ++
                    " has been successfully checked out and paid using " ++
                    getMethodName st ++ "." ++ String "010" "" ++
                    FileLog.rows_text (cart_lines (FileLog.store w)) ++
                    "Total Amount: $" ++ put_double total ++
                    String "010" (String "010" ""))%string
         else FileLog.orders_log (FileLog.fs w)) /\
  (forall (w : MemoryLog.World) (paymentChoice : Z) (st : PaymentStrategy),
     MemoryLog.world_wf w ->
     cart_lines (MemoryLog.store w) <> [] ->
     select_strategy paymentChoice = Some st ->
     (0 <= MemoryLog.orderCount w < MemoryLog.ORDERS_SIZE ->
      exists (total : float) (w' : MemoryLog.World) (o : MemoryLog.Order),
        getTotalAmount (MemoryLog.store w) = Ok total (MemoryLog.store w) /\
        MemoryLog.checkout paymentChoice w = Ok tt w' /\
        isEmpty (MemoryLog.store w') = Ok true (MemoryLog.store w') /\
        MemoryLog.order_log w' = MemoryLog.order_log w ++ [Some o] /\
        MemoryLog.orderId o = MemoryLog.nextOrderId w /\
        MemoryLog.paymentMethod o = getMethodName st /\
        MemoryLog.totalAmount o = total /\
        MemoryLog.display o (MemoryLog.store w') =
          Ok (MemoryLog.mkOrderView (MemoryLog.nextOrderId w)
                (getMethodName st) (cart_lines (MemoryLog.store w)) total)
             (MemoryLog.store w')) /\
     (~ (0 <= MemoryLog.orderCount w < MemoryLog.ORDERS_SIZE) ->
      MemoryLog.checkout paymentChoice w = Undef OutOfBounds)).
Proof.
  split.
  - intros w paymentChoice now st Hwf Hne Hsel.
    destruct (file_checkout_ok w paymentChoice now st Hwf Hne Hsel)
      as (h' & _ & Hrun).
    eexists _, _. split; [by apply getTotalAmount_ok|].
    split; [exact Hrun|]. split; [reflexivity|].
    cbn [FileLog.fs]. unfold FileLog.log_after.
    destruct (FileLog.appendable (FileLog.fs w)); [|reflexivity].
    cbn [FileLog.orders_log]. f_equal. f_equal.
    unfold FileLog.log_block, FileLog.log_header, FileLog.log_total,
      FileLog.order_id, FileLog.header_marker, FileLog.total_marker,
      FileLog.nl, newline.
    rewrite (file_contents_rows (cart_lines (FileLog.store w))).
    rewrite !file_append_assoc. reflexivity.
  - intros w paymentChoice st [Hwf Hlen] Hne Hsel. split.
    + intros Hroom.
      destruct (memory_checkout_ok w paymentChoice st Hwf Hne Hsel Hroom)
        as (copies & h' & Hrun & Hvals & Hlive & _).
      eexists _, _, _. split; [by apply getTotalAmount_ok|].
      split; [exact Hrun|]. split; [reflexivity|]. split.
      * unfold MemoryLog.order_log.
        cbn [MemoryLog.orders MemoryLog.orderCount].
        by apply order_log_insert.
      * do 3 (split; [reflexivity|]).
        unfold MemoryLog.display, bind, ret.
        cbn [MemoryLog.order_items MemoryLog.store].
        rewrite read_items_ok by exact Hlive. cbn [heap].
        by rewrite Hvals.
    + intros Hfull. by apply (memory_checkout_full w paymentChoice st).
Qed.

Lemma checkout_records_one_order_witness :
  (exists (total : float) (w' : FileLog.World),
     getTotalAmount headphones_store = Ok total headphones_store /\
     FileLog.checkout 1 1700000000 (file_world None true) = Ok tt w' /\
     isEmpty (FileLog.store w') = Ok true (FileLog.store w') /\
     FileLog.orders_log (FileLog.fs w') =
       Some ("[LOG] -> Order ID: ORD1700000000 has been successfully checked out and paid using Cash." ++
             String "010" "" ++
             "3" ++ String "009" "" ++ "Headphones" ++ String "009" "" ++
             "99.990000" ++ String "009" "" ++ "2" ++ String "010" "" ++
             "Total Amount: $199.98" ++ String "010" (String "010" ""))%string) /\
  (exists (total : float) (w' : MemoryLog.World) (o : MemoryLog.Order),
     getTotalAmount headphones_store = Ok total headphones_store /\
     MemoryLog.checkout 1 memory_world = Ok tt w' /\
     isEmpty (MemoryLog.store w') = Ok true (MemoryLog.store w') /\
     MemoryLog.order_log w' = [Some o] /\
     MemoryLog.orderId o = 1 /\
     MemoryLog.paymentMethod o = "Cash"%string /\
     MemoryLog.totalAmount o = total /\
     MemoryLog.display o (MemoryLog.store w') =
       Ok (MemoryLog.mkOrderView 1 "Cash" [mkCartItem Headphones 2] total)
          (MemoryLog.store w')).
Proof.
  destruct checkout_records_one_order as [Hfile Hmem]. split.
  - destruct (Hfile (file_world None true) 1 1700000000 CashPayment
                headphones_store_wf headphones_store_not_empty eq_refl)
      as (total & w' & Htotal & Hrun & Hempty & Hlog).
    exists total, w'. do 3 (split; [assumption|]).
    rewrite Hlog. vm_compute in Htotal. injection Htotal as <-.
    vm_compute. reflexivity.
  - refine (proj1 (Hmem memory_world 1 CashPayment
                     (conj headphones_store_wf eq_refl)
                     headphones_store_not_empty eq_refl) _).
    cbn. unfold MemoryLog.ORDERS_SIZE. lia.
Defined.

(** C1, counterexample.  In [1.cpp], when [orders.log] cannot be opened
    for appending, the checkout of two headphones ends normally with the
    cart empty, and there is still no log: no entry was added.  In
    [1.cpp], the checkout of eleven laptops, whose total is 10999.89
    ([to_string] prints it as 10999.890000), writes the total line
    [Total Amount: $10999.9]: the entry does not hold the total.  In
    [tempCodeRunnerFile.cpp], the 101st checkout of a run does not end
    with an empty cart and one more order: it writes past the array. *)
Lemma checkout_entry_missing_or_rounded :
  (cart_lines (FileLog.store (file_world None false)) <> [] /\
   exists w' : FileLog.World,
     FileLog.checkout 1 1700000000 (file_world None false) = Ok tt w' /\
     cart_lines (FileLog.store w') = [] /\
     FileLog.orders_log (FileLog.fs w') = None) /\
  (add_all (replicate 11 (Laptop, 1)) initial_store = Ok tt laptops_store /\
   exists (total : float) (w' : FileLog.World),
     getTotalAmount laptops_store = Ok total laptops_store /\
     to_string_double total = "10999.890000"%string /\
     FileLog.checkout 1 1700000000 laptops_world = Ok tt w' /\
     FileLog.orders_log (FileLog.fs w') =
       Some ("[LOG] -> Order ID: ORD1700000000 has been successfully checked out and paid using Cash." ++
             String "010" "" ++
             "1" ++ String "009" "" ++ "Laptop" ++ String "009" "" ++
             "999.990000" ++ String "009" "" ++ "11" ++ String "010" "" ++
             "Total Amount: $10999.9" ++ String "010" (String "010" ""))%string) /\
  MemoryLog.purchases (replicate 101 ([(Headphones, 1)], 1))
    MemoryLog.initial_world = Undef OutOfBounds.
Proof.
  split; [|split].
  - split; [exact headphones_store_not_empty|].
    eexists. split; [vm_compute; reflexivity|]. split; reflexivity.
  - split; [vm_compute; reflexivity|].
    eexists _, _. split; [vm_compute; reflexivity|].
    split; [vm_compute; reflexivity|].
    split; [vm_compute; reflexivity|]. vm_compute. reflexivity.
  - vm_compute. reflexivity.
Qed.

(** C5 (as amended): the checkout does not depend on the log file being
    writable.  Whether or not [orders.log] opens, the checkout ends
    normally, shows the receipt and clears the cart; the block is
    appended when the file opens and nothing is written, and no error is
    raised, when it does not. *)
Theorem checkout_ignores_failed_append (w : FileLog.World)
  (paymentChoice now : Z) (st : PaymentStrategy)
  (Hwf : cart_wf (FileLog.store w))
  (Hne : cart_lines (FileLog.store w) <> [])
  (Hsel : select_strategy paymentChoice = Some st) :
  exists w' : FileLog.World,
    FileLog.checkout paymentChoice now w = Ok tt w' /\
    isEmpty (FileLog.store w') = Ok true (FileLog.store w') /\
    FileLog.console w' =
      FileLog.console w ++
      [Cout checkout_notice;
       Receipt (FileLog.order_id now) (getMethodName st)
               (sum_lines (cart_lines (FileLog.store w)))] /\
    (FileLog.appendable (FileLog.fs w) = false ->
     FileLog.fs w' = FileLog.fs w) /\
    (FileLog.appendable (FileLog.fs w) = true ->
     FileLog.orders_log (FileLog.fs w') =
       Some (default EmptyString (FileLog.orders_log (FileLog.fs w)) ++
             FileLog.log_block (FileLog.order_id now) (getMethodName st)
               (FileLog.contents_of (cart_lines (FileLog.store w)))
               (sum_lines (cart_lines (FileLog.store w))))%string).
Proof.
  destruct (file_checkout_ok w paymentChoice now st Hwf Hne Hsel)
    as (h' & _ & Hrun).
  eexists. split; [exact Hrun|]. cbn. split; [reflexivity|].
  split; [reflexivity|]. unfold FileLog.log_after.
  split; intros ->; reflexivity.
Qed.

Lemma checkout_ignores_failed_append_witness :
  exists w' : FileLog.World,
    FileLog.checkout 3 1700000000 (file_world None false) = Ok tt w' /\
    isEmpty (FileLog.store w') = Ok true (FileLog.store w') /\
    FileLog.fs w' = FileLog.mkFS None false.
Proof.
  destruct (checkout_ignores_failed_append (file_world None false)
              3 1700000000 GCashPayment
              headphones_store_wf headphones_store_not_empty eq_refl)
    as (w' & Hrun & Hempty & _ & Hfs & _).
  exists w'. split; [exact Hrun|]. split; [exact Hempty|]. exact (Hfs eq_refl).
Defined.

(** C5, counterexample: the log holds an earlier order and has become
    read-only.  The checkout raises no error, the cart is cleared and
    the log is what it was. *)
Lemma failed_append_clears_cart :
  let log := FileLog.log_block "ORD1699999999" "GCash"
               (FileLog.contents_of [mkCartItem Laptop 1])
               (sum_lines [mkCartItem Laptop 1]) in
  exists w' : FileLog.World,
    FileLog.checkout 2 1700000000 (file_world (Some log) false) = Ok tt w' /\
    cart_lines (FileLog.store w') = [] /\
    FileLog.fs w' = FileLog.mkFS (Some log) false.
Proof.
  eexists. split; [vm_compute; reflexivity|]. split; reflexivity.
Qed.

(** C4: a checkout attempted on an empty cart changes neither the cart
    nor the order log and reports that the cart is empty.  At the menu
    (choice 2) [displayCart] prints the notice and the checkout is not
    offered; the checkout sequence itself, run on an empty cart, stops
    at [getTotalAmount] with [EmptyCartException] before anything is
    written.  This holds in both programs. *)
Theorem checkout_of_empty_cart :
  (forall (w : FileLog.World) (inp : FileLog.CartInputs),
     items (cart (FileLog.store w)) = [] ->
     FileLog.view_cart inp w =
       Ok tt (FileLog.mkWorld (FileLog.store w) (FileLog.fs w)
                (FileLog.console w ++ [Cout cart_empty_notice])) /\
     forall paymentChoice now : Z,
       FileLog.checkout paymentChoice now w = Throw EmptyCartException w) /\
  (forall (w : MemoryLog.World) (inp : MemoryLog.CartInputs),
     items (cart (MemoryLog.store w)) = [] ->
     MemoryLog.view_cart inp w =
       Ok tt (MemoryLog.mkWorld (MemoryLog.store w) (MemoryLog.orders w)
                (MemoryLog.orderCount w) (MemoryLog.nextOrderId w)
                (MemoryLog.console w ++ [Cout cart_empty_notice])) /\
     forall paymentChoice : Z,
       MemoryLog.checkout paymentChoice w = Throw EmptyCartException w).
Proof.
  split.
  - intros [[h c] f con] inp Hempty. cbn in Hempty.
    assert ((count c =? 0) = true) as Hc by by apply count_zero.
    split.
    + unfold FileLog.view_cart, FileLog.show_cart, FileLog.on_store, zoom,
        displayCart, isEmpty, get_cart, FileLog.print, bind, ret.
      cbn. rewrite Hc. cbn. rewrite Hc. reflexivity.
    + intros paymentChoice now.
      unfold FileLog.checkout, FileLog.on_store, zoom, bind.
      by rewrite getTotalAmount_empty.
  - intros [[h c] os n i con] inp Hempty. cbn in Hempty.
    assert ((count c =? 0) = true) as Hc by by apply count_zero.
    split.
    + unfold MemoryLog.view_cart, MemoryLog.show_cart, MemoryLog.on_store,
        zoom, displayCart, isEmpty, get_cart, MemoryLog.print, bind, ret.
      cbn. rewrite Hc. cbn. rewrite Hc. reflexivity.
    + intros paymentChoice.
      unfold MemoryLog.checkout, MemoryLog.on_store, zoom, bind.
      by rewrite getTotalAmount_empty.
Qed.

Lemma checkout_of_empty_cart_witness :
  (FileLog.view_cart (FileLog.mkCartInputs "Y" (Number 1) 1700000000)
     (FileLog.mkWorld initial_store (FileLog.mkFS None true) []) =
   Ok tt (FileLog.mkWorld initial_store (FileLog.mkFS None true)
            [Cout cart_empty_notice]) /\
   FileLog.checkout 1 1700000000
     (FileLog.mkWorld initial_store (FileLog.mkFS None true) []) =
   Throw EmptyCartException
     (FileLog.mkWorld initial_store (FileLog.mkFS None true) [])) /\
  (MemoryLog.view_cart (MemoryLog.mkCartInputs "Y" (Number 1))
     MemoryLog.initial_world =
   Ok tt (MemoryLog.mkWorld initial_store
            (replicate (Z.to_nat MemoryLog.ORDERS_SIZE) None) 0 1
            [Cout cart_empty_notice]) /\
   MemoryLog.checkout 1 MemoryLog.initial_world =
   Throw EmptyCartException MemoryLog.initial_world).
Proof.
  destruct checkout_of_empty_cart as [Hfile Hmem]. split.
  - destruct (Hfile (FileLog.mkWorld initial_store (FileLog.mkFS None true) [])
                (FileLog.mkCartInputs "Y" (Number 1) 1700000000) eq_refl)
      as [Hview Hcheck].
    split; [exact Hview | exact (Hcheck 1 1700000000)].
  - destruct (Hmem MemoryLog.initial_world
                (MemoryLog.mkCartInputs "Y" (Number 1)) eq_refl)
      as [Hview Hcheck].
    split; [exact Hview | exact (Hcheck 1)].
Defined.

(** ** The payment choice *)

Lemma display_loop_ok ls : forall rows total s,
  Forall (fun l => is_Some (heap s !! l)) ls ->
  display_loop ls rows total s =
  Ok (rows ++ omap (fun l => heap s !! l) ls,
      fold_left (fun t it => PrimFloat.add t (getTotalPrice it))
        (omap (fun l => heap s !! l) ls) total) s.
Proof.
  induction ls as [|l ls IH]; intros rows total s Hlive.
  - cbn. unfold ret. by rewrite app_nil_r.
  - inversion Hlive as [|? ? [it Hit] Hrest]; subst.
    cbn. unfold bind, deref. rewrite Hit. cbn. rewrite IH by done.
    by rewrite <- app_assoc.
Qed.

Lemma displayCart_ok (s : Store) :
  cart_wf s -> cart_lines s <> [] ->
  displayCart s = Ok (Some (cart_lines s, sum_lines (cart_lines s))) s.
Proof.
  intros Hwf Hne. rewrite (cart_lines_nil s Hwf) in Hne.
  destruct Hwf as [_ Hlive]. unfold displayCart, bind, get_cart.
  destruct (count (cart s) =? 0) eqn:Hc; [by apply count_zero in Hc|].
  by rewrite display_loop_ok.
Qed.

Lemma isEmpty_false (s : Store) :
  cart_wf s -> cart_lines s <> [] -> isEmpty s = Ok false s.
Proof.
  intros Hwf Hne. rewrite (cart_lines_nil s Hwf) in Hne.
  unfold isEmpty, bind, get_cart, ret.
  destruct (count (cart s) =? 0) eqn:Hc; [by apply count_zero in Hc|done].
Qed.

Lemma select_strategy_None (n : Z) :
  select_strategy n = None <-> n < 1 \/ 3 < n.
Proof.
  unfold select_strategy.
  destruct (Z.eqb_spec n 1); [split; [discriminate|lia]|].
  destruct (Z.eqb_spec n 2); [split; [discriminate|lia]|].
  destruct (Z.eqb_spec n 3); [split; [discriminate|lia]|].
  split; [lia|done].
Qed.

Lemma memory_show_cart_ok (w : MemoryLog.World) :
  cart_wf (MemoryLog.store w) -> cart_lines (MemoryLog.store w) <> [] ->
  MemoryLog.show_cart w =
  Ok tt (MemoryLog.mkWorld (MemoryLog.store w) (MemoryLog.orders w)
           (MemoryLog.orderCount w) (MemoryLog.nextOrderId w)
           (MemoryLog.console w ++
            [CartTable (cart_lines (MemoryLog.store w))
                       (sum_lines (cart_lines (MemoryLog.store w)))])).
Proof.
  intros Hwf Hne. unfold MemoryLog.show_cart.
  erewrite bind_ok by (apply memory_on_store_ok, (displayCart_ok _ Hwf Hne)).
  reflexivity.
Qed.

Lemma file_show_cart_ok (w : FileLog.World) :
  cart_wf (FileLog.store w) -> cart_lines (FileLog.store w) <> [] ->
  FileLog.show_cart w =
  Ok tt (FileLog.mkWorld (FileLog.store w) (FileLog.fs w)
           (FileLog.console w ++
            [CartTable (cart_lines (FileLog.store w))
                       (sum_lines (cart_lines (FileLog.store w)))])).
Proof.
  intros Hwf Hne. unfold FileLog.show_cart.
  erewrite bind_ok by (apply file_on_store_ok, (displayCart_ok _ Hwf Hne)).
  reflexivity.
Qed.

(** C8, at the point where [tempCodeRunnerFile.cpp] departs from it: a
    payment choice outside 1..3 is not rejected there.  With a line in
    the cart and the checkout confirmed, the [switch] leaves [strategy]
    null, and [strategy->pay(total)] is a call through a null pointer,
    which the [catch] of the menu loop cannot intercept. *)
Theorem memory_payment_choice_unchecked (w : MemoryLog.World)
  (answer : ascii) (n : Z) (rs : list (int_input * ascii)) (a0 : ascii)
  (Hwf : cart_wf (MemoryLog.store w))
  (Hne : cart_lines (MemoryLog.store w) <> [])
  (Hyes : toupper answer = "Y"%char)
  (Hout : n < 1 \/ 3 < n) :
  MemoryLog.menu_iteration
    (MemoryLog.mkInputs (Number 2) rs a0
       (MemoryLog.mkCartInputs answer (Number n))) w
  = Undef NullPointer.
Proof.
  apply select_strategy_None in Hout.
  unfold MemoryLog.menu_iteration. apply try_catch_undef.
  rewrite (bind_ok _ _ w w (Some 2)) by reflexivity.
  cbn [Z.eqb Pos.eqb MemoryLog.cartInputs]. apply bind_undef.
  unfold MemoryLog.view_cart.
  rewrite (bind_ok _ _ _ _ _ (memory_show_cart_ok w Hwf Hne)).
  erewrite bind_ok
    by (apply memory_on_store_ok, (isEmpty_false _ Hwf Hne)).
  cbn [MemoryLog.checkoutChoice MemoryLog.paymentInput].
  rewrite Hyes. cbn [Ascii.eqb Bool.eqb andb].
  rewrite (bind_ok _ _ _ _ n) by reflexivity.
  unfold MemoryLog.checkout. rewrite Hout.
  erewrite bind_ok
    by (apply memory_on_store_ok, (getTotalAmount_ok _ Hwf Hne)).
  reflexivity.
Qed.

Lemma memory_payment_choice_unchecked_witness :
  MemoryLog.menu_iteration
    (MemoryLog.mkInputs (Number 2) [] "N"
       (MemoryLog.mkCartInputs "y" (Number 4))) memory_world
  = Undef NullPointer.
Proof.
  apply memory_payment_choice_unchecked.
  - exact headphones_store_wf.
  - exact headphones_store_not_empty.
  - reflexivity.
  - lia.
Defined.

(** What [1.cpp] does with the payment choice: the range check turns a
    choice outside 1..3 into a reported error and the state is left as
    it was. *)
Lemma file_read_paymentChoice_spec (inp : int_input) (w : FileLog.World) :
  match inp with
  | Number n =>
      if (n <? 1) || (3 <? n)
      then FileLog.read_paymentChoice inp w =
           Ok None (FileLog.mkWorld (FileLog.store w) (FileLog.fs w)
                      (FileLog.console w ++
                       [Cerr "Invalid payment method. Please select 1-3."]))
      else FileLog.read_paymentChoice inp w = Ok (Some n) w
  | Garbage =>
      FileLog.read_paymentChoice inp w =
      Ok None (FileLog.mkWorld (FileLog.store w) (FileLog.fs w)
                 (FileLog.console w ++ [Cerr (what InvalidInputException)]))
  end.
Proof.
  destruct inp as [n|]; [|reflexivity].
  unfold FileLog.read_paymentChoice, try_catch, bind, getValidatedInput, ret.
  by destruct ((n <? 1) || (3 <? n)).
Qed.

Lemma file_read_yes_no_spec (answer : ascii) (w : FileLog.World) :
  exists (r : option ascii) (out : list (output (list FileLog.OrderBlock))),
    FileLog.read_yes_no answer w =
    Ok r (FileLog.mkWorld (FileLog.store w) (FileLog.fs w)
            (FileLog.console w ++ out)).
Proof.
  unfold FileLog.read_yes_no, try_catch, ret.
  destruct (negb (Ascii.eqb (toupper answer) "Y") &&
            negb (Ascii.eqb (toupper answer) "N")).
  - eexists _, [_]. reflexivity.
  - exists (Some (toupper answer)), []. rewrite app_nil_r. by destruct w.
Qed.

Lemma select_strategy_in_range (n : Z) :
  (n <? 1) || (3 <? n) = false -> is_Some (select_strategy n).
Proof.
  intros H. apply orb_false_iff in H as [H1 H3].
  apply Z.ltb_ge in H1, H3.
  assert (n = 1 \/ n = 2 \/ n = 3) as [->|[->| ->]] by lia; by eexists.
Qed.

(** Menu choice 2 of [1.cpp] always comes back to the menu: it neither
    throws nor runs into undefined behaviour. *)
Lemma file_view_cart_returns (inp : FileLog.CartInputs) (w : FileLog.World) :
  cart_wf (FileLog.store w) ->
  exists w' : FileLog.World, FileLog.view_cart inp w = Ok tt w'.
Proof.
  intros Hwf. unfold FileLog.view_cart.
  destruct (cart_lines (FileLog.store w)) as [|it lines] eqn:Hlines.
  - apply cart_lines_nil in Hlines; [|done].
    assert ((count (cart (FileLog.store w)) =? 0) = true) as Hc
      by by apply count_zero.
    eexists.
    unfold FileLog.show_cart, FileLog.on_store, zoom,
      displayCart, isEmpty, get_cart, FileLog.print, bind, ret.
    rewrite Hc. cbn. rewrite Hc. reflexivity.
  - assert (cart_lines (FileLog.store w) <> []) as Hne by by rewrite Hlines.
    rewrite (bind_ok _ _ _ _ _ (file_show_cart_ok w Hwf Hne)).
    erewrite bind_ok by (apply file_on_store_ok, (isEmpty_false _ Hwf Hne)).
    simpl_world.
    match goal with |- context [bind (FileLog.read_yes_no ?a) _ ?w1] =>
      destruct (file_read_yes_no_spec a w1) as (r & out & Hyn) end.
    rewrite (bind_ok _ _ _ _ _ Hyn). simpl_world.
    destruct r as [c|]; [|by eexists].
    destruct (Ascii.eqb c "Y"); [|by eexists].
    match goal with |- context [bind (FileLog.read_paymentChoice ?i) _ ?w1] =>
      pose proof (file_read_paymentChoice_spec i w1) as Hpay end.
    destruct (FileLog.paymentInput inp) as [n|].
    + destruct ((n <? 1) || (3 <? n)) eqn:Hrange.
      * rewrite (bind_ok _ _ _ _ _ Hpay). by eexists.
      * rewrite (bind_ok _ _ _ _ _ Hpay). simpl_world.
        destruct (select_strategy_in_range n Hrange) as [st Hst].
        match goal with |- context [FileLog.checkout n ?t ?w1] =>
          destruct (file_checkout_ok w1 n t st) as (h' & _ & Hrun);
            [done|done|done|] end.
        rewrite Hrun. by eexists.
    + rewrite (bind_ok _ _ _ _ _ Hpay). by eexists.
Qed.

(** In [1.cpp] a payment choice outside 1..3 is reported and nothing
    else happens: cart and log are as before. *)
Lemma file_payment_choice_rejected (w : FileLog.World) (answer : ascii)
  (n now : Z) :
  cart_wf (FileLog.store w) ->
  cart_lines (FileLog.store w) <> [] ->
  toupper answer = "Y"%char ->
  n < 1 \/ 3 < n ->
  FileLog.view_cart (FileLog.mkCartInputs answer (Number n) now) w =
  Ok tt (FileLog.mkWorld (FileLog.store w) (FileLog.fs w)
           (FileLog.console w ++
            [CartTable (cart_lines (FileLog.store w))
                       (sum_lines (cart_lines (FileLog.store w)));
             Cerr "Invalid payment method. Please select 1-3."])).
Proof.
  intros Hwf Hne Hyes Hout. unfold FileLog.view_cart.
  rewrite (bind_ok _ _ _ _ _ (file_show_cart_ok w Hwf Hne)).
  erewrite bind_ok by (apply file_on_store_ok, (isEmpty_false _ Hwf Hne)).
  simpl_world.
  unfold FileLog.read_yes_no. rewrite Hyes.
  erewrite bind_ok by reflexivity. cbn [Ascii.eqb Bool.eqb andb].
  match goal with |- context [bind (FileLog.read_paymentChoice ?i) _ ?w1] =>
    pose proof (file_read_paymentChoice_spec i w1) as Hpay end.
  assert ((n <? 1) || (3 <? n) = true) as Hrange.
  { apply orb_true_iff. destruct Hout; [left; apply Z.ltb_lt|right; apply Z.ltb_lt]; lia. }
  cbv beta iota in Hpay. rewrite Hrange in Hpay.
  rewrite (bind_ok _ _ _ _ _ Hpay). simpl_world.
  by rewrite <- app_assoc.
Qed.

(** No exception leaves an iteration of the menu loop, in either
    program: the outer [catch] takes them all. *)
Lemma file_menu_iteration_catches (inp : FileLog.Inputs) (w w' : FileLog.World)
  (e : exn) :
  FileLog.menu_iteration inp w <> Throw e w'.
Proof.
  unfold FileLog.menu_iteration, try_catch.
  match goal with |- context [match ?b w with _ => _ end] => destruct (b w) end;
    discriminate.
Qed.

Lemma memory_menu_iteration_catches (inp : MemoryLog.Inputs)
  (w w' : MemoryLog.World) (e : exn) :
  MemoryLog.menu_iteration inp w <> Throw e w'.
Proof.
  unfold MemoryLog.menu_iteration, try_catch.
  match goal with |- context [match ?b w with _ => _ end] => destruct (b w) end;
    discriminate.
Qed.

(** ** Orders and the cart share no object *)

Section Snapshot.

Import MemoryLog.

Implicit Types (s : Store) (copies : list loc) (values : list CartItem).

Lemma addProduct_keeps copies values s (p : Product) (q : Z) :
  kept_apart copies values s ->
  exists s', addProduct p q s = Ok tt s' /\ kept_apart copies values s'.
Proof.
  intros (Hwf & Hvals & Hlive & Hapart).
  destruct (addProduct_ok s p q Hwf)
    as (s' & Hrun & Hwf' & _ & Hframe & _ & Hitems).
  assert (forall l, l ∈ copies -> heap s' !! l = heap s !! l) as Hsame.
  { intros l Hl. apply Hframe; [by apply Hapart|].
    rewrite Forall_forall in Hlive. by apply Hlive. }
  exists s'. split; [exact Hrun|]. split; [exact Hwf'|]. split; [|split].
  - rewrite <- Hvals. by apply omap_lookup_agree.
  - rewrite Forall_forall in Hlive |- *. intros l Hl.
    rewrite Hsame by done. by apply Hlive.
  - intros l Hl Hin. destruct (Hitems l Hin) as [Hold|Hnew].
    + by apply (Hapart l).
    + apply Hnew, elem_of_dom. rewrite Forall_forall in Hlive. by apply Hlive.
Qed.

Lemma clearCart_keeps copies values s :
  kept_apart copies values s ->
  exists s', clearCart s = Ok tt s' /\ kept_apart copies values s'.
Proof.
  intros (Hwf & Hvals & Hlive & Hapart).
  destruct (clearCart_ok s Hwf) as (h' & Hrun & Hframe & _).
  eexists. split; [exact Hrun|]. split; [apply cleared_wf|]. cbn.
  split; [|split].
  - rewrite <- Hvals. apply omap_lookup_agree. intros l Hl.
    by apply Hframe, Hapart.
  - rewrite Forall_forall in Hlive |- *. intros l Hl.
    rewrite Hframe; [by apply Hlive|by apply Hapart].
  - intros l _ Hin. by apply elem_of_nil in Hin.
Qed.

Lemma run_cart_ops_keeps copies values (ops : list cart_op) : forall s,
  kept_apart copies values s ->
  exists s', run_cart_ops ops s = Ok tt s' /\ kept_apart copies values s'.
Proof.
  induction ops as [|op ops IH]; intros s Hkept.
  - exists s. by split.
  - assert (exists s1, run_cart_op op s = Ok tt s1 /\ kept_apart copies values s1)
      as (s1 & Hrun1 & Hkept1).
    { destruct op; [by apply addProduct_keeps|by apply clearCart_keeps]. }
    destruct (IH s1 Hkept1) as (s' & Hrun & Hkept').
    exists s'. split; [|done]. cbn. by rewrite (bind_ok _ _ _ _ _ Hrun1).
Qed.

Lemma display_kept (o : Order) values s :
  kept_apart (order_items o) values s ->
  display o s =
  Ok (mkOrderView (orderId o) (paymentMethod o) values (totalAmount o)) s.
Proof.
  intros (_ & Hvals & Hlive & _). unfold display.
  rewrite (bind_ok _ _ _ _ _ (read_items_ok _ s Hlive)). by rewrite Hvals.
Qed.

(** A checkout that returns had a strategy and a free slot. *)
Lemma memory_checkout_inv (w w' : World) (paymentChoice : Z) :
  cart_wf (store w) ->
  cart_lines (store w) <> [] ->
  checkout paymentChoice w = Ok tt w' ->
  is_Some (select_strategy paymentChoice) /\
  0 <= orderCount w < ORDERS_SIZE.
Proof.
  intros Hwf Hne Hrun.
  destruct (select_strategy paymentChoice) as [st|] eqn:Hsel.
  - split; [by eexists|].
    destruct (decide (0 <= orderCount w < ORDERS_SIZE)) as [|Hfull]; [done|].
    by rewrite (memory_checkout_full w paymentChoice st) in Hrun.
  - by rewrite memory_checkout_null in Hrun.
Qed.

End Snapshot.

(** C9: the order built by a checkout holds copies of the cart's lines.
    After the checkout the order is the last entry of the order log, its
    total is the total of the cart at that moment, and whatever is done
    to the cart afterwards (adding products, clearing it), displaying
    the order shows the lines, with their quantities, and the total as
    they were at the checkout. *)
Theorem order_keeps_its_snapshot (w w' : MemoryLog.World)
  (paymentChoice : Z) (ops : list cart_op)
  (Hwf : MemoryLog.world_wf w)
  (Hne : cart_lines (MemoryLog.store w) <> [])
  (Hrun : MemoryLog.checkout paymentChoice w = Ok tt w') :
  exists (o : MemoryLog.Order) (s'' : Store),
    MemoryLog.order_log w' = MemoryLog.order_log w ++ [Some o] /\
    MemoryLog.totalAmount o = sum_lines (cart_lines (MemoryLog.store w)) /\
    run_cart_ops ops (MemoryLog.store w') = Ok tt s'' /\
    MemoryLog.display o s'' =
      Ok (MemoryLog.mkOrderView (MemoryLog.orderId o)
            (MemoryLog.paymentMethod o)
            (cart_lines (MemoryLog.store w))
            (MemoryLog.totalAmount o)) s''.
Proof.
  destruct Hwf as [Hwf Hlen].
  destruct (memory_checkout_inv w w' paymentChoice Hwf Hne Hrun)
    as [[st Hsel] Hroom].
  destruct (memory_checkout_ok w paymentChoice st Hwf Hne Hsel Hroom)
    as (copies & h' & Hrun' & Hvals & Hlive & _).
  rewrite Hrun in Hrun'. injection Hrun' as ->.
  set (o := MemoryLog.mkOrder (MemoryLog.nextOrderId w) (getMethodName st)
              copies (sum_lines (cart_lines (MemoryLog.store w)))).
  assert (kept_apart (MemoryLog.order_items o)
            (cart_lines (MemoryLog.store w))
            (mkStore h' (mkCart [] (capacity (cart (MemoryLog.store w))))))
    as Hkept.
  { split; [apply cleared_wf|]. split; [exact Hvals|]. split; [exact Hlive|].
    intros l _ Hin. by apply elem_of_nil in Hin. }
  destruct (run_cart_ops_keeps _ _ ops _ Hkept) as (s'' & Hops & Hkept'').
  exists o, s''. split; [|split; [reflexivity|split; [exact Hops|]]].
  - unfold MemoryLog.order_log. simpl_world. by apply order_log_insert.
  - by apply display_kept.
Qed.

Lemma memory_world_wf : MemoryLog.world_wf memory_world.
Proof. split; [exact headphones_store_wf|reflexivity]. Qed.

Lemma order_keeps_its_snapshot_witness :
  exists (w' : MemoryLog.World) (o : MemoryLog.Order) (s'' : Store),
    MemoryLog.checkout 1 memory_world = Ok tt w' /\
    MemoryLog.order_log w' = [Some o] /\
    run_cart_ops [AddProduct Headphones 1; AddProduct Laptop 3; ClearCart;
                  AddProduct Headphones 7] (MemoryLog.store w') = Ok tt s'' /\
    MemoryLog.display o s'' =
      Ok (MemoryLog.mkOrderView (MemoryLog.orderId o)
            (MemoryLog.paymentMethod o) [mkCartItem Headphones 2]
            (MemoryLog.totalAmount o)) s''.
Proof.
  assert (0 <= MemoryLog.orderCount memory_world < MemoryLog.ORDERS_SIZE)
    as Hroom by (cbn; unfold MemoryLog.ORDERS_SIZE; lia).
  destruct (memory_checkout_ok memory_world 1 CashPayment headphones_store_wf
              headphones_store_not_empty eq_refl Hroom)
    as (copies & h' & Hrun & _).
  destruct (order_keeps_its_snapshot memory_world _ 1
              [AddProduct Headphones 1; AddProduct Laptop 3; ClearCart;
               AddProduct Headphones 7]
              memory_world_wf headphones_store_not_empty Hrun)
    as (o & s'' & Hlog & _ & Hops & Hshow).
  eexists _, o, s''. split; [exact Hrun|]. split; [exact Hlog|].
  split; [exact Hops|exact Hshow].
Defined.

(** ** The array of orders *)

Section OrderArray.

Import MemoryLog.

Lemma addProduct_not_empty (s s' : Store) (p : Product) (q : Z) :
  cart_wf s -> addProduct p q s = Ok tt s' ->
  cart_wf s' /\ cart_lines s' <> [].
Proof.
  intros Hwf Hrun.
  destruct (addProduct_ok s p q Hwf) as (s1 & Hrun1 & Hwf1 & Hlines & _).
  rewrite Hrun in Hrun1. injection Hrun1 as <-. split; [done|].
  rewrite Hlines.
  destruct (bump (getId p) q (cart_lines s)) as [lines|] eqn:Hb.
  - pose proof (bump_ids _ _ _ _ Hb) as Hids.
    destruct (cart_lines s); [discriminate Hb|].
    intros ->. discriminate Hids.
  - by destruct (cart_lines s).
Qed.

Lemma add_all_ok (ps : list (Product * Z)) : forall s,
  cart_wf s ->
  exists s',
    add_all ps s = Ok tt s' /\ cart_wf s' /\
    (ps <> [] \/ cart_lines s <> [] -> cart_lines s' <> []).
Proof.
  induction ps as [|[p q] ps IH]; intros s Hwf.
  - exists s. split; [done|]. split; [done|]. by intros [?|?].
  - destruct (addProduct_ok s p q Hwf) as (s1 & Hrun1 & _).
    destruct (addProduct_not_empty _ _ _ _ Hwf Hrun1) as [Hwf1 Hne1].
    destruct (IH s1 Hwf1) as (s' & Hrun & Hwf' & Hne').
    exists s'. cbn. rewrite (bind_ok _ _ _ _ _ Hrun1).
    split; [done|]. split; [done|]. intros _. apply Hne'. by right.
Qed.

(** A visit in a world that has room for one more order. *)
Lemma purchase_ok (w : World) (ps : list (Product * Z)) (choice : Z) :
  world_wf w ->
  valid_visit (ps, choice) ->
  0 <= orderCount w < ORDERS_SIZE ->
  exists w',
    purchase ps choice w = Ok tt w' /\
    world_wf w' /\
    orderCount w' = orderCount w + 1 /\
    nextOrderId w' = int_add (nextOrderId w) 1 /\
    order_ids w' = order_ids w ++ [Some (nextOrderId w)].
Proof.
  intros [Hwf Hlen] [Hps [st Hsel]] Hroom. cbn in Hps, Hsel.
  destruct (add_all_ok ps _ Hwf) as (s1 & Hadd & Hwf1 & Hne1).
  set (w1 := mkWorld s1 (orders w) (orderCount w) (nextOrderId w) (console w)).
  destruct (memory_checkout_ok w1 choice st Hwf1 (Hne1 (or_introl Hps)) Hsel Hroom)
    as (copies & h' & Hrun & _).
  eexists. unfold purchase.
  erewrite bind_ok by (apply memory_on_store_ok, Hadd).
  split; [exact Hrun|]. simpl_world. split; [|split; [|split]].
  - split; [apply cleared_wf|]. simpl_world. by rewrite length_insert.
  - apply int_add_one. unfold ORDERS_SIZE in Hroom. lia.
  - reflexivity.
  - unfold order_ids, order_log. simpl_world.
    rewrite order_log_insert by done. by rewrite map_app.
Qed.

(** A visit in a world whose array is full. *)
Lemma purchase_full (w : World) (ps : list (Product * Z)) (choice : Z) :
  world_wf w ->
  valid_visit (ps, choice) ->
  ORDERS_SIZE <= orderCount w ->
  purchase ps choice w = Undef OutOfBounds.
Proof.
  intros [Hwf Hlen] [Hps [st Hsel]] Hfull. cbn in Hps, Hsel.
  destruct (add_all_ok ps _ Hwf) as (s1 & Hadd & Hwf1 & Hne1).
  unfold purchase.
  erewrite bind_ok by (apply memory_on_store_ok, Hadd).
  apply (memory_checkout_full _ choice st); simpl_world;
    [done|by apply Hne1; left|done|lia].
Qed.

(** A run of visits from a world with [orderCount] orders, the next id
    being [orderCount + 1]: it goes through as long as the array has
    room, the new orders being numbered on from there, and it runs out
    of the array at the first checkout after that. *)
Lemma purchases_from (visits : list (list (Product * Z) * Z)) : forall w,
  world_wf w ->
  0 <= orderCount w <= ORDERS_SIZE ->
  nextOrderId w = orderCount w + 1 ->
  Forall valid_visit visits ->
  (orderCount w + Z.of_nat (length visits) <= ORDERS_SIZE ->
   exists w',
     purchases visits w = Ok tt w' /\
     orderCount w' = orderCount w + Z.of_nat (length visits) /\
     order_ids w' =
       order_ids w ++
       map (fun i => Some (orderCount w + Z.of_nat i))
           (seq 1 (length visits))) /\
  (ORDERS_SIZE < orderCount w + Z.of_nat (length visits) ->
   purchases visits w = Undef OutOfBounds).
Proof.
  induction visits as [|[ps choice] visits IH];
    intros w Hwf Hcount Hnext Hvalid.
  - split; [|cbn; lia].
    intros _. exists w. split; [done|]. split; [cbn; lia|].
    cbn. by rewrite app_nil_r.
  - apply Forall_cons in Hvalid as [Hvisit Hvalid].
    cbn [purchases length].
    destruct (decide (orderCount w < ORDERS_SIZE)) as [Hroom|Hfull].
    + destruct (purchase_ok w ps choice Hwf Hvisit)
        as (w1 & Hrun1 & Hwf1 & Hcount1 & Hnext1 & Hids1); [lia|].
      rewrite (bind_ok _ _ _ _ _ Hrun1).
      assert (nextOrderId w1 = orderCount w1 + 1) as Hnext1'.
      { rewrite Hnext1, Hnext, Hcount1. apply int_add_one.
        unfold ORDERS_SIZE in *. lia. }
      destruct (IH w1 Hwf1) as [IHok IHfull]; [lia|done|done|].
      split.
      * intros Hfit. destruct IHok as (w' & Hrun & Hcount' & Hids'); [lia|].
        exists w'. split; [done|]. split; [lia|].
        rewrite Hids', Hids1, Hnext, <- app_assoc. f_equal. cbn [seq map app].
        f_equal. rewrite <- (seq_shift _ 1), map_map.
        apply map_ext. intros i. f_equal. lia.
      * intros Hover. apply IHfull. lia.
    + split; [lia|]. intros _. apply bind_undef.
      apply purchase_full; [done|done|lia].
Qed.

End OrderArray.

Lemma initial_world_wf : MemoryLog.world_wf MemoryLog.initial_world.
Proof. split; [exact initial_store_wf|reflexivity]. Qed.

(** C10: the orders are kept in an array of 100 slots that the checkout
    writes without a check.  From the start of the program, a run of at
    most 100 visits that each end in a checkout goes through, stores as
    many orders and numbers them 1, 2, ... in the order of the
    checkouts; in a run of more than 100 visits the 101st checkout
    writes outside the array. *)
Theorem order_array_capacity (visits : list (list (Product * Z) * Z))
  (Hvalid : Forall MemoryLog.valid_visit visits) :
  (Z.of_nat (length visits) <= MemoryLog.ORDERS_SIZE ->
   exists w : MemoryLog.World,
     MemoryLog.purchases visits MemoryLog.initial_world = Ok tt w /\
     MemoryLog.orderCount w = Z.of_nat (length visits) /\
     MemoryLog.order_ids w =
       map (fun i => Some (Z.of_nat i)) (seq 1 (length visits))) /\
  (MemoryLog.ORDERS_SIZE < Z.of_nat (length visits) ->
   MemoryLog.purchases visits MemoryLog.initial_world = Undef OutOfBounds).
Proof.
  destruct (purchases_from visits MemoryLog.initial_world initial_world_wf)
    as [Hok Hfull]; [cbn; unfold MemoryLog.ORDERS_SIZE; lia|done|done|].
  exact (conj Hok Hfull).
Qed.

Lemma order_array_capacity_witness :
  (exists w : MemoryLog.World,
     MemoryLog.purchases [([(Headphones, 1)], 1); ([(Laptop, 1)], 2)]
       MemoryLog.initial_world = Ok tt w /\
     MemoryLog.orderCount w = 2 /\
     MemoryLog.order_ids w = [Some 1; Some 2]) /\
  MemoryLog.purchases (replicate 101 ([(Headphones, 1)], 1))
    MemoryLog.initial_world = Undef OutOfBounds.
Proof.
  assert (forall (p : Product) (c : Z),
            is_Some (select_strategy c) ->
            MemoryLog.valid_visit ([(p, 1)], c)) as Hvisit.
  { intros p c Hc. split; [discriminate|exact Hc]. }
  split.
  - destruct (order_array_capacity
                [([(Headphones, 1)], 1); ([(Laptop, 1)], 2)]) as [Hok _].
    + repeat constructor; apply Hvisit; by eexists.
    + apply Hok. cbn. unfold MemoryLog.ORDERS_SIZE. lia.
  - destruct (order_array_capacity (replicate 101 ([(Headphones, 1)], 1)))
      as [_ Hfull].
    + apply Forall_replicate, Hvisit. by eexists.
    + apply Hfull. rewrite length_replicate. unfold MemoryLog.ORDERS_SIZE. lia.
Defined.

(** ** Reading the log file back *)

(** C6, counterexample: two checkouts in [1.cpp], then "view
    orders".  The log holds two blocks, oldest first, and
    [viewOrders] shows the first only: after the rows of a block it has
    read the total line as a row and the blank line as the end of the
    rows, so the line it then takes for the total is the header of the
    next block, which is thereby skipped. *)
Theorem second_order_not_shown :
  exists (w2 w3 : FileLog.World) (log : string)
         (blocks : list FileLog.OrderBlock),
    (FileLog.checkout 1 1700000000 ;;
     FileLog.on_store (addProduct Laptop 1) ;;
     FileLog.checkout 2 1700000060) (file_world None true) = Ok tt w2 /\
    FileLog.orders_log (FileLog.fs w2) = Some log /\
    log =
      (FileLog.log_block "ORD1700000000" "Cash"
         (FileLog.contents_of [mkCartItem Headphones 2])
         (sum_lines [mkCartItem Headphones 2]) ++
       FileLog.log_block "ORD1700000060" "Credit/Debit Card"
         (FileLog.contents_of [mkCartItem Laptop 1])
         (sum_lines [mkCartItem Laptop 1]))%string /\
    FileLog.viewOrders w2 = Ok blocks w3 /\
    map FileLog.block_orderId blocks = ["ORD1700000000"%string].
Proof.
  eexists _, _, _, _. split; [vm_compute; reflexivity|].
  split; [reflexivity|]. split; [vm_compute; reflexivity|].
  split; [vm_compute; reflexivity|]. reflexivity.
Qed.

(** C7, counterexample: one order is written by [1.cpp] and read
    back.  Order id, payment method and the fields of the line
    come back as written; the total does not, although the block ends
    with the line [Total Amount: $199.98]. *)
Theorem total_not_read_back :
  exists (w1 w2 : FileLog.World) (log : string),
    FileLog.checkout 1 1700000000 (file_world None true) = Ok tt w1 /\
    FileLog.orders_log (FileLog.fs w1) = Some log /\
    log =
      ("[LOG] -> Order ID: ORD1700000000 has been successfully checked out and paid using Cash." ++ FileLog.nl ++
       "3" ++ FileLog.tb ++ "Headphones" ++ FileLog.tb ++ "99.990000" ++
       FileLog.tb ++ "2" ++ FileLog.nl ++
       "Total Amount: $199.98" ++ FileLog.nl ++ FileLog.nl)%string /\
    FileLog.viewOrders w1 =
      Ok [FileLog.mkOrderBlock "ORD1700000000" "Cash"
            [FileLog.mkLogRow "3" "Headphones" "99.990000" "2"] None] w2.
Proof.
  eexists _, _, _. split; [vm_compute; reflexivity|].
  split; [reflexivity|]. split; [vm_compute; reflexivity|].
  vm_compute. reflexivity.
Qed.

(** ** Facts about strings and [find] *)

Section StringFacts.

Local Open Scope N_scope.
Local Arguments String.append : simpl nomatch.

Implicit Types (needle hay pre rest line : string) (c : ascii) (i pos : N).

Lemma size_String c rest : size (String c rest) = N.succ (size rest).
Proof. unfold size. cbn [String.length]. apply Nat2N.inj_succ. Qed.

Lemma size_append pre rest : size (pre ++ rest) = size pre + size rest.
Proof.
  induction pre as [|c pre IH]; [by rewrite N.add_0_l|].
  cbn [String.append]. rewrite !size_String, IH. lia.
Qed.

Lemma append_assoc (a b d : string) : ((a ++ b) ++ d = a ++ (b ++ d))%string.
Proof. induction a as [|c a IH]; [done|]. cbn. by rewrite IH. Qed.

Lemma append_empty_r (a : string) : (a ++ "" = a)%string.
Proof. induction a as [|c a IH]; [done|]. cbn. by rewrite IH. Qed.

Lemma prefix_size needle hay :
  String.prefix needle hay = true -> size needle <= size hay.
Proof.
  revert needle. induction hay as [|c hay IH]; intros [|d needle]; cbn;
    try done; try (intros _; unfold size; cbn; lia).
  destruct (ascii_dec d c); [|done]. intros H. apply IH in H.
  rewrite !size_String. lia.
Qed.

Lemma prefix_append needle rest : String.prefix needle (needle ++ rest) = true.
Proof.
  induction needle as [|c needle IH]; [by destruct rest|].
  cbn. by destruct (ascii_dec c c).
Qed.

(** A match is found where [find_at] stands, or the search moves on. *)
Lemma find_at_here needle hay i pos :
  pos <= i -> String.prefix needle hay = true ->
  find_at needle hay i pos = i.
Proof.
  intros Hpos Hpre. destruct hay; cbn [find_at];
    by rewrite (proj2 (N.leb_le _ _) Hpos), Hpre.
Qed.

Lemma find_at_next needle c hay i pos :
  (pos <=? i) && String.prefix needle (String c hay) = false ->
  find_at needle (String c hay) i pos = find_at needle hay (N.succ i) pos.
Proof. intros H. cbn [find_at]. by rewrite H. Qed.

(** An index returned by the search is the start of a match inside the
    text, not before [pos]. *)
Lemma find_at_bound needle hay : forall i pos,
  find_at needle hay i pos <> npos ->
  i <= find_at needle hay i pos /\
  pos <= find_at needle hay i pos /\
  find_at needle hay i pos + size needle <= i + size hay /\
  String.prefix needle
    (drop_chars (find_at needle hay i pos - i) hay) = true.
Proof.
  induction hay as [|c hay IH]; intros i pos; cbn [find_at].
  - destruct ((pos <=? i) && String.prefix needle "") eqn:Hc; [|done].
    apply andb_true_iff in Hc as [Hpos Hpre]. apply N.leb_le in Hpos.
    intros _. pose proof (prefix_size _ _ Hpre). rewrite N.sub_diag.
    repeat split; [lia|lia|lia|done].
  - destruct ((pos <=? i) && String.prefix needle (String c hay)) eqn:Hc.
    + apply andb_true_iff in Hc as [Hpos Hpre]. apply N.leb_le in Hpos.
      intros _. pose proof (prefix_size _ _ Hpre). rewrite N.sub_diag.
      repeat split; [lia|lia|lia|done].
    + intros Hr. destruct (IH _ _ Hr) as (Hi & Hp & Hs & Hpre).
      rewrite size_String. repeat split; [lia|lia|lia|].
      cbn [drop_chars].
      destruct (N.eqb_spec (find_at needle hay (N.succ i) pos - i) 0); [lia|].
      replace (N.pred (find_at needle hay (N.succ i) pos - i))
        with (find_at needle hay (N.succ i) pos - N.succ i) by lia.
      exact Hpre.
Qed.

(** The search does not miss a match: one at offset [k] bounds the
    result. *)
Lemma find_at_finds needle hay : forall i pos (k : N),
  pos <= i + k ->
  String.prefix needle (drop_chars k hay) = true ->
  k <= size hay ->
  find_at needle hay i pos <= i + k.
Proof.
  induction hay as [|c hay IH]; intros i pos k Hpos Hpre Hk.
  - unfold size in Hk. cbn in Hk. assert (k = 0) as -> by lia.
    cbn [drop_chars] in Hpre. cbn [find_at].
    rewrite N.add_0_r in Hpos. rewrite (proj2 (N.leb_le _ _) Hpos), Hpre.
    cbn. lia.
  - cbn [find_at].
    destruct ((pos <=? i) && String.prefix needle (String c hay)) eqn:Hc; [lia|].
    cbn [drop_chars] in Hpre. destruct (N.eqb_spec k 0) as [->|Hk0].
    + rewrite N.add_0_r in Hpos.
      by rewrite (proj2 (N.leb_le _ _) Hpos), Hpre in Hc.
    + rewrite size_String in Hk.
      assert (find_at needle hay (N.succ i) pos <= N.succ i + N.pred k);
        [apply IH; [lia|done|lia]|lia].
Qed.

(** A stretch of text without the first character of the needle is
    passed over. *)
Lemma find_at_skip c needle pre rest : forall i pos,
  has_char c pre = false ->
  find_at (String c needle) (pre ++ rest) i pos =
  find_at (String c needle) rest (i + size pre) pos.
Proof.
  induction pre as [|d pre IH]; intros i pos Hno.
  - cbn. f_equal. unfold size. cbn. lia.
  - cbn in Hno. apply orb_false_iff in Hno as [Hd Hno].
    cbn [String.append]. rewrite find_at_next.
    + rewrite IH by done. f_equal. rewrite size_String. lia.
    + apply andb_false_iff. right. cbn.
      destruct (ascii_dec c d) as [->|]; [|done].
      by rewrite Ascii.eqb_refl in Hd.
Qed.

(** So is a stretch of text that lies before [pos]. *)
Lemma find_at_from needle pre rest : forall i pos,
  i + size pre <= pos ->
  find_at needle (pre ++ rest) i pos =
  find_at needle rest (i + size pre) pos.
Proof.
  induction pre as [|d pre IH]; intros i pos Hpos.
  - cbn. f_equal. unfold size. cbn. lia.
  - rewrite size_String in Hpos. cbn [String.append]. rewrite find_at_next.
    + rewrite IH by lia. f_equal. rewrite size_String. lia.
    + apply andb_false_iff. left. apply N.leb_gt. lia.
Qed.

Lemma drop_chars_append pre rest : drop_chars (size pre) (pre ++ rest) = rest.
Proof.
  induction pre as [|c pre IH]; [by destruct rest|].
  cbn [String.append drop_chars]. rewrite size_String.
  destruct (N.eqb_spec (N.succ (size pre)) 0); [lia|].
  by rewrite N.pred_succ.
Qed.

Lemma take_chars_append pre rest : take_chars (size pre) (pre ++ rest) = pre.
Proof.
  induction pre as [|c pre IH]; [by destruct rest|].
  cbn [String.append take_chars]. rewrite size_String.
  destruct (N.eqb_spec (N.succ (size pre)) 0); [lia|].
  by rewrite N.pred_succ, IH.
Qed.

Lemma take_chars_all (n : N) (s : string) : size s <= n -> take_chars n s = s.
Proof.
  revert n. induction s as [|c s IH]; intros n Hn; [done|].
  rewrite size_String in Hn. cbn [take_chars].
  destruct (N.eqb_spec n 0); [lia|]. rewrite IH; [done|lia].
Qed.

Lemma substr_in_range (s : string) (p len : N) :
  p <= size s -> substr s p len = Some (take_chars len (drop_chars p s)).
Proof.
  intros Hp. unfold substr.
  by rewrite (proj2 (N.ltb_ge _ _) Hp).
Qed.

(** [getline] takes a line that has no newline in it. *)
Lemma read_line_append line rest :
  has_char newline line = false ->
  read_line (line ++ String newline rest) = (line, rest).
Proof.
  induction line as [|c line IH]; intros Hno; [reflexivity|].
  cbn in Hno. apply orb_false_iff in Hno as [Hc Hno].
  cbn [String.append read_line]. by rewrite Hc, IH.
Qed.

Lemma getline_append line rest :
  has_char newline line = false ->
  getline (line ++ String newline rest) = Some (line, rest).
Proof.
  intros Hno. unfold getline.
  destruct (line ++ String newline rest)%string eqn:E.
  - by destruct line.
  - rewrite <- E. by rewrite read_line_append.
Qed.

Lemma has_char_append c (a b : string) :
  has_char c (a ++ b) = has_char c a || has_char c b.
Proof.
  induction a as [|d a IH]; [done|]. cbn. by rewrite IH, orb_assoc.
Qed.

End StringFacts.

(** ** [viewOrders] on an arbitrary log file *)

Section ViewOrdersFacts.

Import FileLog.
Local Open Scope N_scope.
Local Arguments String.append : simpl nomatch.

Implicit Types (line rest stream : string).

Lemma read_line_sizes stream :
  size (fst (read_line stream)) + size (snd (read_line stream)) <= size stream.
Proof.
  induction stream as [|c stream IH]; [done|].
  cbn [read_line]. destruct (Ascii.eqb c newline).
  - cbn [fst snd]. rewrite size_String. change (size "") with 0. lia.
  - destruct (read_line stream) as [l r]. cbn [fst snd] in *.
    rewrite !size_String. lia.
Qed.

Lemma getline_sizes stream line rest :
  getline stream = Some (line, rest) ->
  size line + size rest <= size stream.
Proof.
  destruct stream as [|c stream]; [discriminate|]. unfold getline.
  intros H. pose proof (read_line_sizes (String c stream)) as Hs.
  destruct (read_line (String c stream)) as [l r]. by injection H as -> ->.
Qed.

Lemma drop_chars_add (a b : N) (s : string) :
  drop_chars (a + b) s = drop_chars b (drop_chars a s).
Proof.
  revert a. induction s as [|c s IH]; intros a; [by destruct (b =? 0)|].
  cbn [drop_chars]. destruct (N.eqb_spec a 0) as [->|Ha].
  - by rewrite N.add_0_l.
  - destruct (N.eqb_spec (a + b) 0); [lia|].
    replace (N.pred (a + b)) with (N.pred a + b) by lia. apply IH.
Qed.

Lemma prefix_drop (a b s : string) :
  String.prefix (a ++ b) s = true ->
  String.prefix b (drop_chars (size a) s) = true.
Proof.
  revert s. induction a as [|c a IH]; intros s.
  - cbn [String.append]. by destruct s.
  - cbn [String.append]. destruct s as [|d s]; [done|]. cbn [String.prefix].
    destruct (ascii_dec c d); [|done]. intros H. apply IH in H.
    rewrite size_String. cbn [drop_chars].
    destruct (N.eqb_spec (N.succ (size a)) 0); [lia|].
    by rewrite N.pred_succ.
Qed.

Lemma size_add_small (a b : N) : a + b < 2 ^ 64 -> size_add a b = a + b.
Proof. intros H. unfold size_add. by apply N.mod_small. Qed.

(** A header line is long enough for the positions that [viewOrders]
    computes in it: neither [substr] throws. *)
Lemma parse_header_some line :
  fits line -> is_header line = true ->
  exists r, parse_header line = Some r.
Proof.
  unfold fits, is_header. intros Hfit Hhead.
  apply negb_true_iff, N.eqb_neq in Hhead.
  destruct (find_at_bound _ _ _ _ Hhead) as (_ & _ & Hend & Hpre).
  fold (find line header_marker 0) in Hend, Hpre.
  set (j := find line header_marker 0) in *.
  change (size header_marker) with 19 in Hend. rewrite N.sub_0_r in Hpre.
  assert (find line "Order ID: " 0 <= j + 9) as Hid.
  { unfold find. rewrite <- (N.add_0_l (j + 9)).
    apply find_at_finds; [lia| |lia].
    rewrite drop_chars_add.
    by apply (prefix_drop "[LOG] -> " "Order ID: "). }
  assert (find line "Order ID: " 0 <> npos) as Hid'
    by (unfold npos; change (2 ^ 64 - 1) with 18446744073709551615; lia).
  destruct (find_at_bound _ _ _ _ Hid') as (_ & _ & Hidend & _).
  fold (find line "Order ID: " 0) in Hidend.
  change (size "Order ID: ") with 10 in Hidend.
  unfold parse_header.
  rewrite substr_in_range by (rewrite size_add_small; lia).
  assert (size_add (find line "using " 0) 6 <= size line) as Hm.
  { destruct (N.eq_dec (find line "using " 0) npos) as [->|Hu].
    - change (size_add npos 6) with 5. lia.
    - destruct (find_at_bound _ _ _ _ Hu) as (_ & _ & Huend & _).
      fold (find line "using " 0) in Huend.
      change (size "using ") with 6 in Huend.
      rewrite size_add_small; lia. }
  rewrite substr_in_range by done. by eexists.
Qed.

(** The split of a product line never throws either. *)
Lemma parse_row_some line : fits line -> exists r, parse_row line = Some r.
Proof.
  unfold fits. intros Hfit. unfold parse_row.
  set (tab1 := find_char line tab 0).
  set (tab2 := find_char line tab (size_add tab1 1)).
  set (tab3 := find_char line tab (size_add tab2 1)).
  destruct (N.eqb_spec tab1 npos) as [|H1]; [by eexists|].
  destruct (N.eqb_spec tab2 npos) as [|H2]; [by eexists|].
  destruct (N.eqb_spec tab3 npos) as [|H3]; [by eexists|].
  cbn [negb andb].
  destruct (find_at_bound _ _ _ _ H1) as (_ & _ & He1 & _).
  destruct (find_at_bound _ _ _ _ H2) as (_ & _ & He2 & _).
  destruct (find_at_bound _ _ _ _ H3) as (_ & _ & He3 & _).
  fold (find line (String tab "") 0) in He1.
  fold (find line (String tab "") (size_add tab1 1)) in He2.
  fold (find line (String tab "") (size_add tab2 1)) in He3.
  fold (find_char line tab 0) in He1.
  fold (find_char line tab (size_add tab1 1)) in He2.
  fold (find_char line tab (size_add tab2 1)) in He3.
  fold tab1 in He1. fold tab2 in He2. fold tab3 in He3.
  change (size (String tab "")) with 1 in He1, He2, He3.
  rewrite !substr_in_range by (try rewrite size_add_small; lia).
  by eexists.
Qed.

Lemma file_lines_step stream :
  file_lines stream =
  match getline stream with
  | None => []
  | Some (line, rest) => line :: file_lines rest
  end.
Proof.
  funelim (file_lines stream);
    match goal with H : getline _ = _ |- _ => by rewrite H end.
Qed.

Lemma read_rows_step stream :
  read_rows stream =
  match getline stream with
  | None => Some ([], stream)
  | Some (line, rest) =>
      if empty line then Some ([], rest)
      else match parse_row line, read_rows rest with
           | Some row, Some (rows, rest') => Some ((row ++ rows)%list, rest')
           | _, _ => None
           end
  end.
Proof.
  funelim (read_rows stream);
    match goal with H : getline _ = _ |- _ => by rewrite H end.
Qed.

Lemma view_loop_step stream (hasOrders : bool) :
  view_loop stream hasOrders =
  match getline stream with
  | None => Some (hasOrders, [])
  | Some (line, rest) =>
      if is_header line then
        match parse_header line with
        | None => None
        | Some (orderId, paymentMethod) =>
            match read_rows rest with
            | None => None
            | Some (rows, rest1) =>
                match view_loop (snd (read_total rest1)) true with
                | None => None
                | Some (_, blocks) =>
                    Some (true,
                          mkOrderBlock orderId paymentMethod rows
                            (fst (read_total rest1)) :: blocks)
                end
            end
        end
      else view_loop rest hasOrders
  end.
Proof.
  funelim (view_loop stream hasOrders).
  all: match goal with H : getline _ = _ |- _ => rewrite H end.
  all: unfold is_header.
  all: try match goal with
           | H : (find _ _ _ =? npos) = _ |- _ => rewrite H
           end.
  all: try match goal with H : parse_header _ = _ |- _ => rewrite H end.
  all: try match goal with H : read_rows _ = _ |- _ => rewrite H end.
  all: try match goal with H : view_loop _ _ = None |- _ => rewrite H end.
  all: try match goal with H : view_loop _ _ = Some _ |- _ => rewrite H end.
  all: reflexivity.
Qed.

Lemma stream_ind (P : string -> Prop) :
  (forall stream,
     (forall rest, (String.length rest < String.length stream)%nat -> P rest) ->
     P stream) ->
  forall stream, P stream.
Proof.
  intros Hstep stream. remember (String.length stream) as n eqn:Hn.
  revert stream Hn. induction n as [n IH] using lt_wf_ind.
  intros stream ->. apply Hstep. intros rest Hlt. by apply (IH _ Hlt).
Qed.

Lemma fits_shorter (a b : string) :
  (String.length a <= String.length b)%nat -> fits b -> fits a.
Proof. unfold fits, size. lia. Qed.

Lemma getline_fits stream line rest :
  getline stream = Some (line, rest) -> fits stream ->
  fits line /\ fits rest.
Proof.
  intros Hget Hfit. apply getline_sizes in Hget. unfold fits in *. lia.
Qed.

(** The row loop comes to an end without throwing. *)
Lemma read_rows_some : forall stream,
  fits stream -> exists rows rest, read_rows stream = Some (rows, rest).
Proof.
  induction stream as [stream IH] using stream_ind. intros Hfit.
  rewrite read_rows_step.
  destruct (getline stream) as [[line rest]|] eqn:Hget; [|by eexists _, _].
  destruct (getline_fits _ _ _ Hget Hfit) as [Hline Hrest].
  destruct (empty line); [by eexists _, _|].
  destruct (parse_row_some line Hline) as [row ->].
  destruct (IH rest (getline_shorter _ _ _ Hget) Hrest) as (rows & rest' & ->).
  by eexists _, _.
Qed.

Lemma has_header_step stream :
  has_header stream =
  match getline stream with
  | None => false
  | Some (line, rest) => is_header line || has_header rest
  end.
Proof.
  unfold has_header. rewrite file_lines_step.
  by destruct (getline stream) as [[line rest]|].
Qed.

(** The outer loop comes to an end without throwing, and [hasOrders] is
    set exactly when some line of the text is a header. *)
Lemma view_loop_total : forall stream (hasOrders : bool),
  fits stream ->
  exists blocks,
    view_loop stream hasOrders =
    Some (hasOrders || has_header stream, blocks).
Proof.
  induction stream as [stream IH] using stream_ind. intros hasOrders Hfit.
  rewrite view_loop_step, has_header_step.
  destruct (getline stream) as [[line rest]|] eqn:Hget;
    [|exists []; by rewrite orb_false_r].
  destruct (getline_fits _ _ _ Hget Hfit) as [Hline Hrest].
  pose proof (getline_shorter _ _ _ Hget) as Hshort.
  destruct (is_header line) eqn:Hhead.
  - destruct (parse_header_some line Hline Hhead) as [[orderId method] ->].
    destruct (read_rows_some rest Hrest) as (rows & rest1 & Hrows).
    rewrite Hrows. apply read_rows_shorter in Hrows.
    pose proof (read_total_shorter rest1) as Htotal.
    destruct (IH (snd (read_total rest1))) with (hasOrders := true)
      as [blocks ->]; [lia|apply (fits_shorter _ rest); [lia|done]|].
    eexists. by rewrite orb_true_r.
  - apply IH; done.
Qed.

(** "View orders" in [1.cpp]: with no log file, or a log without a
    header line, it ends with [NoOrdersException]; with a header line in
    the log it returns the blocks it has shown. *)
Lemma file_viewOrders_spec (w : World) :
  match orders_log (fs w) with
  | None => viewOrders w = Throw NoOrdersException w
  | Some content =>
      fits content ->
      exists blocks,
        view_loop content false = Some (has_header content, blocks) /\
        viewOrders w =
          (if has_header content
           then Ok blocks
           else Throw NoOrdersException)
            (mkWorld (store w) (fs w) (console w ++ [History blocks]))
  end.
Proof.
  unfold viewOrders, bind, get.
  destruct (orders_log (fs w)) as [content|] eqn:Hlog; [|done].
  intros Hfit. destruct (view_loop_total content false Hfit) as [blocks Hloop].
  cbn [orb] in Hloop. exists blocks. split; [done|]. rewrite Hloop.
  unfold print. by destruct (has_header content).
Qed.

Lemma file_viewOrders_NoOrders_iff (w : World) :
  match orders_log (fs w) with
  | Some content => fits content
  | None => True
  end ->
  (exists w', viewOrders w = Throw NoOrdersException w') <-> no_orders (fs w).
Proof.
  intros Hfit. pose proof (file_viewOrders_spec w) as Hspec. unfold no_orders.
  destruct (orders_log (fs w)) as [content|]; [|split; [done|by eexists]].
  destruct (Hspec Hfit) as (blocks & _ & ->).
  destruct (has_header content); split; try done.
  - by intros [w' ?].
  - by eexists.
Qed.

End ViewOrdersFacts.

(** ** "View orders" with the orders in memory *)

Section MemoryView.

Import MemoryLog.

Implicit Types (w : World) (s : Store) (o : Order) (v : OrderView).

Lemma read_items_cases (ls : list loc) s :
  read_items ls s = Ok (omap (fun l => heap s !! l) ls) s \/
  exists u, read_items ls s = Undef u.
Proof.
  induction ls as [|l ls IH]; [by left|].
  cbn [read_items omap].
  destruct (heap s !! l) as [it|] eqn:Hl.
  - assert (deref l s = Ok it s) as Hd by (unfold deref; by rewrite Hl).
    rewrite (bind_ok _ _ _ _ _ Hd). destruct IH as [IH|[u IH]].
    + left. rewrite (bind_ok _ _ _ _ _ IH). cbn. by rewrite Hl.
    + right. exists u. by rewrite (bind_undef _ _ _ _ IH).
  - right. exists DanglingPointer. apply bind_undef. unfold deref. by rewrite Hl.
Qed.

Lemma display_orders_no_throw (indices : list nat) w w' (e : exn) :
  display_orders indices w <> Throw e w'.
Proof.
  revert w. induction indices as [|i indices IH]; intros w; [done|].
  cbn [display_orders]. unfold bind at 1, get.
  destruct (orders w !! i) as [[o|]|]; [|done|done].
  unfold bind at 1, on_store, zoom, display.
  destruct (read_items_cases (order_items o) (store w)) as [Hr|[u Hr]].
  - rewrite (bind_ok _ _ _ _ _ Hr). unfold ret at 1.
    unfold bind.
    match goal with |- context [display_orders indices ?w1] =>
      specialize (IH w1); destruct (display_orders indices w1) end;
      [done|by intros [= -> ->]|done].
  - by rewrite (bind_undef _ _ _ _ Hr).
Qed.

(** "View orders" in [tempCodeRunnerFile.cpp] ends with
    [NoOrdersException] exactly when no order is stored. *)
Lemma memory_viewOrders_NoOrders_iff w :
  (exists w', viewOrders w = Throw NoOrdersException w') <-> orderCount w = 0.
Proof.
  unfold viewOrders, bind at 1, get.
  destruct (Z.eqb_spec (orderCount w) 0) as [Hz|Hnz].
  - split; [done|]. intros _. by eexists.
  - split; [|done]. intros [w' Hthrow]. exfalso.
    unfold bind in Hthrow.
    destruct (display_orders (seq 0 (Z.to_nat (orderCount w))) w)
      as [views w1|e w1|u] eqn:Hd; [done| |done].
    by apply display_orders_no_throw in Hd.
Qed.




End MemoryView.

(** ** The order history of a whole run, orders in memory *)

Section MemoryHistory.

Import MemoryLog.

Implicit Types (w : World) (s : Store).

Lemma add_all_lines (ps : list (Product * Z)) : forall s,
  cart_wf s ->
  exists s',
    add_all ps s = Ok tt s' /\ cart_wf s' /\
    cart_lines s' =
      fold_left (fun lines pq => add_line (fst pq) (snd pq) lines) ps
                (cart_lines s) /\
    (forall copies values, kept_apart copies values s ->
                           kept_apart copies values s').
Proof.
  induction ps as [|[p q] ps IH]; intros s Hwf.
  - exists s. split; [done|]. split; [done|]. split; [done|]. by intros.
  - destruct (addProduct_ok s p q Hwf) as (s1 & Hrun1 & Hwf1 & Hlines1 & _).
    destruct (IH s1 Hwf1) as (s' & Hrun & Hwf' & Hlines & Hkeep).
    exists s'. cbn [add_all]. rewrite (bind_ok _ _ _ _ _ Hrun1).
    split; [done|]. split; [done|]. split.
    + rewrite Hlines, Hlines1. reflexivity.
    + intros copies values Hkept. apply Hkeep.
      destruct (addProduct_keeps copies values s p q Hkept) as (s2 & Hrun2 & H2).
      rewrite Hrun1 in Hrun2. by injection Hrun2 as <-.
Qed.




End MemoryHistory.

(** ** The characters of printed numbers *)

Section NumberChars.

Local Arguments String.append : simpl nomatch.

Implicit Types (P Q : ascii -> bool) (c : ascii) (s : string).

Lemma all_chars_append P (a b : string) :
  all_chars P (a ++ b) = all_chars P a && all_chars P b.
Proof.
  induction a as [|c a IH]; [done|]. cbn. by rewrite IH, andb_assoc.
Qed.

Lemma all_chars_impl P Q s :
  (forall c, P c = true -> Q c = true) ->
  all_chars P s = true -> all_chars Q s = true.
Proof.
  intros HPQ. induction s as [|c s IH]; [done|]. cbn.
  intros [Hc Hs]%andb_true_iff. by rewrite (HPQ _ Hc), IH.
Qed.

Lemma all_chars_has_char P c s :
  all_chars P s = true -> P c = false -> has_char c s = false.
Proof.
  intros Hs Hc. induction s as [|d s IH]; [done|]. cbn in *.
  apply andb_true_iff in Hs as [Hd Hs]. rewrite IH by done.
  destruct (Ascii.eqb_spec d c) as [->|]; [congruence|done].
Qed.

Lemma all_chars_take P (n : N) s :
  all_chars P s = true -> all_chars P (take_chars n s) = true.
Proof.
  revert n. induction s as [|c s IH]; intros n; [done|]. cbn.
  intros [Hc Hs]%andb_true_iff. destruct (n =? 0)%N; [done|].
  cbn. by rewrite Hc, IH.
Qed.

Lemma all_chars_drop P (n : N) s :
  all_chars P s = true -> all_chars P (drop_chars n s) = true.
Proof.
  revert n. induction s as [|c s IH]; intros n; [done|]. cbn [drop_chars].
  intros Hs. destruct (n =? 0)%N; [done|].
  cbn in Hs. apply andb_true_iff in Hs as [_ Hs]. by apply IH.
Qed.

Lemma all_chars_strip P s :
  all_chars P s = true -> all_chars P (strip_zeros s) = true.
Proof.
  induction s as [|c s IH]; [done|]. cbn.
  intros [Hc Hs]%andb_true_iff. specialize (IH Hs).
  destruct (strip_zeros s).
  - destruct (Ascii.eqb c "0"); [done|]. cbn. by rewrite Hc.
  - cbn in *. by rewrite Hc, IH.
Qed.

Lemma zeros_digits (n : nat) : all_chars is_digit (zeros n) = true.
Proof. induction n as [|n IH]; [done|]. cbn. exact IH. Qed.

Lemma uint_digits (d : Decimal.uint) :
  all_chars is_digit (NilEmpty.string_of_uint d) = true.
Proof. induction d; cbn; done. Qed.

Lemma decimal_digits (n : Z) : all_chars is_digit (decimal n) = true.
Proof.
  unfold decimal, NilZero.string_of_uint.
  destruct (N.to_uint (Z.to_N n)) eqn:E; try done; rewrite <- E;
    apply uint_digits.
Qed.

Lemma to_string_int_chars (z : Z) : all_chars int_char (to_string_int z) = true.
Proof.
  assert (forall d, all_chars int_char (NilZero.string_of_uint d) = true) as Hu.
  { intros d. apply (all_chars_impl is_digit).
    - intros c Hc. unfold int_char. by rewrite Hc.
    - unfold NilZero.string_of_uint.
      destruct d eqn:E; try done; rewrite <- E; apply uint_digits. }
  unfold to_string_int, NilZero.string_of_int.
  destruct (Z.to_int z) as [d|d]; [apply Hu|]. cbn. apply Hu.
Qed.

Lemma digits_num s : all_chars is_digit s = true -> all_chars num_char s = true.
Proof.
  apply all_chars_impl. intros c Hc. unfold num_char. by rewrite Hc.
Qed.

Lemma sign_string_num (b : bool) : all_chars num_char (sign_string b) = true.
Proof. by destruct b. Qed.

Lemma pad_left_num (n : nat) s :
  all_chars num_char s = true -> all_chars num_char (pad_left n s) = true.
Proof.
  intros Hs. unfold pad_left. rewrite all_chars_append, Hs, andb_true_r.
  apply digits_num, zeros_digits.
Qed.

Lemma with_point_num (a b : string) :
  all_chars num_char a = true -> all_chars num_char b = true ->
  all_chars num_char (with_point a b) = true.
Proof.
  intros Ha Hb. unfold with_point. destruct b as [|c b]; [done|].
  rewrite !all_chars_append, Ha. cbn in Hb |- *. exact Hb.
Qed.

Lemma to_string_double_chars (x : float) :
  all_chars num_char (to_string_double x) = true.
Proof.
  unfold to_string_double.
  destruct (Prim2SF x) as [sg|sg| |sg m e].
  - by destruct sg.
  - by destruct sg.
  - done.
  - rewrite !all_chars_append, sign_string_num.
    rewrite (digits_num _ (decimal_digits _)).
    rewrite pad_left_num by apply digits_num, decimal_digits. done.
Qed.

Lemma put_double_chars (x : float) : all_chars num_char (put_double x) = true.
Proof.
  unfold put_double.
  destruct (Prim2SF x) as [sg|sg| |sg m e].
  - by destruct sg.
  - by destruct sg.
  - done.
  - cbv zeta. rewrite !all_chars_append, sign_string_num. cbn [andb].
    apply andb_true_iff. split.
    + repeat match goal with |- context [if ?b then _ else _] => destruct b end;
        apply with_point_num;
        repeat first
          [ done
          | apply all_chars_strip | apply all_chars_take | apply all_chars_drop
          | rewrite all_chars_append; apply andb_true_iff; split
          | apply digits_num, zeros_digits
          | apply digits_num, decimal_digits ].
    + match goal with |- context [if ?b then _ else _] => destruct b end;
        [|done].
      unfold exponent_string. rewrite !all_chars_append.
      rewrite pad_left_num by apply digits_num, decimal_digits.
      by destruct (_ <? 0).
Qed.

End NumberChars.

(** ** Reading back what the checkout wrote *)

Section ReadBack.

Import FileLog.
Local Open Scope N_scope.
Local Arguments String.append : simpl nomatch.

Implicit Types (line rest stream ds : string).

Lemma find_at_miss needle c hay i pos :
  String.prefix needle (String c hay) = false ->
  find_at needle (String c hay) i pos = find_at needle hay (N.succ i) pos.
Proof.
  intros H. apply find_at_next. by rewrite H, andb_false_r.
Qed.

Lemma size_sub_small (a b : N) :
  b <= a -> a < 2 ^ 64 -> size_sub a b = a - b.
Proof.
  intros Hb Ha. unfold size_sub.
  replace (a + 2 ^ 64 - b) with (a - b + 1 * 2 ^ 64) by lia.
  rewrite N.Div0.mod_add. apply N.mod_small. lia.
Qed.

(** Walk [find_at] over the text as far as its characters are known. *)
Ltac find_walk :=
  repeat (rewrite find_at_miss by reflexivity).

Lemma int_char_not (c : ascii) ds :
  all_chars int_char ds = true -> int_char c = false -> has_char c ds = false.
Proof. apply all_chars_has_char. Qed.

Lemma header_finds ds (st : PaymentStrategy) :
  all_chars int_char ds = true ->
  let line := header_line ("ORD" ++ ds) (getMethodName st) in
  find line "Order ID: " 0 = 9 /\
  find line " has been" 0 = 22 + size ds /\
  find line "using " 0 = 66 + size ds /\
  find line "." 0 = 72 + size ds + size (getMethodName st).
Proof.
  intros Hds line. unfold line, header_line, header_marker, find.
  cbn [String.append]. split; [|split; [|split]].
  - reflexivity.
  - find_walk. rewrite find_at_skip by (by apply int_char_not).
    rewrite find_at_here; [lia|lia|reflexivity].
  - find_walk. rewrite find_at_skip by (by apply int_char_not).
    cbn [String.append]. find_walk.
    rewrite find_at_here; [lia|lia|by destruct st].
  - find_walk. rewrite find_at_skip by (by apply int_char_not).
    cbn [String.append]. find_walk.
    destruct st; cbn [getMethodName String.append]; find_walk;
      (rewrite find_at_here; [unfold size; cbn [String.length]; lia|lia|reflexivity]).
Qed.

Lemma parse_header_line (now : Z) (st : PaymentStrategy) :
  fits (header_line (order_id now) (getMethodName st)) ->
  parse_header (header_line (order_id now) (getMethodName st)) =
  Some (order_id now, getMethodName st).
Proof.
  unfold fits, order_id. set (ds := to_string_int now).
  assert (all_chars int_char ds = true) as Hds by apply to_string_int_chars.
  intros Hfit.
  destruct (header_finds ds st Hds) as (Hid & Hbeen & Husing & Hdot).
  unfold parse_header. rewrite Hid, Hbeen, Husing, Hdot. clear Hid Hbeen Husing Hdot.
  set (mid := " has been successfully checked out and paid using "%string).
  set (m := getMethodName st) in *.
  assert (size (header_line ("ORD" ++ ds) m) = 73 + size ds + size m) as Hsize.
  { unfold header_line. rewrite !size_append.
    change (size header_marker) with 19. change (size "ORD") with 3.
    change (size " has been successfully checked out and paid using ") with 50.
    change (size ".") with 1. lia. }
  rewrite Hsize in Hfit.
  change (size_add 9 10) with 19.
  rewrite (size_sub_small (22 + size ds) 19) by lia.
  rewrite (size_add_small (66 + size ds) 6) by lia.
  rewrite (size_sub_small (72 + size ds + size m) (66 + size ds + 6)) by lia.
  rewrite !substr_in_range by lia.
  replace (22 + size ds - 19) with (size ("ORD" ++ ds))
    by (rewrite size_append; change (size "ORD") with 3; lia).
  replace (66 + size ds + 6) with (size (header_marker ++ ("ORD" ++ ds) ++ mid))
    by (rewrite !size_append; change (size header_marker) with 19;
        change (size "ORD") with 3; change (size mid) with 50; lia).
  replace (72 + size ds + size m -
           size (header_marker ++ ("ORD" ++ ds) ++ mid)) with (size m)
    by (rewrite !size_append; change (size header_marker) with 19;
        change (size "ORD") with 3; change (size mid) with 50; lia).
  replace (header_line ("ORD" ++ ds) m)
    with ((header_marker ++ ("ORD" ++ ds) ++ mid) ++ m ++ ".")%string at 2
    by (by rewrite !append_assoc).
  rewrite drop_chars_append, take_chars_append.
  change 19 with (size header_marker). unfold header_line.
  by rewrite drop_chars_append, take_chars_append.
Qed.

Lemma prefix_empty s : String.prefix "" s = true.
Proof. by destruct s. Qed.

Lemma prefix_char (c : ascii) s :
  String.prefix (String c "") (String c s) = true.
Proof. cbn. destruct (ascii_dec c c); [apply prefix_empty|done]. Qed.

(** A line of four fields separated by tabs is split into its fields,
    provided the first three hold no tab. *)
Lemma parse_row_fields (a b c d : string) :
  has_char tab a = false -> has_char tab b = false ->
  has_char tab c = false ->
  fits (a ++ tb ++ b ++ tb ++ c ++ tb ++ d) ->
  parse_row (a ++ tb ++ b ++ tb ++ c ++ tb ++ d) = Some [mkLogRow a b c d].
Proof.
  intros Ha Hb Hc. unfold fits.
  set (line := (a ++ tb ++ b ++ tb ++ c ++ tb ++ d)%string).
  assert (size line = size a + 1 + size b + 1 + size c + 1 + size d) as Hsize.
  { unfold line. rewrite !size_append. change (size tb) with 1. lia. }
  rewrite Hsize. intros Hfit.
  assert (find_char line tab 0 = size a) as H1.
  { unfold find_char, find, line. rewrite find_at_skip by done.
    rewrite find_at_here; [lia|lia|apply prefix_char]. }
  assert (find_char line tab (size a + 1) = size a + 1 + size b) as H2.
  { unfold find_char, find, line.
    rewrite <- (append_assoc a tb), (find_at_from _ (a ++ tb));
      [|rewrite size_append; change (size tb) with 1; lia].
    rewrite find_at_skip by done.
    rewrite size_append. change (size tb) with 1.
    rewrite find_at_here; [lia|lia|apply prefix_char]. }
  assert (find_char line tab (size a + 1 + size b + 1) =
          size a + 1 + size b + 1 + size c) as H3.
  { unfold find_char, find, line.
    replace (a ++ tb ++ b ++ tb ++ c ++ tb ++ d)%string
      with ((a ++ tb ++ b ++ tb) ++ c ++ tb ++ d)%string
      by (by rewrite !append_assoc).
    rewrite (find_at_from _ (a ++ tb ++ b ++ tb));
      [|rewrite !size_append; change (size tb) with 1; lia].
    rewrite find_at_skip by done.
    rewrite !size_append. change (size tb) with 1.
    rewrite find_at_here; [lia|lia|apply prefix_char]. }
  unfold parse_row. rewrite H1.
  rewrite (size_add_small (size a) 1) by lia. rewrite H2.
  rewrite (size_add_small (size a + 1 + size b) 1) by lia. rewrite H3.
  assert (forall n, n < 2 ^ 63 -> (n =? npos) = false) as Hnpos.
  { intros n Hn. apply N.eqb_neq. unfold npos. lia. }
  rewrite !Hnpos by lia. cbn [negb andb].
  rewrite (size_add_small (size a + 1 + size b + 1 + size c) 1) by lia.
  rewrite !substr_in_range by lia.
  rewrite (size_sub_small (size a + 1 + size b) (size a)) by lia.
  rewrite (size_sub_small (size a + 1 + size b - size a) 1) by lia.
  rewrite (size_sub_small (size a + 1 + size b + 1 + size c)
             (size a + 1 + size b)) by lia.
  rewrite (size_sub_small (size a + 1 + size b + 1 + size c -
                           (size a + 1 + size b)) 1) by lia.
  replace (size a + 1 + size b - size a - 1) with (size b) by lia.
  replace (size a + 1 + size b + 1 + size c - (size a + 1 + size b) - 1)
    with (size c) by lia.
  change (drop_chars 0 line) with (drop_chars 0 line).
  assert (drop_chars 0 line = line) as -> by (by destruct line).
  unfold line at 1. rewrite take_chars_append.
  replace (size a + 1) with (size (a ++ tb))
    by (rewrite size_append; change (size tb) with 1; lia).
  unfold line at 1. rewrite <- (append_assoc a tb), drop_chars_append.
  rewrite take_chars_append.
  replace (size (a ++ tb) + size b + 1) with (size (a ++ tb ++ b ++ tb))
    by (rewrite !size_append; change (size tb) with 1; lia).
  replace line with ((a ++ tb ++ b ++ tb) ++ c ++ tb ++ d)%string at 1
    by (unfold line; by rewrite !append_assoc).
  rewrite drop_chars_append, take_chars_append.
  replace (size (a ++ tb ++ b ++ tb) + size c + 1)
    with (size (a ++ tb ++ b ++ tb ++ c ++ tb))
    by (rewrite !size_append; change (size tb) with 1; lia).
  replace line with ((a ++ tb ++ b ++ tb ++ c ++ tb) ++ d)%string
    by (unfold line; by rewrite !append_assoc).
  rewrite drop_chars_append, take_chars_all; [done|].
  unfold npos. lia.
Qed.

Lemma num_char_not (c : ascii) s :
  all_chars num_char s = true -> num_char c = false -> has_char c s = false.
Proof. apply all_chars_has_char. Qed.

Lemma clean_name_spec (it : CartItem) :
  clean_name it = true ->
  has_char tab (getName (getProduct it)) = false /\
  has_char newline (getName (getProduct it)) = false.
Proof.
  unfold clean_name. intros [H1 H2]%andb_true_iff.
  by apply negb_true_iff in H1, H2.
Qed.

Lemma find_at_absent (c : ascii) needle s (i pos : N) :
  has_char c s = false -> find_at (String c needle) s i pos = npos.
Proof.
  intros Hno. rewrite <- (append_empty_r s), find_at_skip by done.
  cbn. by rewrite andb_false_r.
Qed.

(** A product line as the checkout writes it. *)
Lemma row_line_facts (it : CartItem) :
  clean_name it = true ->
  has_char newline (row_line it) = false /\
  empty (row_line it) = false /\
  (fits (row_line it) -> parse_row (row_line it) = Some [row_of it]).
Proof.
  intros [Htab Hnl]%clean_name_spec. unfold row_line. split; [|split].
  - rewrite !has_char_append, Hnl.
    rewrite (int_char_not newline (to_string_int (getId _)))
      by (apply to_string_int_chars || done).
    rewrite (int_char_not newline (to_string_int (getQuantity _)))
      by (apply to_string_int_chars || done).
    rewrite (num_char_not newline (to_string_double _))
      by (apply to_string_double_chars || done).
    reflexivity.
  - by destruct (to_string_int (getId (getProduct it))).
  - apply parse_row_fields; [|done|].
    + by apply (int_char_not tab); [apply to_string_int_chars|].
    + by apply (num_char_not tab); [apply to_string_double_chars|].
Qed.

(** The total line as the checkout writes it: the row loop takes it for
    a row without tabs and shows nothing. *)
Lemma total_line_facts (total : float) :
  has_char newline (total_line total) = false /\
  empty (total_line total) = false /\
  parse_row (total_line total) = Some [] /\
  is_header (total_line total) = false.
Proof.
  assert (forall c, num_char c = false -> has_char c total_marker = false ->
                    has_char c (total_line total) = false) as Hno.
  { intros c Hc Hm. unfold total_line. rewrite has_char_append, Hm.
    by apply (num_char_not c); [apply put_double_chars|]. }
  split; [by apply Hno|]. split; [done|]. split.
  - unfold parse_row, find_char, find.
    rewrite (find_at_absent tab) by (by apply Hno). done.
  - unfold is_header, find, header_marker.
    rewrite (find_at_absent "[") by (by apply Hno). done.
Qed.

Lemma contents_line_eq (it : CartItem) :
  contents_line it = (row_line it ++ nl)%string.
Proof. unfold contents_line, row_line. by rewrite !append_assoc. Qed.

Lemma contents_of_rows_text (lines : list CartItem) :
  contents_of lines = rows_text lines.
Proof.
  unfold contents_of.
  assert (forall acc,
            fold_left (fun c it => (c ++ contents_line it)%string) lines acc =
            (acc ++ rows_text lines)%string) as H; [|apply H].
  induction lines as [|it lines IH]; intros acc; cbn [fold_left rows_text].
  - by rewrite append_empty_r.
  - by rewrite IH, contents_line_eq, !append_assoc.
Qed.

Lemma fits_append_r (a b : string) : fits (a ++ b) -> fits b.
Proof. unfold fits. rewrite size_append. lia. Qed.

Lemma fits_append_l (a b : string) : fits (a ++ b) -> fits a.
Proof. unfold fits. rewrite size_append. lia. Qed.

(** The row loop on the product lines of a block, followed by [rest]. *)
Lemma read_rows_rows_text (lines : list CartItem) rest :
  Forall (fun it => clean_name it = true) lines ->
  fits (rows_text lines ++ rest) ->
  read_rows (rows_text lines ++ rest) =
  match read_rows rest with
  | Some (rows, rest') => Some ((map row_of lines ++ rows)%list, rest')
  | None => None
  end.
Proof.
  induction 1 as [|it lines Hit _ IH]; intros Hfit.
  - cbn. by destruct (read_rows rest) as [[rows rest']|].
  - destruct (row_line_facts it Hit) as (Hnl & Hne & Hparse).
    cbn [rows_text] in *. rewrite !append_assoc in *.
    change (nl ++ rows_text lines ++ rest)%string
      with (String newline (rows_text lines ++ rest)) in *.
    rewrite (read_rows_step (row_line it ++ _)).
    rewrite (getline_append _ _ Hnl), Hne.
    rewrite Hparse by (by apply fits_append_l in Hfit).
    rewrite IH by (apply fits_append_r in Hfit; revert Hfit;
                   unfold fits; rewrite size_String; lia).
    by destruct (read_rows rest) as [[rows rest']|].
Qed.

(** The row loop on the total line and the blank line that end a
    block. *)
Lemma read_rows_total (total : float) rest :
  read_rows (log_total total ++ rest) = Some ([], rest).
Proof.
  destruct (total_line_facts total) as (Hnl & Hne & Hparse & _).
  unfold log_total.
  replace ((total_marker ++ put_double total ++ nl ++ nl) ++ rest)%string
    with (total_line total ++ String newline (String newline rest))%string
    by (unfold total_line; by rewrite !append_assoc).
  rewrite (read_rows_step (total_line total ++ _)).
  rewrite (getline_append _ _ Hnl), Hne, Hparse.
  by rewrite (read_rows_step (String newline rest)).
Qed.

(** A header line as the checkout writes it. *)
Lemma header_line_facts (now : Z) (st : PaymentStrategy) :
  let line := header_line (order_id now) (getMethodName st) in
  has_char newline line = false /\
  is_header line = true /\
  find line total_marker 0 = npos.
Proof.
  assert (all_chars int_char (to_string_int now) = true) as Hds
    by apply to_string_int_chars.
  assert (forall c, int_char c = false ->
            has_char c header_marker = false ->
            has_char c "ORD" = false ->
            has_char c " has been successfully checked out and paid using "
              = false ->
            has_char c (getMethodName st ++ ".") = false ->
            has_char c (header_line (order_id now) (getMethodName st)) = false)
    as Hno.
  { intros c Hc H1 H2 H3 H4. unfold header_line, order_id.
    rewrite !has_char_append in *. rewrite H1, H2, H3.
    rewrite (int_char_not c _ Hds Hc). apply orb_false_iff in H4 as [-> ->].
    done. }
  intros line. split; [|split].
  - apply Hno; try done. by destruct st.
  - unfold is_header, find, line, header_line.
    rewrite find_at_here; [done|lia|apply prefix_append].
  - unfold find, total_marker. apply find_at_absent.
    apply Hno; try done. by destruct st.
Qed.

Lemma log_block_eq (orderId method contents : string) (total : float) rest :
  (log_block orderId method contents total ++ rest)%string =
  (header_line orderId method ++
   String newline (contents ++ log_total total ++ rest))%string.
Proof.
  unfold log_block, log_header, header_line. by rewrite !append_assoc.
Qed.

(** [viewOrders] on a block that the checkout wrote, followed by
    [rest]: order id, payment method and rows are what was written; the
    total is looked for in the first line of [rest], and the loop goes
    on after that line. *)
Lemma view_loop_block (now : Z) (st : PaymentStrategy)
  (lines : list CartItem) (total : float) rest (hasOrders : bool) :
  Forall (fun it => clean_name it = true) lines ->
  fits (log_block (order_id now) (getMethodName st) (contents_of lines) total
        ++ rest) ->
  view_loop
    (log_block (order_id now) (getMethodName st) (contents_of lines) total
     ++ rest) hasOrders =
  match view_loop (snd (read_total rest)) true with
  | Some (_, blocks) =>
      Some (true,
            mkOrderBlock (order_id now) (getMethodName st)
              (map row_of lines) (fst (read_total rest)) :: blocks)
  | None => None
  end.
Proof.
  intros Hclean. rewrite log_block_eq. intros Hfit.
  destruct (header_line_facts now st) as (Hnl & Hhead & _).
  rewrite (view_loop_step (header_line _ _ ++ _)).
  rewrite (getline_append _ _ Hnl), Hhead.
  rewrite parse_header_line by (by apply fits_append_l in Hfit).
  rewrite contents_of_rows_text in *.
  assert (fits (rows_text lines ++ log_total total ++ rest)) as Hfit'.
  { apply fits_append_r in Hfit. revert Hfit. unfold fits.
    rewrite size_String. lia. }
  rewrite (read_rows_rows_text _ _ Hclean Hfit'), read_rows_total.
  by rewrite app_nil_r.
Qed.

Lemma view_loop_end (hasOrders : bool) :
  view_loop "" hasOrders = Some (hasOrders, []).
Proof. by rewrite view_loop_step. Qed.

(** A block alone in the log is shown without its total. *)
Lemma view_loop_single (now : Z) (st : PaymentStrategy)
  (lines : list CartItem) (total : float) :
  Forall (fun it => clean_name it = true) lines ->
  fits (log_block (order_id now) (getMethodName st) (contents_of lines) total) ->
  view_loop
    (log_block (order_id now) (getMethodName st) (contents_of lines) total)
    false =
  Some (true,
        [mkOrderBlock (order_id now) (getMethodName st) (map row_of lines)
           None]).
Proof.
  intros Hclean Hfit.
  rewrite <- (append_empty_r (log_block _ _ _ _)) in Hfit |- *.
  rewrite (view_loop_block _ _ _ _ _ _ Hclean Hfit).
  change (snd (read_total "")) with ""%string.
  by rewrite view_loop_end.
Qed.

(** The line read for the total is the header of the next block. *)
Lemma read_total_block (now : Z) (st : PaymentStrategy)
  (contents : string) (total : float) rest :
  read_total
    (log_block (order_id now) (getMethodName st) contents total ++ rest) =
  (None, (contents ++ log_total total ++ rest)%string).
Proof.
  destruct (header_line_facts now st) as (Hnl & _ & Hnone).
  rewrite log_block_eq. unfold read_total.
  by rewrite (getline_append _ _ Hnl), Hnone.
Qed.

Lemma plain_row_spec (it : CartItem) :
  plain_row it = true ->
  clean_name it = true /\ is_header (row_line it) = false.
Proof.
  unfold plain_row. intros [H1 H2]%andb_true_iff.
  by apply negb_true_iff in H2.
Qed.

(** Outside a block, the rows and the total line of a block are passed
    over: none of them is a header. *)
Lemma view_loop_rows_skipped (lines : list CartItem) (total : float) rest
  (hasOrders : bool) :
  Forall (fun it => plain_row it = true) lines ->
  view_loop (rows_text lines ++ log_total total ++ rest) hasOrders =
  view_loop rest hasOrders.
Proof.
  induction 1 as [|it lines [Hclean Hrow]%plain_row_spec _ IH].
  - destruct (total_line_facts total) as (Hnl & _ & _ & Hhead).
    replace (rows_text [] ++ log_total total ++ rest)%string
      with (total_line total ++ String newline (String newline rest))%string
      by (unfold log_total, total_line; cbn; by rewrite !append_assoc).
    rewrite view_loop_step, (getline_append _ _ Hnl), Hhead.
    rewrite (view_loop_step (String newline rest)).
    change (getline (String newline rest)) with (Some (EmptyString, rest)).
    done.
  - destruct (row_line_facts it Hclean) as (Hnl & _ & _).
    replace (rows_text (it :: lines) ++ log_total total ++ rest)%string
      with (row_line it ++
            String newline (rows_text lines ++ log_total total ++ rest))%string
      by (cbn [rows_text]; by rewrite !append_assoc).
    by rewrite view_loop_step, (getline_append _ _ Hnl), Hrow.
Qed.

Lemma valid_visit_text (v : Visit) :
  valid_visit v ->
  exists st,
    select_strategy (choice v) = Some st /\
    method_of v = getMethodName st /\
    Forall (fun it => clean_name it = true) (basket (bought v)).
Proof.
  intros (_ & [st Hsel] & Hrows). exists st. split; [done|].
  split; [unfold method_of; by rewrite Hsel|].
  eapply Forall_impl; [exact Hrows|]. by intros it [? _]%plain_row_spec.
Qed.

(** [viewOrders] on the text of a sequence of visits: it shows the
    first, third, fifth, ... order, each without its total. *)
Lemma view_loop_log_text (visits : list Visit) :
  Forall valid_visit visits ->
  fits (log_text visits) ->
  forall hasOrders,
    view_loop (log_text visits) hasOrders =
    Some (match visits with [] => hasOrders | _ => true end,
          map visit_block (alternate visits)).
Proof.
  enough ((Forall valid_visit visits -> fits (log_text visits) ->
           forall hasOrders,
             view_loop (log_text visits) hasOrders =
             Some (match visits with [] => hasOrders | _ => true end,
                   map visit_block (alternate visits))) /\
          (forall v, Forall valid_visit (v :: visits) ->
                     fits (log_text (v :: visits)) ->
           forall hasOrders,
             view_loop (log_text (v :: visits)) hasOrders =
             Some (true, map visit_block (alternate (v :: visits)))))
    as [H _] by exact H.
  induction visits as [|v2 visits [IH0 IH1]].
  - split; [intros _ _ b; apply view_loop_end|].
    intros v [Hv _]%Forall_cons_1 Hfit b.
    destruct (valid_visit_text v Hv) as (st & _ & Hm & Hclean).
    cbn [log_text] in *. rewrite append_empty_r in *.
    unfold visit_text, visit_block in *. rewrite Hm in *.
    rewrite <- (append_empty_r (log_block _ _ _ _)) in Hfit |- *.
    rewrite (view_loop_block _ _ _ _ _ _ Hclean Hfit).
    change (snd (read_total "")) with ""%string.
    rewrite view_loop_end. cbn. by rewrite Hm.
  - split; [apply IH1|].
    intros v [Hv [Hv2 Hrest]%Forall_cons_1]%Forall_cons_1 Hfit b.
    destruct (valid_visit_text v Hv) as (st & _ & Hm & Hclean).
    destruct (valid_visit_text v2 Hv2) as (st2 & _ & Hm2 & _).
    cbn [log_text alternate map] in *.
    unfold visit_text at 1, visit_block at 1. rewrite Hm.
    unfold visit_text at 1 in Hfit. rewrite Hm in Hfit.
    rewrite (view_loop_block _ _ _ _ _ _ Hclean Hfit).
    unfold visit_text at 1 2. rewrite Hm2, read_total_block.
    cbn [fst snd]. rewrite contents_of_rows_text.
    rewrite view_loop_rows_skipped by apply Hv2.
    rewrite IH0; [done|done|].
    by apply fits_append_r, fits_append_r in Hfit.
Qed.

Lemma alternate_length {A : Type} (l : list A) :
  (length (alternate l) <= length l)%nat /\
  forall x y, (length (alternate (x :: y :: l)) < length (x :: y :: l))%nat.
Proof.
  enough (forall n (l0 : list A), (length l0 <= n)%nat ->
                       (length (alternate l0) <= length l0)%nat) as H.
  { split; [by apply (H (length l))|]. intros x y. cbn.
    specialize (H (length l) l). lia. }
  clear l. intros n. induction n as [|n IH]; intros [|x [|y l]] Hlen;
    cbn in *; try lia.
  specialize (IH l). lia.
Qed.

End ReadBack.

(** ** The history that [1.cpp] shows *)

Section FileHistory.

Import FileLog.

Implicit Types (w : World) (v : Visit).

Lemma file_purchase_ok w v :
  cart_wf (store w) ->
  items (cart (store w)) = [] ->
  appendable (fs w) = true ->
  valid_visit v ->
  exists w',
    purchase v w = Ok tt w' /\
    cart_wf (store w') /\
    items (cart (store w')) = [] /\
    appendable (fs w') = true /\
    orders_log (fs w') =
      Some (default EmptyString (orders_log (fs w)) ++ visit_text v)%string.
Proof.
  intros Hwf Hempty Happ (Hps & [st Hsel] & _).
  destruct (add_all_lines (bought v) _ Hwf) as (s1 & Hadd & Hwf1 & Hlines & _).
  destruct (add_all_ok (bought v) _ Hwf) as (s2 & Hadd2 & _ & Hne).
  rewrite Hadd in Hadd2. injection Hadd2 as <-.
  apply (cart_lines_nil _ Hwf) in Hempty. rewrite Hempty in Hlines.
  fold (basket (bought v)) in Hlines.
  set (w1 := mkWorld s1 (fs w) (console w)).
  destruct (file_checkout_ok w1 (choice v) (clock v) st Hwf1
              (Hne (or_introl Hps)) Hsel) as (h' & _ & Hrun).
  eexists. unfold purchase.
  rewrite (bind_ok _ _ _ _ _ (file_on_store_ok _ _ _ _ Hadd)).
  fold w1. split; [exact Hrun|]. simpl_world.
  split; [apply cleared_wf|]. split; [done|].
  unfold log_after, w1. simpl_world. rewrite Happ. simpl_world.
  split; [done|]. unfold visit_text, method_of.
  by rewrite Hsel, Hlines.
Qed.

Lemma file_purchases_ok (visits : list Visit) : forall w,
  cart_wf (store w) ->
  items (cart (store w)) = [] ->
  appendable (fs w) = true ->
  Forall valid_visit visits ->
  exists w',
    purchases visits w = Ok tt w' /\
    default EmptyString (orders_log (fs w')) =
      (default EmptyString (orders_log (fs w)) ++ log_text visits)%string /\
    (visits <> [] -> is_Some (orders_log (fs w'))).
Proof.
  induction visits as [|v visits IH]; intros w Hwf Hempty Happ Hvalid.
  - exists w. split; [done|]. cbn [log_text].
    by rewrite append_empty_r.
  - apply Forall_cons_1 in Hvalid as [Hv Hrest].
    destruct (file_purchase_ok w v Hwf Hempty Happ Hv)
      as (w1 & Hrun1 & Hwf1 & Hempty1 & Happ1 & Hlog1).
    destruct (IH w1 Hwf1 Hempty1 Happ1 Hrest) as (w' & Hrun & Hlog & Hsome).
    exists w'. cbn [purchases log_text].
    rewrite (bind_ok _ _ _ _ _ Hrun1). split; [done|].
    rewrite Hlog, Hlog1. cbn [from_option id]. split; [by rewrite append_assoc|].
    intros _. destruct visits as [|v' visits'].
    + cbn in Hrun. injection Hrun as <-. by rewrite Hlog1.
    + by apply Hsome.
Qed.

End FileHistory.

(** C6, where [1.cpp] departs from it, for every history.  The shop
    starts with an empty cart and no order in a writable [orders.log];
    customers make any number of visits, at least one, each adding
    products whose names hold no tab, newline or header text and paying
    by a method on the menu.  The log then holds the blocks of all the
    visits, oldest first, and "view orders" shows the first, third,
    fifth, ... of them only: from two visits on, fewer orders than were
    placed. *)
Theorem file_history_shows_alternate_orders
  (w : FileLog.World) (visits : list FileLog.Visit) :
  cart_wf (FileLog.store w) ->
  items (cart (FileLog.store w)) = [] ->
  FileLog.appendable (FileLog.fs w) = true ->
  default EmptyString (FileLog.orders_log (FileLog.fs w)) = EmptyString ->
  visits <> [] ->
  Forall FileLog.valid_visit visits ->
  FileLog.fits (FileLog.log_text visits) ->
  exists w1 w2 : FileLog.World,
    FileLog.purchases visits w = Ok tt w1 /\
    FileLog.orders_log (FileLog.fs w1) = Some (FileLog.log_text visits) /\
    FileLog.viewOrders w1 =
      Ok (map FileLog.visit_block (FileLog.alternate visits)) w2 /\
    ((2 <= length visits)%nat ->
     (length (FileLog.alternate visits) < length visits)%nat).
Proof.
  intros Hwf Hempty Happ Hlog Hne Hvalid Hfit.
  destruct (file_purchases_ok visits w Hwf Hempty Happ Hvalid)
    as (w1 & Hrun & Hlog1 & Hsome).
  destruct (Hsome Hne) as [log Hlog1']. rewrite Hlog1', Hlog in Hlog1.
  cbn in Hlog1. subst log.
  exists w1. eexists. split; [done|]. split; [done|]. split.
  - unfold FileLog.viewOrders, bind, get. rewrite Hlog1'.
    rewrite (view_loop_log_text visits Hvalid Hfit).
    destruct visits; [done|]. reflexivity.
  - destruct visits as [|x [|y l]]; cbn [length]; [lia|lia|].
    intros _. apply (alternate_length l).
Qed.

Lemma file_history_shows_alternate_orders_witness :
  cart_wf (FileLog.store shop_opening) /\
  FileLog.fits (FileLog.log_text [headphones_visit; laptop_visit]) /\
  exists w1 w2 : FileLog.World,
    FileLog.purchases [headphones_visit; laptop_visit] shop_opening =
      Ok tt w1 /\
    FileLog.orders_log (FileLog.fs w1) =
      Some (FileLog.log_text [headphones_visit; laptop_visit]) /\
    FileLog.viewOrders w1 =
      Ok [FileLog.visit_block headphones_visit] w2 /\
    ((2 <= 2)%nat -> (1 < 2)%nat).
Proof.
  assert (FileLog.fits (FileLog.log_text [headphones_visit; laptop_visit]))
    as Hfit by (vm_compute; reflexivity).
  split; [exact initial_store_wf|]. split; [exact Hfit|].
  refine (file_history_shows_alternate_orders shop_opening
            [headphones_visit; laptop_visit]
            initial_store_wf eq_refl eq_refl eq_refl _ _ Hfit).
  - discriminate.
  - constructor; [|constructor; [|constructor]];
      (split; [discriminate|]; split; [by eexists|];
       constructor; [vm_compute; reflexivity|constructor]).
Defined.

(** C7, where [1.cpp] departs from it, for every order.  The block that
    the checkout writes for an order id, a payment method, cart lines
    whose names hold no tab or newline, and a total is the header line,
    one tab-separated line per cart line, the total line and a blank
    line.  Read back on its own by [viewOrders], it gives the order id,
    the method and the fields of every line as written, and no total. *)
Theorem written_block_read_without_total
  (now : Z) (st : PaymentStrategy) (lines : list CartItem) (total : float) :
  let text :=
    FileLog.log_block (FileLog.order_id now) (getMethodName st)
      (FileLog.contents_of lines) total in
  Forall (fun it => FileLog.clean_name it = true) lines ->
  FileLog.fits text ->
  text =
    (FileLog.header_line (FileLog.order_id now) (getMethodName st) ++
     FileLog.nl ++ FileLog.rows_text lines ++
     FileLog.total_line total ++ FileLog.nl ++ FileLog.nl)%string /\
  FileLog.view_loop text false =
    Some (true,
          [FileLog.mkOrderBlock (FileLog.order_id now) (getMethodName st)
             (map FileLog.row_of lines) None]).
Proof.
  intros text Hclean Hfit. split.
  - unfold text, FileLog.log_block, FileLog.log_header, FileLog.log_total,
      FileLog.header_line, FileLog.total_line.
    by rewrite contents_of_rows_text, !append_assoc.
  - by apply view_loop_single.
Qed.

Lemma written_block_read_without_total_witness :
  let text :=
    FileLog.log_block (FileLog.order_id 1700000000) "Cash"
      (FileLog.contents_of [mkCartItem Headphones 2])
      (sum_lines [mkCartItem Headphones 2]) in
  Forall (fun it => FileLog.clean_name it = true) [mkCartItem Headphones 2] /\
  FileLog.fits text /\
  text =
    (FileLog.header_line (FileLog.order_id 1700000000) "Cash" ++
     FileLog.nl ++ FileLog.rows_text [mkCartItem Headphones 2] ++
     FileLog.total_line (sum_lines [mkCartItem Headphones 2]) ++
     FileLog.nl ++ FileLog.nl)%string /\
  FileLog.view_loop text false =
    Some (true,
          [FileLog.mkOrderBlock (FileLog.order_id 1700000000) "Cash"
             (map FileLog.row_of [mkCartItem Headphones 2]) None]).
Proof.
  intros text.
  assert (Forall (fun it => FileLog.clean_name it = true)
            [mkCartItem Headphones 2]) as Hclean by (by repeat constructor).
  assert (FileLog.fits text) as Hfit by (vm_compute; reflexivity).
  split; [exact Hclean|]. split; [exact Hfit|].
  exact (written_block_read_without_total 1700000000 CashPayment
           [mkCartItem Headphones 2] (sum_lines [mkCartItem Headphones 2])
           Hclean Hfit).
Defined.

(** * Part III: further properties of the code *)

(** ** The cart as a data structure *)

Section CartInvariants.

Implicit Types (s : Store).

Lemma int_mul_exact (a b : Z) : in_int_range (a * b) -> int_mul a b = a * b.
Proof.
  unfold in_int_range, INT_MIN, INT_MAX, int_mul, wrap_int. intros H.
  rewrite Z.mod_small; lia.
Qed.

(** What [addProduct] does to the array and to the heap: either a line
    was found, and array, capacity and allocated objects are as before;
    or a new object was allocated and appended, the capacity doubled
    when the array was full. *)
Lemma addProduct_shape s (p : Product) (q : Z) :
  cart_wf s ->
  exists s',
    addProduct p q s = Ok tt s' /\
    ((items (cart s') = items (cart s) /\
      capacity (cart s') = capacity (cart s) /\
      dom (heap s') = dom (heap s)) \/
     (exists l,
        (l ∉ dom (heap s)) /\
        items (cart s') = items (cart s) ++ [l] /\
        dom (heap s') = ({[l]} ∪ dom (heap s)) /\
        capacity (cart s') =
          if count (cart s) =? capacity (cart s)
          then int_mul (capacity (cart s)) 2 else capacity (cart s))).
Proof.
  intros [Hnd Hlive].
  destruct (addProduct_scan_ok (getId p) q (items (cart s)) s Hnd Hlive)
    as (h' & Hrun & _ & _ & Hdom).
  unfold addProduct, bind at 1, get_cart. unfold bind at 1. rewrite Hrun.
  destruct (found _); cbn.
  - eexists. split; [reflexivity|]. left. by cbn.
  - unfold bind, new, set_cart. cbn.
    eexists. split; [reflexivity|]. right. exists (fresh (dom h')). cbn.
    split; [rewrite <- Hdom; apply is_fresh|]. split; [done|].
    split; [by rewrite dom_insert_L, Hdom|done].
Qed.

Lemma run_cart_op_tidy (op : cart_op) s :
  cart_wf s -> ids_unique s -> no_leak s ->
  exists s',
    run_cart_op op s = Ok tt s' /\ cart_wf s' /\ ids_unique s' /\ no_leak s'.
Proof.
  intros Hwf Hu Hleak. destruct op as [p q|]; cbn [run_cart_op].
  - destruct (addProduct_shape s p q Hwf) as (s' & Hrun & Hshape).
    destruct (addProduct_ok s p q Hwf) as (s1 & Hrun1 & Hwf1 & _).
    rewrite Hrun in Hrun1. injection Hrun1 as <-.
    exists s'. split; [done|]. split; [done|].
    split; [by apply (addProduct_ids_unique s s' p q)|].
    intros l Hl%elem_of_dom.
    destruct Hshape as [(-> & _ & Hdom)|(l0 & _ & -> & Hdom & _)].
    + apply Hleak, elem_of_dom. by rewrite <- Hdom.
    + rewrite Hdom in Hl. apply elem_of_app.
      apply elem_of_union in Hl as [->%elem_of_singleton|Hl].
      * right. apply list_elem_of_singleton. done.
      * left. by apply Hleak, elem_of_dom.
  - destruct (clearCart_ok s Hwf) as (h' & Hrun & Hout & Hin).
    eexists. split; [exact Hrun|]. split; [apply cleared_wf|].
    split; [constructor|]. intros l Hl. cbn in *.
    destruct (decide (l ∈ items (cart s))) as [Hl'|Hl'].
    + rewrite (Hin l Hl') in Hl. by destruct Hl.
    + rewrite (Hout l Hl') in Hl. by apply Hleak in Hl.
Qed.

Lemma run_cart_ops_tidy (ops : list cart_op) : forall s,
  cart_wf s -> ids_unique s -> no_leak s ->
  exists s',
    run_cart_ops ops s = Ok tt s' /\ cart_wf s' /\ ids_unique s' /\ no_leak s'.
Proof.
  induction ops as [|op ops IH]; intros s Hwf Hu Hleak.
  - by exists s.
  - destruct (run_cart_op_tidy op s Hwf Hu Hleak)
      as (s1 & Hrun1 & Hwf1 & Hu1 & Hleak1).
    destruct (IH s1 Hwf1 Hu1 Hleak1) as (s' & Hrun & Hrest).
    exists s'. split; [|done]. cbn. by rewrite (bind_ok _ _ _ _ _ Hrun1).
Qed.

Lemma run_cart_ops_room (ops : list cart_op) : forall s s' (n : Z),
  cart_wf s ->
  count (cart s) <= n ->
  count (cart s) <= capacity (cart s) ->
  10 <= capacity (cart s) <= Z.max 10 (2 * n) ->
  n + Z.of_nat (length ops) < 2 ^ 29 ->
  run_cart_ops ops s = Ok tt s' ->
  count (cart s') <= capacity (cart s') /\
  10 <= capacity (cart s') <= Z.max 10 (2 * (n + Z.of_nat (length ops))).
Proof.
  induction ops as [|op ops IH]; intros s s' n Hwf Hn Hroom Hcap Hlen Hrun.
  - cbn in Hrun. injection Hrun as <-. cbn [length]. split; [done|lia].
  - cbn [run_cart_ops length] in *.
    assert (exists s1,
              run_cart_op op s = Ok tt s1 /\ cart_wf s1 /\
              count (cart s1) <= n + 1 /\
              count (cart s1) <= capacity (cart s1) /\
              10 <= capacity (cart s1) <= Z.max 10 (2 * (n + 1)))
      as (s1 & Hrun1 & Hwf1 & Hn1 & Hroom1 & Hcap1).
    { destruct op as [p q|]; cbn [run_cart_op].
      - destruct (addProduct_shape s p q Hwf) as (s1 & Hrun1 & Hshape).
        destruct (addProduct_ok s p q Hwf) as (s2 & Hrun2 & Hwf1 & _).
        rewrite Hrun1 in Hrun2. injection Hrun2 as <-.
        exists s1. split; [done|]. split; [done|]. unfold count in *.
        destruct Hshape as [(-> & -> & _)|(l & _ & -> & _ & ->)]; [lia|].
        rewrite length_app. cbn [length].
        destruct (Z.eqb_spec (Z.of_nat (length (items (cart s))))
                    (capacity (cart s))) as [Hfull|Hfree]; [|lia].
        rewrite int_mul_exact
          by (unfold in_int_range, INT_MIN, INT_MAX; lia). lia.
      - destruct (clearCart_ok s Hwf) as (h' & Hrun1 & _).
        eexists. split; [exact Hrun1|]. split; [apply cleared_wf|].
        unfold count in *. cbn. lia. }
    rewrite (bind_ok _ _ _ _ _ Hrun1) in Hrun.
    destruct (IH s1 s' (n + 1) Hwf1 Hn1 Hroom1 Hcap1 ltac:(lia) Hrun)
      as [Hroom' Hcap'].
    split; [done|]. lia.
Qed.

End CartInvariants.

(** X1: the cart never misuses memory.  From the cart of a new program,
    every sequence of [addProduct] and [clearCart] calls runs to its end
    without touching a deleted object, and leaves a cart whose pointers
    are live and distinct, with at most one line per product id, and with
    no allocated [CartItem] outside the cart. *)
Theorem cart_ops_are_safe (ops : list cart_op) :
  exists s : Store,
    run_cart_ops ops initial_store = Ok tt s /\
    cart_wf s /\ ids_unique s /\ no_leak s.
Proof.
  apply run_cart_ops_tidy.
  - exact initial_store_wf.
  - exact initial_store_ids_unique.
  - intros l [it Hl]. cbn in Hl. by rewrite lookup_empty in Hl.
Qed.

(** X2: the array of the cart always has room for its lines.  After any
    sequence of fewer than [2^29] calls from the cart of a new program,
    [count <= capacity], and the capacity, which starts at 10 and is
    doubled when a line is added to a full array, is at most twice the
    number of calls (or 10). *)
Theorem cart_array_has_room (ops : list cart_op) (s : Store) :
  Z.of_nat (length ops) < 2 ^ 29 ->
  run_cart_ops ops initial_store = Ok tt s ->
  count (cart s) <= capacity (cart s) /\
  10 <= capacity (cart s) <= Z.max 10 (2 * Z.of_nat (length ops)).
Proof.
  intros Hlen Hrun.
  apply (run_cart_ops_room ops initial_store s 0 initial_store_wf);
    cbn; try lia; done.
Qed.

Lemma cart_array_has_room_witness :
  exists s : Store,
    run_cart_ops eleven_adds initial_store = Ok tt s /\
    count (cart s) = 11 /\
    capacity (cart s) = 20 /\
    count (cart s) <= capacity (cart s) /\
    10 <= capacity (cart s) <= Z.max 10 (2 * 11).
Proof.
  eexists. split; [vm_compute; reflexivity|].
  split; [reflexivity|]. split; [reflexivity|].
  apply (cart_array_has_room eleven_adds); vm_compute; reflexivity.
Defined.

(** X3: [clearCart] deletes exactly the objects the cart points to.
    On a cart whose pointers are live and distinct it ends normally;
    afterwards the cart has no line, the array keeps its capacity, every
    object of the cart is gone from the heap and every other object is
    as before; [getTotalAmount] then throws [EmptyCartException], and a
    second [clearCart] changes nothing. *)
Theorem clearCart_frees_the_lines (s : Store) :
  cart_wf s ->
  exists s' : Store,
    clearCart s = Ok tt s' /\
    items (cart s') = [] /\
    capacity (cart s') = capacity (cart s) /\
    (forall l, heap s' !! l =
               if decide (l ∈ items (cart s)) then None else heap s !! l) /\
    getTotalAmount s' = Throw EmptyCartException s' /\
    clearCart s' = Ok tt s'.
Proof.
  intros Hwf. destruct (clearCart_ok s Hwf) as (h' & Hrun & Hout & Hin).
  eexists. split; [exact Hrun|]. cbn. split; [done|]. split; [done|].
  split; [|by split].
  intros l. destruct (decide (l ∈ items (cart s))); [by apply Hin|by apply Hout].
Qed.

Lemma clearCart_frees_the_lines_witness :
  cart_wf cart_LSH /\
  exists s' : Store,
    clearCart cart_LSH = Ok tt s' /\
    items (cart s') = [] /\
    capacity (cart s') = capacity (cart cart_LSH) /\
    (forall l, heap s' !! l =
               if decide (l ∈ items (cart cart_LSH)) then None
               else heap cart_LSH !! l) /\
    getTotalAmount s' = Throw EmptyCartException s' /\
    clearCart s' = Ok tt s'.
Proof.
  split; [exact cart_LSH_wf|].
  exact (clearCart_frees_the_lines cart_LSH cart_LSH_wf).
Defined.



(** ** The catalog *)

(** X5: the lookup loop of menu choice 1 on the catalog of [main].  It
    finds a product exactly for the ids 1 to 5, and the product found
    has the id that was asked for; every other id leaves
    [selectedProduct] null. *)
Theorem find_product_in_catalog (id : Z) :
  match find_product products id with
  | Some p => 1 <= id <= 5 /\ getId p = id /\ In p products
  | None => id < 1 \/ 5 < id
  end.
Proof.
  unfold products. cbn [find_product getId].
  repeat match goal with
         | |- context [?a =? id] =>
             destruct (Z.eqb_spec a id) as [<-|?];
               [cbn; split; [lia|]; split; [reflexivity|]; tauto|]
         end.
  lia.
Qed.

(** ** Menu choice 1: adding products *)

Section AddProducts.

Lemma addProduct_lines (s : Store) (p : Product) (q : Z) :
  cart_wf s ->
  exists s',
    addProduct p q s = Ok tt s' /\ cart_wf s' /\
    cart_lines s' = add_line p q (cart_lines s).
Proof.
  intros Hwf. destruct (addProduct_ok s p q Hwf) as (s' & Hrun & Hwf' & Hl & _).
  by exists s'.
Qed.

Lemma full_session_cons r r' rounds :
  full_session (r :: r' :: rounds) ->
  is_Some (chosen r) /\ toupper (snd r) = "Y"%char /\
  full_session (r' :: rounds).
Proof.
  intros [Hv Hy]. apply Forall_cons_1 in Hv as [Hr Hv].
  change (removelast (r :: r' :: rounds))
    with (r :: removelast (r' :: rounds)) in Hy.
  apply Forall_cons_1 in Hy as [Hyr Hy]. done.
Qed.

Lemma omap_chosen_one (r : int_input * ascii) :
  omap chosen [r] = match chosen r with Some x => [x] | None => [] end.
Proof. cbn. by destruct (chosen r). Qed.

Lemma file_add_products_run (rounds : list (int_input * ascii)) :
  forall (addMore : ascii) (w : FileLog.World),
  cart_wf (FileLog.store w) ->
  exists (w' : FileLog.World) (k : nat),
    FileLog.add_products rounds addMore w = Ok tt w' /\
    cart_wf (FileLog.store w') /\
    FileLog.fs w' = FileLog.fs w /\
    (k <= length rounds)%nat /\
    cart_lines (FileLog.store w') =
      add_lines (omap chosen (take k rounds)) (cart_lines (FileLog.store w)) /\
    (full_session rounds -> k = length rounds).
Proof.
  induction rounds as [|[idInput answer] rounds IH]; intros a0 w Hwf.
  - exists w, 0%nat. by cbn.
  - cbn [FileLog.add_products].
    assert (forall (a : ascii) (w1 : FileLog.World) (here : list (Product * Z)),
              cart_wf (FileLog.store w1) ->
              FileLog.fs w1 = FileLog.fs w ->
              omap chosen [(idInput, answer)] = here ->
              cart_lines (FileLog.store w1) =
                add_lines here (cart_lines (FileLog.store w)) ->
              (is_Some (chosen (idInput, answer)) ->
               toupper answer = "Y"%char -> a = "Y"%char) ->
              exists (w' : FileLog.World) (k : nat),
                (if Ascii.eqb a "Y"
                 then FileLog.add_products rounds a
                 else ret tt) w1 = Ok tt w' /\
                cart_wf (FileLog.store w') /\
                FileLog.fs w' = FileLog.fs w /\
                (k <= S (length rounds))%nat /\
                cart_lines (FileLog.store w') =
                  add_lines (omap chosen (take k ((idInput, answer) :: rounds)))
                    (cart_lines (FileLog.store w)) /\
                (full_session ((idInput, answer) :: rounds) ->
                 k = S (length rounds))) as Hnext.
    { intros a w1 here Hwf1 Hfs1 Hhere Hlines1 Hyes.
      destruct (Ascii.eqb_spec a "Y") as [->|Hno].
      - destruct (IH "Y"%char w1 Hwf1) as (w' & k & Hrun & Hwf' & Hfs' & Hk & Hl & Hfull).
        exists w', (S k). split; [done|]. split; [done|].
        split; [congruence|]. split; [lia|]. split.
        + cbn [take]. change ((idInput, answer) :: take k rounds)
            with ([(idInput, answer)] ++ take k rounds).
          rewrite omap_app, Hhere. unfold add_lines in *.
          by rewrite fold_left_app, <- Hlines1.
        + intros Hs. f_equal. apply Hfull. destruct rounds as [|r' rounds'].
          * split; constructor.
          * by apply full_session_cons in Hs as (_ & _ & Hs).
      - exists w1, 1%nat. split; [done|]. split; [done|]. split; [done|].
        split; [lia|]. split.
        + cbn [take]. rewrite take_0. by rewrite Hhere.
        + intros Hs. destruct rounds as [|r' rounds']; [done|].
          apply full_session_cons in Hs as (Hv & Hy & _). by apply Hyes in Hv. }
    match goal with |- exists w' k, bind ?inner _ w = _ /\ _ =>
      assert (exists (a : ascii) (w1 : FileLog.World) (here : list (Product * Z)),
                inner w = Ok a w1 /\
                cart_wf (FileLog.store w1) /\
                FileLog.fs w1 = FileLog.fs w /\
                omap chosen [(idInput, answer)] = here /\
                cart_lines (FileLog.store w1) =
                  add_lines here (cart_lines (FileLog.store w)) /\
                (is_Some (chosen (idInput, answer)) ->
                 toupper answer = "Y"%char -> a = "Y"%char))
        as (a & w1 & here & Hinner & Hwf1 & Hfs1 & Hhere & Hlines1 & Hyes)
    end.
    { rewrite omap_chosen_one. unfold chosen. cbn [fst snd].
      destruct idInput as [id|]; cbn [getValidatedInput];
        unfold try_catch, bind, ret, throw;
        [|eexists _, _, _; split; [reflexivity|]; simpl_world;
          split; [exact Hwf|]; do 3 (split; [done|]); by intros [? ?]].
      destruct (find_product products id) as [p|] eqn:Hfind;
        [|eexists _, _, _; split; [reflexivity|]; simpl_world;
          split; [exact Hwf|]; do 3 (split; [done|]); by intros [? ?]].
      destruct (addProduct_lines (FileLog.store w) p 1 Hwf)
        as (s1 & Hadd & Hwf1 & Hlines1).
      rewrite (file_on_store_ok _ _ _ _ Hadd).
      unfold FileLog.print, FileLog.read_yes_no, try_catch, ret, throw.
      simpl_world.
      destruct (Ascii.eqb_spec (toupper answer) "Y") as [Hy|Hy]; cbn [negb andb].
      - eexists _, _, _. split; [reflexivity|]. simpl_world.
        split; [exact Hwf1|]. by do 3 (split; [done|]).
      - destruct (Ascii.eqb (toupper answer) "N"); cbn [negb];
          eexists _, _, _; (split; [reflexivity|]); simpl_world;
          (split; [exact Hwf1|]); by do 3 (split; [done|]). }
    rewrite (bind_ok _ _ _ _ _ Hinner).
    exact (Hnext a w1 here Hwf1 Hfs1 Hhere Hlines1 Hyes).
Qed.

Lemma memory_add_products_run (rounds : list (int_input * ascii)) :
  forall (addMore : ascii) (w : MemoryLog.World),
  cart_wf (MemoryLog.store w) ->
  exists (w' : MemoryLog.World) (k : nat),
    MemoryLog.add_products rounds addMore w = Ok tt w' /\
    cart_wf (MemoryLog.store w') /\
    (MemoryLog.orders w' = MemoryLog.orders w /\
     MemoryLog.orderCount w' = MemoryLog.orderCount w /\
     MemoryLog.nextOrderId w' = MemoryLog.nextOrderId w) /\
    (k <= length rounds)%nat /\
    cart_lines (MemoryLog.store w') =
      add_lines (omap chosen (take k rounds))
        (cart_lines (MemoryLog.store w)) /\
    (full_session rounds -> k = length rounds) /\
    (forall copies values,
       kept_apart copies values (MemoryLog.store w) ->
       kept_apart copies values (MemoryLog.store w')).
Proof.
  induction rounds as [|[idInput answer] rounds IH]; intros a0 w Hwf.
  - exists w, 0%nat. by cbn.
  - cbn [MemoryLog.add_products].
    match goal with |- exists w' k, bind ?inner _ w = _ /\ _ =>
      assert (exists (a : ascii) (w1 : MemoryLog.World)
                     (here : list (Product * Z)),
                inner w = Ok a w1 /\
                cart_wf (MemoryLog.store w1) /\
                (MemoryLog.orders w1 = MemoryLog.orders w /\
                 MemoryLog.orderCount w1 = MemoryLog.orderCount w /\
                 MemoryLog.nextOrderId w1 = MemoryLog.nextOrderId w) /\
                omap chosen [(idInput, answer)] = here /\
                cart_lines (MemoryLog.store w1) =
                  add_lines here (cart_lines (MemoryLog.store w)) /\
                (is_Some (chosen (idInput, answer)) ->
                 toupper answer = "Y"%char -> a = "Y"%char) /\
                (forall copies values,
                   kept_apart copies values (MemoryLog.store w) ->
                   kept_apart copies values (MemoryLog.store w1)))
        as (a & w1 & here & Hinner & Hwf1 & Hfr1 & Hhere & Hlines1 & Hyes & Hk1)
    end.
    { rewrite omap_chosen_one. unfold chosen. cbn [fst snd].
      destruct idInput as [id|]; cbn [getValidatedInput];
        unfold try_catch, bind, ret, throw;
        [|eexists _, _, _; split; [reflexivity|]; simpl_world;
          split; [exact Hwf|]; do 3 (split; [done|]);
          split; [by intros [? ?]|done]].
      destruct (find_product products id) as [p|] eqn:Hfind;
        [|eexists _, _, _; split; [reflexivity|]; simpl_world;
          split; [exact Hwf|]; do 3 (split; [done|]);
          split; [by intros [? ?]|done]].
      destruct (addProduct_lines (MemoryLog.store w) p 1 Hwf)
        as (s1 & Hadd & Hwf1 & Hlines1).
      rewrite (memory_on_store_ok _ _ _ _ Hadd).
      unfold MemoryLog.print. simpl_world.
      eexists _, _, _. split; [reflexivity|]. simpl_world.
      split; [exact Hwf1|]. do 4 (split; [done|]).
      intros copies values Hkept.
      destruct (addProduct_keeps copies values _ p 1 Hkept) as (s2 & Hadd2 & ?).
      rewrite Hadd in Hadd2. by injection Hadd2 as <-. }
    rewrite (bind_ok _ _ _ _ _ Hinner).
    destruct (Ascii.eqb_spec a "Y") as [->|Hno].
    + destruct (IH "Y"%char w1 Hwf1)
        as (w' & k & Hrun & Hwf' & Hfr' & Hk & Hl & Hfull & Hkeep).
      exists w', (S k). split; [done|]. split; [done|].
      split; [destruct Hfr' as (-> & -> & ->); exact Hfr1|].
      split; [cbn; lia|]. split; [|split].
      * cbn [take]. change ((idInput, answer) :: take k rounds)
          with ([(idInput, answer)] ++ take k rounds).
        rewrite omap_app, Hhere. unfold add_lines in *.
        by rewrite fold_left_app, <- Hlines1.
      * intros Hs. cbn [length]. f_equal. apply Hfull.
        destruct rounds as [|r' rounds'].
        -- split; constructor.
        -- by apply full_session_cons in Hs as (_ & _ & Hs).
      * intros copies values Hkept. by apply Hkeep, Hk1.
    + exists w1, 1%nat. split; [done|]. split; [done|]. split; [done|].
      split; [cbn; lia|]. split; [|split].
      * cbn [take]. rewrite take_0. by rewrite Hhere.
      * intros Hs. destruct rounds as [|r' rounds']; [done|].
        apply full_session_cons in Hs as (Hv & Hy & _). by apply Hyes in Hv.
      * done.
Qed.




End AddProducts.



(** X7: a session at menu choice 1 in which every id typed is in the
    catalog and every answer before the last is [y] or [Y] puts one unit
    of each of these products in the cart, in the order typed, a product
    typed again adding to its line.  This holds in both programs and
    does not depend on the uninitialised [addMore]. *)
Theorem full_session_fills_cart
  (rounds : list (int_input * ascii)) (addMore : ascii) :
  full_session rounds ->
  (forall w : FileLog.World,
     cart_wf (FileLog.store w) ->
     exists w' : FileLog.World,
       FileLog.add_products rounds addMore w = Ok tt w' /\
       cart_lines (FileLog.store w') =
         add_lines (omap chosen rounds) (cart_lines (FileLog.store w))) /\
  (forall w : MemoryLog.World,
     cart_wf (MemoryLog.store w) ->
     exists w' : MemoryLog.World,
       MemoryLog.add_products rounds addMore w = Ok tt w' /\
       cart_lines (MemoryLog.store w') =
         add_lines (omap chosen rounds) (cart_lines (MemoryLog.store w))).
Proof.
  intros Hfull. split; intros w Hwf.
  - destruct (file_add_products_run rounds addMore w Hwf)
      as (w' & k & Hrun & _ & _ & _ & Hlines & Hk).
    exists w'. split; [done|]. by rewrite Hlines, (Hk Hfull), firstn_all.
  - destruct (memory_add_products_run rounds addMore w Hwf)
      as (w' & k & Hrun & _ & _ & _ & Hlines & Hk & _).
    exists w'. split; [done|]. by rewrite Hlines, (Hk Hfull), firstn_all.
Qed.

Lemma full_session_fills_cart_witness :
  full_session three_rounds /\
  (exists w' : FileLog.World,
     FileLog.add_products three_rounds "N" shop_opening = Ok tt w' /\
     cart_lines (FileLog.store w') =
       [mkCartItem Headphones 2; mkCartItem Laptop 1]) /\
  (exists w' : MemoryLog.World,
     MemoryLog.add_products three_rounds "N" MemoryLog.initial_world =
       Ok tt w' /\
     cart_lines (MemoryLog.store w') =
       [mkCartItem Headphones 2; mkCartItem Laptop 1]).
Proof.
  assert (full_session three_rounds) as Hfull.
  { split; repeat constructor; by eexists. }
  split; [exact Hfull|].
  destruct (full_session_fills_cart three_rounds "N" Hfull) as [Hfile Hmem].
  split.
  - exact (Hfile shop_opening initial_store_wf).
  - exact (Hmem MemoryLog.initial_world initial_store_wf).
Defined.

(** ** Menu choice 2 and the menu loop of [1.cpp] *)

Section FileMenu.

Import FileLog.

Implicit Types (w : World).

Lemma file_read_yes_no_run (answer : ascii) w :
  exists out : list (output (list OrderBlock)),
    read_yes_no answer w =
    Ok (if negb (Ascii.eqb (toupper answer) "Y") &&
          negb (Ascii.eqb (toupper answer) "N")
        then None else Some (toupper answer))
       (mkWorld (store w) (fs w) (console w ++ out)).
Proof.
  unfold read_yes_no, try_catch, ret.
  destruct (negb (Ascii.eqb (toupper answer) "Y") &&
            negb (Ascii.eqb (toupper answer) "N")).
  - by eexists [_].
  - exists []. rewrite app_nil_r. by destruct w.
Qed.

Lemma file_view_cart_run (inp : CartInputs) w :
  cart_wf (store w) ->
  exists w',
    view_cart inp w = Ok tt w' /\
    cart_wf (store w') /\
    ((store w' = store w /\ fs w' = fs w) \/
     (cart_lines (store w) <> [] /\
      toupper (checkoutChoice inp) = "Y"%char /\
      exists (n : Z) (st : PaymentStrategy),
        paymentInput inp = Number n /\
        select_strategy n = Some st /\
        cart_lines (store w') = [] /\
        fs w' = log_after (fs w) (now inp) st (cart_lines (store w)))).
Proof.
  intros Hwf. unfold view_cart.
  destruct (cart_lines (store w)) as [|it lines] eqn:Hlines.
  - apply cart_lines_nil in Hlines; [|done].
    assert ((count (cart (store w)) =? 0) = true) as Hc by by apply count_zero.
    eexists.
    unfold show_cart, on_store, zoom, displayCart, isEmpty, get_cart, print,
      bind, ret.
    rewrite Hc. cbn. rewrite Hc. split; [reflexivity|]. cbn.
    split; [done|]. by left.
  - assert (cart_lines (store w) <> []) as Hne by by rewrite Hlines.
    rewrite <- Hlines. clear Hlines it lines.
    rewrite (bind_ok _ _ _ _ _ (file_show_cart_ok w Hwf Hne)).
    erewrite bind_ok by (apply file_on_store_ok, (isEmpty_false _ Hwf Hne)).
    simpl_world.
    match goal with |- context [bind (read_yes_no ?a) _ ?w1] =>
      destruct (file_read_yes_no_run a w1) as (out & Hyn) end.
    rewrite (bind_ok _ _ _ _ _ Hyn). simpl_world.
    destruct (Ascii.eqb_spec (toupper (checkoutChoice inp)) "Y") as [Hy|Hy];
      cbn [negb andb].
    + rewrite Hy. cbn [Ascii.eqb Bool.eqb andb].
      match goal with |- context [bind (read_paymentChoice ?i) _ ?w1] =>
        pose proof (file_read_paymentChoice_spec i w1) as Hpay end.
      destruct (paymentInput inp) as [n|].
      * destruct ((n <? 1) || (3 <? n)) eqn:Hrange;
          rewrite (bind_ok _ _ _ _ _ Hpay); simpl_world.
        -- eexists. split; [reflexivity|]. simpl_world. split; [done|]. by left.
        -- destruct (select_strategy_in_range n Hrange) as [st Hst].
           match goal with |- context [checkout n ?t ?w1] =>
             destruct (file_checkout_ok w1 n t st) as (h' & _ & Hrun);
               [done|done|done|] end.
           rewrite Hrun. eexists. split; [reflexivity|]. simpl_world.
           split; [apply cleared_wf|]. right. split; [done|]. split; [done|].
           by exists n, st.
      * rewrite (bind_ok _ _ _ _ _ Hpay). simpl_world.
        eexists. split; [reflexivity|]. simpl_world. split; [done|]. by left.
    + destruct (Ascii.eqb (toupper (checkoutChoice inp)) "N"); cbn [negb].
      * apply Ascii.eqb_neq in Hy. rewrite Hy.
        eexists. split; [reflexivity|]. simpl_world. split; [done|]. by left.
      * eexists. split; [reflexivity|]. simpl_world. split; [done|]. by left.
Qed.





End FileMenu.

(** X8: in [1.cpp] nothing is checked out without a yes and a payment
    method of the menu.  Menu choice 2 on a well-formed cart always
    returns to the menu; either the cart and the log file are exactly as
    before, or the cart had lines, the answer was [y] or [Y], the
    payment choice was a number that selects a strategy, the cart is now
    empty and the log is the one the checkout of these lines leaves. *)
Theorem file_view_cart_checks_out_on_yes
  (inp : FileLog.CartInputs) (w : FileLog.World) :
  cart_wf (FileLog.store w) ->
  exists w' : FileLog.World,
    FileLog.view_cart inp w = Ok tt w' /\
    cart_wf (FileLog.store w') /\
    ((FileLog.store w' = FileLog.store w /\ FileLog.fs w' = FileLog.fs w) \/
     (cart_lines (FileLog.store w) <> [] /\
      toupper (FileLog.checkoutChoice inp) = "Y"%char /\
      exists (n : Z) (st : PaymentStrategy),
        FileLog.paymentInput inp = Number n /\
        select_strategy n = Some st /\
        cart_lines (FileLog.store w') = [] /\
        FileLog.fs w' =
          FileLog.log_after (FileLog.fs w) (FileLog.now inp) st
            (cart_lines (FileLog.store w)))).
Proof. apply file_view_cart_run. Qed.

Lemma file_view_cart_checks_out_on_yes_witness :
  cart_wf (FileLog.store (file_world None true)) /\
  exists w' : FileLog.World,
    FileLog.view_cart (FileLog.mkCartInputs "y" (Number 1) 1700000000)
      (file_world None true) = Ok tt w' /\
    cart_wf (FileLog.store w') /\
    ((FileLog.store w' = FileLog.store (file_world None true) /\
      FileLog.fs w' = FileLog.fs (file_world None true)) \/
     (cart_lines (FileLog.store (file_world None true)) <> [] /\
      toupper "y" = "Y"%char /\
      exists (n : Z) (st : PaymentStrategy),
        Number 1 = Number n /\
        select_strategy n = Some st /\
        cart_lines (FileLog.store w') = [] /\
        FileLog.fs w' =
          FileLog.log_after (FileLog.fs (file_world None true)) 1700000000 st
            (cart_lines (FileLog.store (file_world None true))))).
Proof.
  split; [exact headphones_store_wf|].
  exact (file_view_cart_checks_out_on_yes
           (FileLog.mkCartInputs "y" (Number 1) 1700000000)
           (file_world None true) headphones_store_wf).
Defined.





(** ** The menu loop of [tempCodeRunnerFile.cpp] *)

Section MemoryMenu.

Import MemoryLog.

Implicit Types (w : World).






End MemoryMenu.



(** ** Viewing the orders *)

(** X12: "view orders" in [1.cpp] on any log.  Whatever text
    [orders.log] holds (below [2^63] characters), [viewOrders] never
    ends with [std::out_of_range]: the [substr] calls stay in range even
    where a [find] has returned [npos].  It ends with
    [NoOrdersException] exactly when there is no file or no line of the
    file holds the header marker, and returns normally otherwise; in
    both cases the cart and the file are as before. *)
Theorem file_viewOrders_outcomes (w : FileLog.World) :
  match FileLog.orders_log (FileLog.fs w) with
  | Some content => FileLog.fits content
  | None => True
  end ->
  exists (out : list (output (list FileLog.OrderBlock))),
    let w' := FileLog.mkWorld (FileLog.store w) (FileLog.fs w)
                (FileLog.console w ++ out) in
    (FileLog.no_orders (FileLog.fs w) /\
     FileLog.viewOrders w = Throw NoOrdersException w') \/
    (~ FileLog.no_orders (FileLog.fs w) /\
     exists blocks : list FileLog.OrderBlock,
       FileLog.viewOrders w = Ok blocks w').
Proof.
  intros Hfit. pose proof (file_viewOrders_spec w) as Hspec.
  unfold FileLog.no_orders.
  destruct (FileLog.orders_log (FileLog.fs w)) as [content|].
  - destruct (Hspec Hfit) as (blocks & _ & Hrun). exists [History blocks].
    destruct (FileLog.has_header content).
    + right. split; [discriminate|]. by exists blocks.
    + left. by split.
  - exists []. left. split; [done|]. rewrite app_nil_r, Hspec. by destruct w.
Qed.

Lemma file_viewOrders_outcomes_witness :
  FileLog.fits "Total Amount: $199.98" /\
  exists (out : list (output (list FileLog.OrderBlock))),
    let w := file_world (Some "Total Amount: $199.98"%string) true in
    let w' := FileLog.mkWorld (FileLog.store w) (FileLog.fs w)
                (FileLog.console w ++ out) in
    (FileLog.no_orders (FileLog.fs w) /\
     FileLog.viewOrders w = Throw NoOrdersException w') \/
    (~ FileLog.no_orders (FileLog.fs w) /\
     exists blocks : list FileLog.OrderBlock,
       FileLog.viewOrders w = Ok blocks w').
Proof.
  assert (FileLog.fits "Total Amount: $199.98") as Hfit
    by (vm_compute; reflexivity).
  split; [exact Hfit|].
  exact (file_viewOrders_outcomes
           (file_world (Some "Total Amount: $199.98"%string) true) Hfit).
Defined.

(** X13: "view orders" in [tempCodeRunnerFile.cpp] ends with
    [NoOrdersException] exactly when [orderCount] is zero. *)
Theorem memory_viewOrders_reports_no_orders (w : MemoryLog.World) :
  (exists w' : MemoryLog.World,
     MemoryLog.viewOrders w = Throw NoOrdersException w') <->
  MemoryLog.orderCount w = 0.
Proof. apply memory_viewOrders_NoOrders_iff. Qed.



(** ** The log format *)

Section LogFormat.

Import FileLog.
Local Open Scope N_scope.
Local Arguments String.append : simpl nomatch.


Lemma to_string_int_inj (a b : Z) : to_string_int a = to_string_int b -> a = b.
Proof.
  unfold to_string_int. intros H.
  apply (f_equal NilZero.int_of_string) in H.
  assert (forall z, Z.to_int z <> Decimal.Pos Decimal.Nil /\
                    Z.to_int z <> Decimal.Neg Decimal.Nil) as Hnil.
  { intros [|p|p]; cbn; split; try discriminate;
      intros [= Hp]; by apply DecimalPos.Unsigned.to_uint_nonnil in Hp. }
  rewrite !NilZero.isi in H by apply Hnil.
  injection H as H. apply (f_equal Z.of_int) in H.
  by rewrite !DecimalZ.of_to in H.
Qed.


End LogFormat.



(** X16: the order id of [1.cpp] is ["ORD"] followed by the time in
    seconds, so two checkouts get the same order id exactly when
    [time(nullptr)] returns the same value for both: ids are unique only
    across different seconds. *)
Theorem order_id_same_second (now1 now2 : Z) :
  FileLog.order_id now1 = FileLog.order_id now2 <-> now1 = now2.
Proof.
  split; [|by intros ->].
  unfold FileLog.order_id. intros H.
  apply to_string_int_inj.
  change ("ORD" ++ ?x)%string with (String "O" (String "R" (String "D" x))) in H.
  by injection H.
Qed.

(** ** Reading a number from [cin] *)

Section CinFacts.

Local Arguments String.append : simpl nomatch.

Implicit Types (s cin rest ds ws : string) (c : ascii).

Lemma skip_ws_split s :
  exists ws, s = (ws ++ skip_ws s)%string /\ all_chars is_space ws = true.
Proof.
  induction s as [|c s (ws & Hs & Hws)]; [by exists EmptyString|].
  cbn [skip_ws]. destruct (is_space c) eqn:Hc.
  - exists (String c ws). cbn. by rewrite Hc, <- Hs.
  - by exists EmptyString.
Qed.

Lemma skip_ws_append ws s :
  all_chars is_space ws = true -> skip_ws (ws ++ s) = skip_ws s.
Proof.
  induction ws as [|c ws IH]; [done|]. cbn.
  intros [Hc Hws]%andb_true_iff. by rewrite Hc, IH.
Qed.

Lemma skip_ws_here c s : is_space c = false -> skip_ws (String c s) = String c s.
Proof. cbn. by intros ->. Qed.

Lemma span_digits_split s :
  s = (fst (span_digits s) ++ snd (span_digits s))%string /\
  all_chars is_digit (fst (span_digits s)) = true.
Proof.
  induction s as [|c s [Hs Hds]]; [done|]. cbn [span_digits].
  destruct (is_digit c) eqn:Hc; [|done].
  destruct (span_digits s) as [ds rest]. cbn [fst snd] in *.
  cbn. by rewrite Hc, <- Hs.
Qed.

Lemma span_digits_append ds c rest :
  all_chars is_digit ds = true -> is_digit c = false ->
  span_digits (ds ++ String c rest) = (ds, String c rest).
Proof.
  intros Hds Hc. induction ds as [|d ds IH]; cbn.
  - by rewrite Hc.
  - cbn in Hds. apply andb_true_iff in Hds as [Hd Hds].
    by rewrite Hd, IH.
Qed.

Lemma read_line_split s :
  (exists line, s = (line ++ String newline (snd (read_line s)))%string) \/
  snd (read_line s) = EmptyString.
Proof.
  induction s as [|c s IH]; [by right|]. cbn [read_line].
  destruct (Ascii.eqb_spec c newline) as [->|Hc].
  - left. by exists EmptyString.
  - destruct (read_line s) as [l r]. cbn [snd] in *.
    destruct IH as [[line Hs]|Hr]; [|by right].
    left. exists (String c line). cbn. by rewrite <- Hs.
Qed.

(** The text that an extraction leaves is a suffix of the text it
    found, and a successful one has consumed something. *)
Lemma extract_int_split cin :
  exists pre,
    cin = (pre ++ snd (extract_int cin))%string /\
    (is_Some (fst (extract_int cin)) -> pre <> EmptyString).
Proof.
  unfold extract_int.
  destruct (skip_ws_split cin) as (ws & Hcin & _).
  set (s1 := skip_ws cin) in *.
  assert (exists sg s2,
            (let (negative, s2) :=
               match s1 with
               | String "-" r => (true, r)
               | String "+" r => (false, r)
               | _ => (false, s1)
               end in (negative, s2)) = (sg, s2) /\
            exists sgn, s1 = (sgn ++ s2)%string) as (sg & s2 & Hsg & sgn & Hs1).
  { destruct s1 as [|c r]; [by exists false, EmptyString; split; [|exists EmptyString]|].
    destruct (Ascii.eqb_spec c "-") as [->|Hm].
    { exists true, r. split; [done|]. by exists "-"%string. }
    destruct (Ascii.eqb_spec c "+") as [->|Hp].
    { exists false, r. split; [done|]. by exists "+"%string. }
    exists false, (String c r). split; [|by exists EmptyString].
    destruct c as [[] [] [] [] [] [] [] []]; done. }
  match goal with |- context [let (_, _) := ?m in _] =>
    replace m with (sg, s2)
      by (revert Hsg; destruct s1 as [|c r]; [by intros [= <- <-]|];
          destruct c as [[] [] [] [] [] [] [] []]; by intros [= <- <-])
  end.
  destruct (span_digits_split s2) as [Hs2 _].
  destruct (span_digits s2) as [ds rest]. cbn [fst snd] in Hs2.
  exists (ws ++ sgn ++ ds)%string.
  assert (cin = ((ws ++ sgn ++ ds) ++ rest)%string) as Hall.
  { rewrite Hcin, Hs1, Hs2. by rewrite !append_assoc. }
  destruct ds as [|d ds].
  - cbn. split; [done|]. by intros [? ?].
  - assert ((ws ++ sgn ++ String d ds)%string <> EmptyString) as Hne.
    { destruct ws; [|done]. destruct sgn; done. }
    destruct (NilZero.uint_of_string (String d ds)); [|by split].
    by destruct (_ && _).
Qed.

Lemma getValidatedInput_cin_split cin :
  exists pre,
    cin = (pre ++ snd (getValidatedInput_cin cin))%string /\
    (cin <> EmptyString -> pre <> EmptyString) /\
    (snd (getValidatedInput_cin cin) = EmptyString \/
     exists p, pre = (p ++ String newline EmptyString)%string).
Proof.
  unfold getValidatedInput_cin.
  destruct (extract_int_split cin) as (pre & Hcin & Hpre).
  assert (forall rest,
            cin = (pre ++ rest)%string ->
            exists pre',
              cin = (pre' ++ ignore_line rest)%string /\
              (cin <> EmptyString -> pre' <> EmptyString) /\
              (ignore_line rest = EmptyString \/
               exists p, pre' = (p ++ String newline EmptyString)%string))
    as Hignore.
  { intros rest Hrest. unfold ignore_line.
    destruct (read_line_split rest) as [[line Hline]|Hnone].
    - exists (pre ++ line ++ String newline EmptyString)%string.
      split; [|split].
      + rewrite Hrest, Hline at 1. by rewrite !append_assoc.
      + intros _. destruct pre; [|done]. by destruct line.
      + right. exists (pre ++ line)%string. by rewrite append_assoc.
    - exists cin. rewrite Hnone, append_empty_r. split; [done|].
      split; [done|by left]. }
  destruct (extract_int cin) as [[value|] rest]; cbn [fst snd] in *;
    [|by apply Hignore].
  destruct rest as [|c rest']; cbn [snd].
  - exists cin. rewrite append_empty_r. split; [done|]. split; [done|by left].
  - destruct (Ascii.eqb_spec c newline) as [->|Hc]; [|by apply Hignore].
    cbn [snd]. exists (pre ++ String newline EmptyString)%string.
    split; [by rewrite append_assoc|]. split; [|right; by exists pre].
    intros _. by destruct pre.
Qed.

Lemma is_digit_newline : is_digit newline = false.
Proof. reflexivity. Qed.

Lemma extract_printed_int (n : Z) rest :
  in_int_range n ->
  extract_int (to_string_int n ++ String newline rest) =
  (Some n, String newline rest).
Proof.
  intros [Hlo Hhi]. unfold extract_int, to_string_int.
  assert (forall d, d <> Decimal.Nil ->
            span_digits (NilZero.string_of_uint d ++ String newline rest) =
              (NilZero.string_of_uint d, String newline rest) /\
            NilZero.uint_of_string (NilZero.string_of_uint d) = Some d /\
            exists c s, NilZero.string_of_uint d = String c s /\
                        is_digit c = true) as Hd.
  { intros d Hnil. split; [|split].
    - apply span_digits_append; [|reflexivity].
      unfold NilZero.string_of_uint. destruct d; try done; apply uint_digits.
    - by apply NilZero.usu.
    - pose proof (uint_digits d) as Hall.
      unfold NilZero.string_of_uint. destruct d; [done|..]; cbn in *;
        eexists _, _; (split; [reflexivity|reflexivity]). }
  assert (forall c s, is_digit c = true ->
            skip_ws (String c s) = String c s /\
            c <> "-"%char /\ c <> "+"%char) as Hfirst.
  { intros c s Hc. split; [|split]; [|by intros ->..].
    apply skip_ws_here. destruct c as [[] [] [] [] [] [] [] []]; done. }
  assert ((INT_MIN <=? n) && (n <=? INT_MAX) = true) as Hrange.
  { apply andb_true_iff. split; by apply Z.leb_le. }
  destruct n as [|p|p]; cbn [Z.to_int NilZero.string_of_int].
  - cbn. reflexivity.
  - destruct (Hd (Pos.to_uint p) (DecimalPos.Unsigned.to_uint_nonnil p))
      as (Hspan & Hval & c & s & Hs & Hc).
    destruct (Hfirst c (s ++ String newline rest)%string Hc) as (Hws & Hm & Hp).
    rewrite Hs in Hspan |- *. cbn [String.append] in Hspan |- *. rewrite Hws.
    replace (match c with
             | "-"%char => (true, (s ++ String newline rest)%string)
             | "+"%char => (false, (s ++ String newline rest)%string)
             | _ => (false, String c (s ++ String newline rest))
             end) with (false, String c (s ++ String newline rest))
      by (destruct c as [[] [] [] [] [] [] [] []]; done).
    rewrite Hspan, <- Hs, Hval.
    change (Z.of_int (Decimal.Pos (Pos.to_uint p)))
      with (Z.of_int (Z.to_int (Z.pos p))).
    by rewrite DecimalZ.of_to, Hrange.
  - destruct (Hd (Pos.to_uint p) (DecimalPos.Unsigned.to_uint_nonnil p))
      as (Hspan & Hval & _).
    cbn [String.append skip_ws]. change (is_space "-") with false. cbv iota.
    rewrite Hspan, Hval.
    change (Z.of_int (Decimal.Neg (Pos.to_uint p)))
      with (Z.of_int (Z.to_int (Z.neg p))).
    by rewrite DecimalZ.of_to, Hrange.
Qed.

Lemma extract_int_skips ws cin :
  all_chars is_space ws = true ->
  extract_int (ws ++ cin) = extract_int cin.
Proof. intros Hws. unfold extract_int. by rewrite skip_ws_append. Qed.


End CinFacts.

(** X17: [getValidatedInput<int>] reads back what [to_string] prints.
    For every [int] value, if the text of [cin] is any whitespace, the
    decimal form of the value and a newline, the function returns that
    value and leaves exactly the text after the newline. *)
Theorem getValidatedInput_reads_printed_int (n : Z) (ws rest : string) :
  in_int_range n ->
  all_chars is_space ws = true ->
  getValidatedInput_cin (ws ++ to_string_int n ++ String newline rest) =
  (Number n, rest).
Proof.
  intros Hn Hws. unfold getValidatedInput_cin.
  rewrite (extract_int_skips ws _ Hws), (extract_printed_int n rest Hn).
  reflexivity.
Qed.

Lemma getValidatedInput_reads_printed_int_witness :
  in_int_range (-2147483648) /\
  all_chars is_space "  " = true /\
  getValidatedInput_cin
    ("  " ++ "-2147483648" ++ String newline "y")%string = (Number (-2147483648), "y"%string).
Proof.
  assert (in_int_range (-2147483648)) as Hn by (by vm_compute).
  split; [exact Hn|]. split; [reflexivity|].
  exact (getValidatedInput_reads_printed_int (-2147483648) "  " "y" Hn eq_refl).
Defined.



(** X19: [getValidatedInput<int>] reads whole lines.  Whatever [cin]
    holds, the text that a call leaves is a suffix of the text it
    found; the call consumes at least one character unless [cin] is
    used up; and it stops just after a newline or at the end of the
    text, so that the next read starts on a fresh line.  On a [cin]
    that is used up it throws [InvalidInputException] and leaves [cin]
    as it is. *)
Theorem getValidatedInput_consumes_lines (cin : string) :
  (exists pre : string,
     cin = (pre ++ snd (getValidatedInput_cin cin))%string /\
     (cin <> EmptyString -> pre <> EmptyString) /\
     (snd (getValidatedInput_cin cin) = EmptyString \/
      exists p : string, pre = (p ++ String newline EmptyString)%string)) /\
  getValidatedInput_cin EmptyString = (Garbage, EmptyString) /\
  forall S : Type,
    @getValidatedInput S (fst (getValidatedInput_cin EmptyString)) =
    throw InvalidInputException.
Proof.
  split; [apply getValidatedInput_cin_split|]. by split.
Qed.

(** ** The end of [tempCodeRunnerFile.cpp] *)

Section ExitCleanup.

Import MemoryLog.

Implicit Types (w : World) (s : Store) (l : loc).

Lemma copy_items_dom (ls : list loc) : forall s copies s',
  copy_items ls s = Ok copies s' ->
  dom (heap s') = dom (heap s) ∪ list_to_set copies.
Proof.
  induction ls as [|l ls IH]; intros s copies s'; cbn [copy_items].
  - intros [= <- <-]. cbn. by rewrite union_empty_r_L.
  - unfold bind at 1, deref. destruct (heap s !! l) as [it|]; [|done].
    unfold bind at 1, new.
    set (s1 := mkStore _ _). unfold bind, ret.
    destruct (copy_items ls s1) as [cs s2| |] eqn:Hrec; [|done..].
    intros [= <- <-]. rewrite (IH _ _ _ Hrec). unfold s1. cbn [heap].
    rewrite dom_insert_L. cbn [list_to_set].
    apply set_eq. intros x. rewrite !elem_of_union. tauto.
Qed.

(** The checkout, with the exact content of the heap afterwards. *)
Lemma memory_checkout_heap w (paymentChoice : Z) (st : PaymentStrategy) :
  cart_wf (store w) ->
  cart_lines (store w) <> [] ->
  select_strategy paymentChoice = Some st ->
  0 <= orderCount w < ORDERS_SIZE ->
  exists copies h',
    checkout paymentChoice w =
      Ok tt (mkWorld
               (mkStore h' (mkCart [] (capacity (cart (store w)))))
               (<[Z.to_nat (orderCount w) :=
                    Some (mkOrder (nextOrderId w) (getMethodName st) copies
                                  (sum_lines (cart_lines (store w))))]>
                  (orders w))
               (int_add (orderCount w) 1)
               (int_add (nextOrderId w) 1)
               (console w ++ [Cout checkout_notice])) /\
    NoDup copies /\
    (forall l, l ∈ copies -> ~ is_Some (heap (store w) !! l)) /\
    (forall l, is_Some (h' !! l) <->
               (is_Some (heap (store w) !! l) /\ l ∉ items (cart (store w))) \/
               l ∈ copies).
Proof.
  intros Hwf Hne Hsel Hroom.
  destruct (copy_items_ok (items (cart (store w))) (store w))
    as (copies & h1 & Hcopy & Hvals & Hlive1 & Hnd1 & Hnew & Hold);
    [apply Hwf|].
  pose proof (copy_items_dom _ _ _ _ Hcopy) as Hdom. cbn [heap] in Hdom.
  assert (cart_wf (mkStore h1 (cart (store w)))) as Hwf1.
  { destruct Hwf as [Hnd Hlive]. split; [exact Hnd|]. cbn.
    rewrite Forall_forall in Hlive |- *. intros k Hk.
    rewrite Hold; [by apply Hlive|]. apply elem_of_dom. by apply Hlive. }
  destruct (clearCart_ok _ Hwf1) as (h' & Hclear & Hkeep & Hgone).
  cbn [cart heap capacity] in Hclear, Hkeep, Hgone.
  assert (forall l, l ∈ copies -> l ∉ items (cart (store w))) as Hapart.
  { intros l Hl Hin. apply (Hnew _ Hl). destruct Hwf as [_ Hlive].
    rewrite Forall_forall in Hlive. apply elem_of_dom. by apply Hlive. }
  exists copies, h'. split; [|split; [|split]].
  - unfold checkout. rewrite Hsel.
    unfold on_store, zoom, take_orderId, get_cart, new_Order,
      store_order, print, bind, ret.
    rewrite (getTotalAmount_ok _ Hwf Hne).
    cbn [store orders orderCount nextOrderId console]. cbv beta.
    rewrite Hcopy. cbn [store orders orderCount nextOrderId console].
    assert ((0 <=? orderCount w) && (orderCount w <? ORDERS_SIZE) = true) as ->.
    { apply andb_true_iff. split; [apply Z.leb_le|apply Z.ltb_lt]; lia. }
    cbn [store orders orderCount nextOrderId console].
    rewrite Hclear. reflexivity.
  - exact Hnd1.
  - intros l Hl Hsome. apply (Hnew _ Hl). by apply elem_of_dom.
  - intros l. destruct (decide (l ∈ items (cart (store w)))) as [Hin|Hout].
    + rewrite (Hgone _ Hin). split; [by intros [? ?]|].
      intros [[_ ?]|Hl]; [done|]. by apply Hapart in Hl.
    + rewrite (Hkeep _ Hout), <- !elem_of_dom, Hdom, elem_of_union,
        elem_of_list_to_set. tauto.
Qed.

Lemma owned_by_app (a b : list (option Order)) :
  owned_by (a ++ b) = owned_by a ++ owned_by b.
Proof. unfold owned_by. by rewrite map_app, concat_app. Qed.

Lemma addProduct_heap_ok w (p : Product) (q : Z) :
  cart_wf (store w) -> heap_ok w ->
  exists s',
    addProduct p q (store w) = Ok tt s' /\
    cart_wf s' /\
    heap_ok (mkWorld s' (orders w) (orderCount w) (nextOrderId w) (console w)).
Proof.
  intros Hwf [Hnd Hheap].
  destruct (addProduct_shape (store w) p q Hwf) as (s' & Hrun & Hshape).
  destruct (addProduct_ok (store w) p q Hwf) as (s1 & Hrun1 & Hwf1 & _).
  rewrite Hrun in Hrun1. injection Hrun1 as <-.
  exists s'. split; [done|]. split; [done|].
  unfold heap_ok, order_log in *. simpl_world.
  destruct Hshape as [(Hit & _ & Hdom)|(l & Hl & Hit & Hdom & _)]; rewrite Hit.
  - split; [done|]. intros k. rewrite <- Hheap, <- !elem_of_dom. by rewrite Hdom.
  - assert (l ∉ items (cart (store w)) ++
                 owned_by (take (Z.to_nat (orderCount w)) (orders w))) as Hfresh.
    { intros Hin. apply Hl, elem_of_dom. by apply Hheap. }
    split.
    + rewrite <- app_assoc. apply NoDup_app in Hnd as (Hn1 & Hdis & Hn2).
      apply not_elem_of_app in Hfresh as [Hf1 Hf2].
      apply NoDup_app. split; [done|]. split.
      * intros k Hk. rewrite elem_of_app, list_elem_of_singleton.
        intros [->|Hk']; [done|]. by apply (Hdis k).
      * apply NoDup_cons. by split.
    + intros k. rewrite <- elem_of_dom, Hdom, elem_of_union, elem_of_singleton,
        elem_of_dom, Hheap, !elem_of_app, list_elem_of_singleton. tauto.
Qed.

Lemma add_all_heap_ok (ps : list (Product * Z)) : forall w,
  cart_wf (store w) -> heap_ok w ->
  exists s',
    add_all ps (store w) = Ok tt s' /\
    cart_wf s' /\
    heap_ok (mkWorld s' (orders w) (orderCount w) (nextOrderId w) (console w)).
Proof.
  induction ps as [|[p q] ps IH]; intros w Hwf Hok.
  - exists (store w). split; [done|]. split; [done|]. by destruct w.
  - destruct (addProduct_heap_ok w p q Hwf Hok) as (s1 & Hrun1 & Hwf1 & Hok1).
    destruct (IH (mkWorld s1 (orders w) (orderCount w) (nextOrderId w)
                    (console w)) Hwf1 Hok1) as (s' & Hrun & Hwf' & Hok').
    exists s'. cbn [add_all]. rewrite (bind_ok _ _ _ _ _ Hrun1).
    by split.
Qed.

Lemma purchase_heap_ok w (ps : list (Product * Z)) (choice : Z) :
  world_wf w -> heap_ok w ->
  valid_visit (ps, choice) ->
  0 <= orderCount w < ORDERS_SIZE ->
  exists w',
    purchase ps choice w = Ok tt w' /\
    world_wf w' /\ heap_ok w' /\
    items (cart (store w')) = [] /\
    orderCount w' = orderCount w + 1.
Proof.
  intros [Hwf Hlen] Hok [Hps [st Hsel]] Hroom. cbn in Hps, Hsel.
  destruct (add_all_heap_ok ps w Hwf Hok) as (s1 & Hadd & Hwf1 & [Hnd1 Hheap1]).
  destruct (add_all_ok ps _ Hwf) as (s1' & Hadd' & _ & Hne1).
  rewrite Hadd in Hadd'. injection Hadd' as <-.
  specialize (Hne1 (or_introl Hps)).
  set (w1 := mkWorld s1 (orders w) (orderCount w) (nextOrderId w) (console w))
    in *.
  destruct (memory_checkout_heap w1 choice st Hwf1 Hne1 Hsel Hroom)
    as (copies & h' & Hrun & Hndc & Hnew & Hdom).
  unfold w1 in Hrun, Hnew, Hdom. simpl_world. cbn [store] in Hrun, Hnew, Hdom.
  eexists. unfold purchase.
  erewrite bind_ok by (apply memory_on_store_ok, Hadd).
  split; [exact Hrun|]. simpl_world.
  split; [split; [apply cleared_wf|simpl_world; by rewrite length_insert]|].
  split; [|split; [reflexivity|apply int_add_one; unfold ORDERS_SIZE in *; lia]].
  unfold heap_ok, order_log in *. simpl_world. cbn [store heap cart items].
  unfold w1 in Hnd1, Hheap1. simpl_world. cbn [store] in Hnd1, Hheap1.
  rewrite order_log_insert by done. rewrite owned_by_app.
  cbn [owned_by map concat order_items]. rewrite app_nil_r. cbn [app].
  apply NoDup_app in Hnd1 as (Hn1 & Hdis & Hn2).
  split.
  - apply NoDup_app. split; [done|]. split; [|done].
    intros k Hk Hk'. apply (Hnew _ Hk'). apply Hheap1, elem_of_app. by right.
  - intros k. rewrite Hdom, Hheap1, !elem_of_app. split.
    + intros [[[Hin|Hin] Hout]|Hc]; [done|by left|by right].
    + intros [Hin|Hc]; [|by right]. left. split; [by right|].
      intros Hk. by apply (Hdis k).
Qed.

Lemma purchases_heap_ok (visits : list (list (Product * Z) * Z)) : forall w,
  world_wf w -> heap_ok w ->
  Forall valid_visit visits ->
  0 <= orderCount w ->
  orderCount w + Z.of_nat (length visits) <= ORDERS_SIZE ->
  exists w',
    purchases visits w = Ok tt w' /\
    world_wf w' /\ heap_ok w' /\
    (visits <> [] -> items (cart (store w')) = []) /\
    (visits = [] -> w' = w) /\
    orderCount w' = orderCount w + Z.of_nat (length visits).
Proof.
  induction visits as [|[ps choice] visits IH];
    intros w Hwf Hok Hvalid Hpos Hfit.
  - exists w. split; [done|]. split; [done|]. split; [done|].
    split; [done|]. split; [done|]. cbn. lia.
  - apply Forall_cons in Hvalid as [Hv Hvalid]. cbn [length] in Hfit.
    destruct (purchase_heap_ok w ps choice Hwf Hok Hv)
      as (w1 & Hrun1 & Hwf1 & Hok1 & Hempty1 & Hcount1); [lia|].
    destruct (IH w1 Hwf1 Hok1 Hvalid) as (w' & Hrun & Hwf' & Hok' & He & Hsame & Hc);
      [lia|lia|].
    exists w'. cbn [purchases]. rewrite (bind_ok _ _ _ _ _ Hrun1).
    split; [done|]. split; [done|]. split; [done|].
    split; [|split; [done|cbn [length]; lia]].
    intros _. destruct visits as [|v visits']; [by rewrite (Hsame eq_refl)|].
    by apply He.
Qed.

(** The deletion loop on the orders in [slots], which are the slots
    [k, k+1, ...] of the array. *)
Lemma delete_orders_ok (slots : list (option Order)) : forall (k : nat) w,
  (forall j, (j < length slots)%nat -> orders w !! (k + j)%nat = slots !! j) ->
  NoDup (owned_by slots) ->
  (forall l, l ∈ owned_by slots -> is_Some (heap (store w) !! l)) ->
  exists h',
    delete_orders (seq k (length slots)) w =
      Ok tt (mkWorld (mkStore h' (cart (store w))) (orders w) (orderCount w)
               (nextOrderId w) (console w)) /\
    forall l, h' !! l =
              if decide (l ∈ owned_by slots) then None
              else heap (store w) !! l.
Proof.
  induction slots as [|slot slots IH]; intros k w Hlook Hnd Hlive.
  - exists (heap (store w)). cbn. unfold ret. split; [by destruct w as [[] ? ? ? ?]|].
    intros l. destruct (decide (l ∈ owned_by [])) as [Hin|]; [|done].
    by apply elem_of_nil in Hin.
  - cbn [length seq delete_orders]. unfold bind at 1, get.
    pose proof (Hlook 0%nat ltac:(cbn; lia)) as H0.
    rewrite Nat.add_0_r in H0. cbn in H0. rewrite H0.
    assert (forall w1,
              orders w1 = orders w ->
              (forall l, l ∈ owned_by slots -> is_Some (heap (store w1) !! l)) ->
              exists h',
                delete_orders (seq (S k) (length slots)) w1 =
                  Ok tt (mkWorld (mkStore h' (cart (store w1))) (orders w1)
                           (orderCount w1) (nextOrderId w1) (console w1)) /\
                forall l, h' !! l =
                          if decide (l ∈ owned_by slots) then None
                          else heap (store w1) !! l) as Hrest.
    { intros w1 Ho Hl. apply IH; [|by apply NoDup_app in Hnd as (_ & _ & ?)|done].
      intros j Hj. rewrite Ho.
      replace (S k + j)%nat with (k + S j)%nat by lia.
      rewrite Hlook by (cbn; lia). done. }
    destruct slot as [o|].
    + change (owned_by (Some o :: slots))
        with (order_items o ++ owned_by slots) in *.
      apply NoDup_app in Hnd as (Hn1 & Hdis & Hn2).
      destruct (delete_all_ok (order_items o) (store w) Hn1) as (h1 & Hdel & Hout & Hin).
      { rewrite Forall_forall. intros l Hl. apply Hlive, elem_of_app. by left. }
      unfold delete_Order, on_store, zoom. unfold bind at 1. rewrite Hdel.
      set (w1 := mkWorld (mkStore h1 (cart (store w))) (orders w)
                   (orderCount w) (nextOrderId w) (console w)).
      destruct (Hrest w1 eq_refl) as (h' & Hrun & Hh').
      { intros l Hl. cbn. rewrite Hout; [apply Hlive, elem_of_app; by right|].
        intros Hl'. by apply (Hdis l). }
      exists h'. split; [exact Hrun|]. intros l. rewrite Hh'. cbn [w1 store heap].
      destruct (decide (l ∈ owned_by slots)) as [Hl|Hl].
      * rewrite decide_True; [done|]. apply elem_of_app. by right.
      * destruct (decide (l ∈ order_items o)) as [Hl'|Hl'].
        -- rewrite decide_True; [by apply Hin|]. apply elem_of_app. by left.
        -- rewrite decide_False; [by apply Hout|].
           rewrite elem_of_app. tauto.
    + change (owned_by (None :: slots)) with (owned_by slots) in *.
      apply (Hrest w eq_refl). exact Hlive.
Qed.

Lemma exit_cleanup_ok w :
  world_wf w -> heap_ok w ->
  0 <= orderCount w <= ORDERS_SIZE ->
  exists h',
    exit_cleanup w =
      Ok tt (mkWorld (mkStore h' (cart (store w))) (orders w) (orderCount w)
               (nextOrderId w) (console w)) /\
    (forall l, is_Some (h' !! l) <-> l ∈ items (cart (store w))) /\
    (forall l, l ∈ items (cart (store w)) -> h' !! l = heap (store w) !! l).
Proof.
  intros [Hwf Hlen] [Hnd Hheap] Hcount.
  unfold exit_cleanup, bind at 1, get.
  assert (length (order_log w) = Z.to_nat (orderCount w)) as Hl.
  { unfold order_log. rewrite length_take. unfold ORDERS_SIZE in *. lia. }
  rewrite <- Hl.
  apply NoDup_app in Hnd as (Hn1 & Hdis & Hn2).
  destruct (delete_orders_ok (order_log w) 0 w) as (h' & Hrun & Hh'); [|done| |].
  - intros j Hj. unfold order_log. rewrite lookup_take_lt; [done|lia].
  - intros l Hin. apply Hheap, elem_of_app. by right.
  - exists h'. split; [exact Hrun|]. split.
    + intros l. rewrite Hh'.
      destruct (decide (l ∈ owned_by (order_log w))) as [Hin|Hout].
      * split; [by intros [? ?]|]. intros Hl'. by apply Hdis in Hl'.
      * rewrite Hheap, elem_of_app. tauto.
    + intros l Hin. rewrite Hh'. rewrite decide_False; [done|]. by apply Hdis.
Qed.

End ExitCleanup.

(** X20: the end of [tempCodeRunnerFile.cpp] releases the orders and
    nothing else.  After any run of at most 100 visits from the start
    of the program, followed by any products put in the cart, the loop
    [delete orders[i]] at the end of [main] runs to its end: every line
    of every order is deleted exactly once and no deleted object is
    touched.  The cart is as before, and the objects that remain
    allocated are exactly the lines of the cart, which belongs to a
    singleton that is never destroyed. *)
Theorem exit_cleanup_frees_orders
  (visits : list (list (Product * Z) * Z)) (ps : list (Product * Z)) :
  Forall MemoryLog.valid_visit visits ->
  Z.of_nat (length visits) <= MemoryLog.ORDERS_SIZE ->
  exists w w' : MemoryLog.World,
    (MemoryLog.purchases visits ;; MemoryLog.on_store (add_all ps))
      MemoryLog.initial_world = Ok tt w /\
    MemoryLog.exit_cleanup w = Ok tt w' /\
    cart (MemoryLog.store w') = cart (MemoryLog.store w) /\
    cart_lines (MemoryLog.store w') = cart_lines (MemoryLog.store w) /\
    forall l : loc,
      is_Some (heap (MemoryLog.store w') !! l) <->
      l ∈ items (cart (MemoryLog.store w')).
Proof.
  intros Hvalid Hfit.
  assert (MemoryLog.heap_ok MemoryLog.initial_world) as Hok0.
  { split; [constructor|]. intros l. cbn. rewrite lookup_empty.
    split; [by intros [? ?]|]. by intros ?%elem_of_nil. }
  destruct (purchases_heap_ok visits MemoryLog.initial_world
              initial_world_wf Hok0 Hvalid)
    as (w1 & Hrun1 & [Hwf1 Hlen1] & Hok1 & _ & _ & Hcount1); [done|done|].
  destruct (add_all_heap_ok ps w1 Hwf1 Hok1) as (s2 & Hadd & Hwf2 & Hok2).
  set (w2 := MemoryLog.mkWorld s2 (MemoryLog.orders w1)
               (MemoryLog.orderCount w1) (MemoryLog.nextOrderId w1)
               (MemoryLog.console w1)) in *.
  destruct (exit_cleanup_ok w2) as (h' & Hexit & Hdom & Hsame);
    [by split|done| |].
  { unfold w2. simpl_world. rewrite Hcount1. cbn. lia. }
  exists w2. eexists. split; [|split; [exact Hexit|]].
  - rewrite (bind_ok _ _ _ _ _ Hrun1).
    by rewrite (memory_on_store_ok _ _ _ _ Hadd).
  - simpl_world. cbn [cart heap]. split; [done|]. split; [|exact Hdom].
    unfold cart_lines. cbn [heap cart]. by apply omap_lookup_agree.
Qed.

Lemma exit_cleanup_frees_orders_witness :
  exists w w' : MemoryLog.World,
    (MemoryLog.purchases [([(Headphones, 2)], 1); ([(Laptop, 1)], 2)] ;;
     MemoryLog.on_store (add_all [(Smartphone, 1)]))
      MemoryLog.initial_world = Ok tt w /\
    MemoryLog.exit_cleanup w = Ok tt w' /\
    cart (MemoryLog.store w') = cart (MemoryLog.store w) /\
    cart_lines (MemoryLog.store w') = cart_lines (MemoryLog.store w) /\
    forall l : loc,
      is_Some (heap (MemoryLog.store w') !! l) <->
      l ∈ items (cart (MemoryLog.store w')).
Proof.
  refine (exit_cleanup_frees_orders
            [([(Headphones, 2)], 1); ([(Laptop, 1)], 2)]
            [(Smartphone, 1)] _ _).
  - repeat constructor; try discriminate; by eexists.
  - cbn. unfold MemoryLog.ORDERS_SIZE. lia.
Defined.
